(** * Hubly backend: ticket lifecycle and assignment engine

    A shallow embedding of the Express/Mongoose controllers of the
    repository (controller/lead.js, controller/chat.js,
    controller/auth.js, controller/settings.js and the Mongoose models),
    followed by the properties of the design specification that were
    checked against it.

    Conventions.
    - A Mongo collection is the list of its documents in insertion
      order; [findOne] returns the first match.
    - Times are JavaScript time values: integer milliseconds ([Z]).
    - A handler is a computation over the store that can answer early
      ([return next(...)]); writes made before the answer stay. *)

From Stdlib Require Import ZArith List String Ascii Bool Lia FinFun.
From Stdlib Require Import Decimal DecimalString DecimalNat.
From Stdlib Require Import QArith Qround.
From Stdlib Require Import Permutation Sorted.
Import ListNotations.

#[local] Open Scope string_scope.
#[local] Open Scope list_scope.
#[local] Open Scope nat_scope.

(* ================================================================== *)
(** ** Data model (modal/*.js) *)
(* ================================================================== *)

(** The 12-byte value of a Mongo ObjectId. *)
Definition id := nat.

(** userSchema.userRole: enum ['Admin', 'Member']. *)
Inductive Role := Admin | Member.

(** leadSchema.status: enum ['Resolved', 'Unresolved']. *)
Inductive Status := Resolved | Unresolved.

(** leadConversationSchema.sendBy: enum ['Lead', 'Member']. *)
Inductive Sender := SendByLead | SendByMember.

Definition Role_eqb (a b : Role) : bool :=
  match a, b with Admin, Admin | Member, Member => true | _, _ => false end.

Definition Status_eqb (a b : Status) : bool :=
  match a, b with
  | Resolved, Resolved | Unresolved, Unresolved => true
  | _, _ => false
  end.

Record UserDoc := mkUser {
  user_id : id;
  email : string;
  userRole : Role;
  parent : option id
}.

Record LeadDoc := mkLead {
  lead_id : id;
  ticketID : string;
  userName : option string;
  userEmail : option string;
  userPhone : option string;
  isMissedChat : bool;
  responseTime : Z;
  currentAssignee : option id;
  assigneeList : list id;
  isFirstMessageShared : bool;
  isDetailsShared : bool;
  status : Status;
  createdAt : Z
}.

Record ConversationDoc := mkConversation {
  conv_id : id;
  leadID : id;
  message : string;
  sendBy : Sender;
  assigneeID : option id
}.

(** A JavaScript value that may be [undefined] or [null] is an [option].
    The timer fields are taken to hold integers. *)
Record MissedChatTimer := mkTimer {
  hour : option Z;
  minute : option Z;
  second : option Z
}.

Record FormPlaceholder := mkPlaceholder {
  ph_name : option string;
  ph_email : option string;
  ph_phone : option string;
  ph_submitButton : option string
}.

Record SettingsDoc := mkSettings {
  headerColor : string;
  backgroundColor : string;
  customizedMessages : list string;
  formPlaceholder : FormPlaceholder;
  welcomeMessage : option string;
  missedChatTimer : MissedChatTimer
}.

(** The persisted state: the four collections and the ObjectId
    generator of the driver. *)
Record World := mkWorld {
  users : list UserDoc;
  leads : list LeadDoc;
  conversations : list ConversationDoc;
  settings : list SettingsDoc;
  next_id : id
}.

Definition set_users (us : list UserDoc) (w : World) : World :=
  mkWorld us (leads w) (conversations w) (settings w) (next_id w).

Definition set_leads (ls : list LeadDoc) (w : World) : World :=
  mkWorld (users w) ls (conversations w) (settings w) (next_id w).

Definition set_conversations (cs : list ConversationDoc) (w : World) : World :=
  mkWorld (users w) (leads w) cs (settings w) (next_id w).

Definition set_settings (ss : list SettingsDoc) (w : World) : World :=
  mkWorld (users w) (leads w) (conversations w) ss (next_id w).

Definition bump_id (w : World) : World :=
  mkWorld (users w) (leads w) (conversations w) (settings w) (S (next_id w)).

(** What [new Date()] shows to a handler: the time value and the local
    calendar fields that [getTicketID] reads. *)
Record Clock := mkClock {
  getTime : Z;
  getFullYear : nat;
  getMonth : nat;
  getDate : nat
}.

(* ================================================================== *)
(** ** Ticket Sequencer (controller/lead.js, getTicketID) *)
(* ================================================================== *)

(** Number-to-string conversion of a template literal, for the
    non-negative integers the sequencer formats. *)
Definition num (n : nat) : string := NilEmpty.string_of_uint (Nat.to_uint n).

(** [n > 9 ? n : '0' + n] *)
Definition pad2 (n : nat) : string :=
  if 9 <? n then num n else "0" ++ num n.

Definition baseTicketID (c : Clock) : string :=
  num (getFullYear c) ++ "-" ++ pad2 (getMonth c + 1) ++ pad2 (getDate c).

(** [Lead.findOne({ ticketID })] *)
Definition Lead_findOne_ticketID (t : string) (ls : list LeadDoc)
  : option LeadDoc :=
  find (fun l => String.eqb (ticketID l) t) ls.

(** The [while (foundLead)] loop. [ticketID] is the code probed by the
    pending [findOne]; [count] is the loop counter. The loop of the
    source has no bound; [fuel] bounds the number of probes. *)
Fixpoint ticket_loop (fuel : nat) (ls : list LeadDoc)
    (base ticketID : string) (count : nat) : option string :=
  match fuel with
  | O => None
  | S fuel' =>
      match Lead_findOne_ticketID ticketID ls with
      | None => Some ticketID
      | Some _ =>
          ticket_loop fuel' ls base (base ++ "-" ++ pad2 count) (S count)
      end
  end.

Definition getTicketID_fuel (fuel : nat) (ls : list LeadDoc) (c : Clock)
  : option string :=
  ticket_loop fuel ls (baseTicketID c) (baseTicketID c) 1.

(** One more probe than there are leads always suffices
    ([ticket_loop_finds]), so this is the loop run to its end. *)
Definition getTicketID (ls : list LeadDoc) (c : Clock) : option string :=
  getTicketID_fuel (S (List.length ls)) ls c.

(** The [k]-th code the sequencer probes: the base code, then the
    suffixed variants. *)
Definition probe (base : string) (k : nat) : string :=
  match k with
  | O => base
  | S _ => base ++ "-" ++ pad2 k
  end.

(** Reading a decimal numeral back. *)
Definition parse (s : string) : option nat :=
  option_map Nat.of_uint (NilEmpty.uint_of_string s).

(** The ticket code as the specification words it: the year on four
    digits, a dash, the month and the day of the month on two digits
    each; from the second lead of a day on, a dash and the counter on
    two digits, written in full beyond 99. The digits are computed by
    division, apart from the formatting above. *)
Definition digit (n : nat) : ascii := ascii_of_nat (48 + n).

Fixpoint fixed_digits (width n : nat) : string :=
  match width with
  | O => ""
  | S w => fixed_digits w (n / 10) ++ String (digit (n mod 10)) ""
  end.

Definition spec_two_digits (n : nat) : string :=
  if n <=? 99 then fixed_digits 2 n else num n.

Definition spec_year (y : nat) : string :=
  if (1000 <=? y) && (y <? 10 * 1000) then fixed_digits 4 y else num y.

Definition spec_base_code (c : Clock) : string :=
  spec_year (getFullYear c) ++ "-"
  ++ spec_two_digits (getMonth c + 1) ++ spec_two_digits (getDate c).

Definition spec_ticket_code (c : Clock) (k : nat) : string :=
  match k with
  | O => spec_base_code c
  | S _ => spec_base_code c ++ "-" ++ spec_two_digits k
  end.

(* ================================================================== *)
(** ** Handlers: responses, early exit and the JavaScript heap *)
(* ================================================================== *)

(** util/httpStatus.js is referred to by name only. *)
Inductive RouteCode :=
| NOT_FOUND | UNAUTHORIZED | BAD_REQUEST | CONFLICT
| MISSING_REQ_PARAMS | EXPECTATION_FAILED | LOGOUT_REQESTED.

(** What the client gets: [res.status(SUCCESS).json(..)], a
    [next(new CustomError(.., code))], a [next(error)] from a [catch],
    or nothing when the handler never answers. *)
Inductive Response :=
| Success
| SuccessLead (leadID : id)
| Failure (code : RouteCode)
| Thrown
| Hang.

(** Identity of a JavaScript object. [===] and [!==] on objects compare
    identities, not contents. *)
Definition ref := nat.

(** An ObjectId instance: an object holding the 12-byte value. *)
Record ObjectId := mkOid { oid_ref : ref; oid_val : id }.

(** [a !== b] on two ObjectId instances. *)
Definition strict_neq (a b : ObjectId) : bool :=
  negb (oid_ref a =? oid_ref b).

(** [a.toString() !== b.toString()] *)
Definition toString_neq (a b : id) : bool := negb (a =? b).

(** A hydrated user document: every query builds a fresh document with
    its own ObjectId instance. *)
Record User := mkHydrated { _id : ObjectId; doc : UserDoc }.

(** State of one request: the store, the next free object identity and
    the answer sent so far (the first answer is the one the client
    sees). *)
Record HState := mkH {
  world : World;
  heap : ref;
  answer : option Response
}.

Inductive Step (A : Type) :=
| Cont (a : A)
| Exit.
Arguments Cont {A} a.
Arguments Exit {A}.

Definition Handler (A : Type) := HState -> Step A * HState.

Definition ret {A} (a : A) : Handler A := fun s => (Cont a, s).

Definition bind {A B} (m : Handler A) (f : A -> Handler B) : Handler B :=
  fun s =>
    match m s with
    | (Cont a, s') => f a s'
    | (Exit, s') => (Exit, s')
    end.

Notation "x <- m ;; k" := (bind m (fun x => k))
  (at level 61, m at next level, right associativity).
Notation "m ;;; k" := (bind m (fun _ => k))
  (at level 61, right associativity).

(** [res.status(..).json(..)] or [next(..)]: answers if nothing was
    answered yet, and goes on. *)
Definition reply (r : Response) : Handler unit :=
  fun s =>
    (Cont tt,
     mkH (world s) (heap s)
         (match answer s with Some r0 => Some r0 | None => Some r end)).

(** [return] out of the handler. *)
Definition exit {A} : Handler A := fun s => (Exit, s).

(** [return next(new CustomError(.., code))] *)
Definition next {A} (c : RouteCode) : Handler A :=
  reply (Failure c) ;;; exit.

(** [return res.status(SUCCESS).json(..)] *)
Definition res {A} (r : Response) : Handler A := reply r ;;; exit.

(** An exception inside [try]: [catch (error) { next(error) }]. *)
Definition throw {A} : Handler A := reply Thrown ;;; exit.

Definition get_world : Handler World := fun s => (Cont (world s), s).

Definition modify_world (f : World -> World) : Handler unit :=
  fun s => (Cont tt, mkH (f (world s)) (heap s) (answer s)).

Definition hydrate (u : UserDoc) : Handler User :=
  fun s =>
    (Cont (mkHydrated (mkOid (heap s) (user_id u)) u),
     mkH (world s) (S (heap s)) (answer s)).

(** Runs a handler on a store with a fresh heap. *)
Definition run {A} (m : Handler A) (w : World) : Response * World :=
  let s := snd (m (mkH w 0 None)) in
  (match answer s with Some r => r | None => Hang end, world s).

(** [!x] on a string-valued field that may be missing. *)
Definition falsy (x : option string) : bool :=
  match x with
  | None => true
  | Some s => String.eqb s ""
  end.

Definition missing {A} (x : option A) : bool :=
  match x with None => true | Some _ => false end.

(* ================================================================== *)
(** ** Queries *)
(* ================================================================== *)

Definition hydrate_opt (o : option UserDoc) : Handler (option User) :=
  match o with
  | None => ret None
  | Some u => x <- hydrate u ;; ret (Some x)
  end.

(** [User.findById(i)] *)
Definition User_findById (i : id) : Handler (option User) :=
  w <- get_world ;;
  hydrate_opt (find (fun u => user_id u =? i) (users w)).

(** [User.findOne({ userRole: 'Admin' })] *)
Definition User_findOne_Admin : Handler (option User) :=
  w <- get_world ;;
  hydrate_opt (find (fun u => Role_eqb (userRole u) Admin) (users w)).

(** [Lead.findById(i)] *)
Definition Lead_findById (i : id) : Handler (option LeadDoc) :=
  w <- get_world ;; ret (find (fun l => lead_id l =? i) (leads w)).

(** Replaces the document that carries the identifier of [l']. *)
Fixpoint replace_lead (l' : LeadDoc) (ls : list LeadDoc) : list LeadDoc :=
  match ls with
  | [] => []
  | l :: rest =>
      if lead_id l =? lead_id l' then l' :: rest
      else l :: replace_lead l' rest
  end.

(** [foundLead.save()] on a document that was read from the store. *)
Definition Lead_save (l : LeadDoc) : Handler unit :=
  modify_world (fun w => set_leads (replace_lead l (leads w)) w).

(** [new Lead({..})]: the driver draws the identifier. *)
Definition new_id : Handler id :=
  w <- get_world ;; modify_world bump_id ;;; ret (next_id w).

(** [newLead.save()] on a new document. *)
Definition Lead_insert (l : LeadDoc) : Handler unit :=
  modify_world (fun w => set_leads (leads w ++ [l]) w).

(** [new LeadConversation({..}).save()] *)
Definition LeadConversation_create (lead : id) (msg : string)
    (by_ : Sender) (assignee : option id) : Handler unit :=
  i <- new_id ;;
  modify_world (fun w =>
    set_conversations
      (conversations w ++ [mkConversation i lead msg by_ assignee]) w).

(** [ChatbotSettings.findOne()] *)
Definition ChatbotSettings_findOne : Handler (option SettingsDoc) :=
  w <- get_world ;; ret (hd_error (settings w)).

(** util/reqUser.js. When the user is gone it calls [next] without
    leaving the caller, and hands back [null]. *)
Definition getReqUser (uid : id) : Handler (option User) :=
  foundUser <- User_findById uid ;;
  match foundUser with
  | None => reply (Failure LOGOUT_REQESTED) ;;; ret None
  | Some u => ret (Some u)
  end.

(* ================================================================== *)
(** ** Lead intake (controller/lead.js) *)
(* ================================================================== *)

(** The code points [String.prototype.trim] strips (ECMAScript
    WhiteSpace and LineTerminator), as the UTF-8 byte sequences the
    strings of this file are made of:
    U+0009..U+000D and U+0020 (one byte); U+00A0 (C2 A0); U+1680
    (E1 9A 80); U+2000..U+200A, U+2028, U+2029, U+202F (E2 80 80..8A,
    A8, A9, AF); U+205F (E2 81 9F); U+3000 (E3 80 80); U+FEFF
    (EF BB BF). *)
Definition ws1 (a : nat) : bool :=
  (a =? 32) || ((9 <=? a) && (a <=? 13)).

Definition ws2 (a b : nat) : bool :=
  (a =? 194) && (b =? 160).

Definition ws3 (a b c : nat) : bool :=
  ((a =? 225) && (b =? 154) && (c =? 128))
  || ((a =? 226) && (b =? 128)
      && (((128 <=? c) && (c <=? 138))
          || (c =? 168) || (c =? 169) || (c =? 175)))
  || ((a =? 226) && (b =? 129) && (c =? 159))
  || ((a =? 227) && (b =? 128) && (c =? 128))
  || ((a =? 239) && (b =? 187) && (c =? 191)).

Fixpoint trim_start (s : string) : string :=
  match s with
  | EmptyString => EmptyString
  | String a s1 =>
      if ws1 (nat_of_ascii a) then trim_start s1 else
      match s1 with
      | EmptyString => s
      | String b s2 =>
          if ws2 (nat_of_ascii a) (nat_of_ascii b) then trim_start s2 else
          match s2 with
          | EmptyString => s
          | String c s3 =>
              if ws3 (nat_of_ascii a) (nat_of_ascii b) (nat_of_ascii c)
              then trim_start s3 else s
          end
      end
  end.

Fixpoint string_rev_append (s acc : string) : string :=
  match s with
  | EmptyString => acc
  | String a s' => string_rev_append s' (String a acc)
  end.

Definition string_rev (s : string) : string :=
  string_rev_append s EmptyString.

(** [trim_start] read from the last byte: the sequences are met in
    reverse. *)
Fixpoint trim_start_rev (s : string) : string :=
  match s with
  | EmptyString => EmptyString
  | String a s1 =>
      if ws1 (nat_of_ascii a) then trim_start_rev s1 else
      match s1 with
      | EmptyString => s
      | String b s2 =>
          if ws2 (nat_of_ascii b) (nat_of_ascii a) then trim_start_rev s2
          else
          match s2 with
          | EmptyString => s
          | String c s3 =>
              if ws3 (nat_of_ascii c) (nat_of_ascii b) (nat_of_ascii a)
              then trim_start_rev s3 else s
          end
      end
  end.

Definition trim_end (s : string) : string :=
  string_rev (trim_start_rev (string_rev s)).

(** [s.trim()] *)
Definition trim (s : string) : string := trim_end (trim_start s).

Definition postNewLead (c : Clock) (message : option string)
  : Handler unit :=
  if falsy message then next BAD_REQUEST else
  foundAdmin <- User_findOne_Admin ;;
  match foundAdmin with
  | None => next UNAUTHORIZED
  | Some admin =>
      w <- get_world ;;
      match getTicketID (leads w) c with
      | None => exit
      | Some ticket =>
          i <- new_id ;;
          Lead_insert
            (mkLead i ticket None None None false 0%Z
                    (Some (oid_val (_id admin))) [oid_val (_id admin)]
                    true false Unresolved (getTime c)) ;;;
          LeadConversation_create i
            (match message with Some m => m | None => "" end)
            SendByLead None ;;;
          res (SuccessLead i)
      end
  end.

Definition postLeadForm (leadID : option id) (name email phone : option string)
  : Handler unit :=
  match leadID, name, email, phone with
  | Some i, Some n, Some e, Some p =>
      if falsy name || falsy email || falsy phone then next BAD_REQUEST else
      foundLead <- Lead_findById i ;;
      match foundLead with
      | None => next NOT_FOUND
      | Some l =>
          Lead_save
            (mkLead (lead_id l) (ticketID l)
                    (Some (trim n)) (Some (trim e)) (Some (trim p))
                    (isMissedChat l) (responseTime l) (currentAssignee l)
                    (assigneeList l) (isFirstMessageShared l) true
                    (status l) (createdAt l)) ;;;
          res Success
      end
  | _, _, _, _ => next BAD_REQUEST
  end.

Definition putLeadMessage (leadID : option id) (message : option string)
  : Handler unit :=
  match leadID, message with
  | Some i, Some m =>
      if falsy message then next BAD_REQUEST else
      foundLead <- Lead_findById i ;;
      match foundLead with
      | None => next NOT_FOUND
      | Some l =>
          LeadConversation_create (lead_id l) m SendByLead None ;;;
          res Success
      end
  | _, _ => next BAD_REQUEST
  end.

(* ================================================================== *)
(** ** Ticket handling (controller/chat.js) *)
(* ================================================================== *)

Definition set_status (st : Status) (l : LeadDoc) : LeadDoc :=
  mkLead (lead_id l) (ticketID l) (userName l) (userEmail l) (userPhone l)
         (isMissedChat l) (responseTime l) (currentAssignee l)
         (assigneeList l) (isFirstMessageShared l) (isDetailsShared l)
         st (createdAt l).

Definition set_responseTime (t : Z) (l : LeadDoc) : LeadDoc :=
  mkLead (lead_id l) (ticketID l) (userName l) (userEmail l) (userPhone l)
         (isMissedChat l) t (currentAssignee l)
         (assigneeList l) (isFirstMessageShared l) (isDetailsShared l)
         (status l) (createdAt l).

Definition set_isMissedChat (b : bool) (l : LeadDoc) : LeadDoc :=
  mkLead (lead_id l) (ticketID l) (userName l) (userEmail l) (userPhone l)
         b (responseTime l) (currentAssignee l)
         (assigneeList l) (isFirstMessageShared l) (isDetailsShared l)
         (status l) (createdAt l).

Definition set_currentAssignee (a : option id) (l : LeadDoc) : LeadDoc :=
  mkLead (lead_id l) (ticketID l) (userName l) (userEmail l) (userPhone l)
         (isMissedChat l) (responseTime l) a
         (assigneeList l) (isFirstMessageShared l) (isDetailsShared l)
         (status l) (createdAt l).

Definition set_assigneeList (a : list id) (l : LeadDoc) : LeadDoc :=
  mkLead (lead_id l) (ticketID l) (userName l) (userEmail l) (userPhone l)
         (isMissedChat l) (responseTime l) (currentAssignee l)
         a (isFirstMessageShared l) (isDetailsShared l)
         (status l) (createdAt l).

(** [foundLead.currentAssignee.toString() !== foundUser._id.toString()];
    [Some true] when they differ, [None] when either side is [null] and
    the property access throws. *)
Definition not_current_assignee (l : LeadDoc) (u : option User)
  : option bool :=
  match currentAssignee l, u with
  | Some a, Some usr => Some (toString_neq a (oid_val (_id usr)))
  | _, _ => None
  end.

(** [foundUser._id] as stored in a reference field. *)
Definition user_val (u : option User) : option id :=
  option_map (fun x => oid_val (_id x)) u.

Definition putStatusUpdate (uid : id) (leadID : option id)
    (st : option Status) : Handler unit :=
  match leadID, st with
  | Some i, Some newStatus =>
      foundUser <- getReqUser uid ;;
      foundLead <- Lead_findById i ;;
      match foundLead with
      | None => next NOT_FOUND
      | Some l =>
          match not_current_assignee l foundUser with
          | None => throw
          | Some true => next UNAUTHORIZED
          | Some false =>
              Lead_save (set_status newStatus l) ;;;
              res Success
          end
      end
  | _, _ => next MISSING_REQ_PARAMS
  end.

Definition putLeadAssignee (uid : id) (leadID assigneeID : option id)
  : Handler unit :=
  match leadID, assigneeID with
  | Some i, Some a =>
      foundUser <- getReqUser uid ;;
      foundAdmin <- User_findOne_Admin ;;
      match foundAdmin with
      | None => next UNAUTHORIZED
      | Some admin =>
          match foundUser with
          | None => throw
          | Some usr =>
              if strict_neq (_id usr) (_id admin) then next UNAUTHORIZED else
              foundLead <- Lead_findById i ;;
              match foundLead with
              | None => next NOT_FOUND
              | Some l =>
                  foundAssignee <- User_findById a ;;
                  match foundAssignee with
                  | None => next NOT_FOUND
                  | Some assignee =>
                      let new := oid_val (_id assignee) in
                      Lead_save
                        (set_assigneeList (new :: assigneeList l)
                           (set_currentAssignee (Some new) l)) ;;;
                      res Success
                  end
              end
          end
      end
  | _, _ => next CONFLICT
  end.

(** [const { hour = 0, minute = 0, second = 0 } = missedChatTimer || {}]
    and [((hour * 60 * 60) + (minute * 60) + second) * 1000]. *)
Definition or0 (x : option Z) : Z :=
  match x with Some z => z | None => 0%Z end.

Definition missedTimerMs (s : SettingsDoc) : Z :=
  let t := missedChatTimer s in
  ((or0 (hour t) * 60 * 60 + or0 (minute t) * 60 + or0 (second t)) * 1000)%Z.

Definition putMessage (c : Clock) (uid : id) (leadID : option id)
    (message : option string) : Handler unit :=
  match leadID, message with
  | Some i, Some m =>
      if falsy message then next BAD_REQUEST else
      foundUser <- getReqUser uid ;;
      foundLead <- Lead_findById i ;;
      match foundLead with
      | None => next NOT_FOUND
      | Some l =>
          match not_current_assignee l foundUser with
          | None => throw
          | Some true => next UNAUTHORIZED
          | Some false =>
              let isFirstMessage := (responseTime l =? 0)%Z in
              let responseTimeInMs := (getTime c - createdAt l)%Z in
              let l1 :=
                if isFirstMessage
                then set_responseTime (responseTimeInMs / 1000)%Z l
                else l in
              chatbotSettings <- ChatbotSettings_findOne ;;
              match chatbotSettings with
              | None => next NOT_FOUND
              | Some s =>
                  let l2 :=
                    if ((0 <? missedTimerMs s)
                        && (missedTimerMs s <? responseTimeInMs))%Z
                    then set_isMissedChat true l1
                    else l1 in
                  Lead_save l2 ;;;
                  LeadConversation_create (lead_id l) m SendByMember
                    (user_val foundUser) ;;;
                  res Success
              end
          end
      end
  | _, _ => next BAD_REQUEST
  end.

(** The filter and update of [Lead.updateMany] in [foundMissedChats]. *)
Definition sweep_lead (thresholdTime : Z) (l : LeadDoc) : LeadDoc :=
  if ((responseTime l =? 0)%Z && negb (isMissedChat l)
      && (createdAt l <? thresholdTime)%Z)
  then set_isMissedChat true l
  else l.

(** [foundMissedChats(next)]: its [return next(..)] leaves the helper,
    not the handler that called it. *)
Definition foundMissedChats (c : Clock) : Handler unit :=
  chatbotSettings <- ChatbotSettings_findOne ;;
  match chatbotSettings with
  | None => reply (Failure NOT_FOUND)
  | Some s =>
      if (0 <? missedTimerMs s)%Z then
        modify_world (fun w =>
          set_leads
            (map (sweep_lead (getTime c - missedTimerMs s)%Z) (leads w)) w)
      else ret tt
  end.

(** [getLeadList]; the listing it answers with is a read-only
    projection and is left out. *)
Definition getLeadList (c : Clock) (uid : id) : Handler unit :=
  foundUser <- getReqUser uid ;;
  foundMissedChats c ;;;
  match foundUser with
  | None => throw
  | Some _ => res Success
  end.

(* ================================================================== *)
(** ** Mongoose middleware and Mongo update documents *)
(* ================================================================== *)

(** The statements of a model file that matter for middleware, in the
    order the file runs them: [mongoose.model(name, schema)] compiles
    the model, [schema.pre('deleteOne', {document: true}, f)] registers
    a hook on the schema. *)
Inductive SchemaStmt (H : Type) :=
| model_compile
| pre_deleteOne (hook : H).
Arguments model_compile {H}.
Arguments pre_deleteOne {H} hook.

(** Compiling copies the middleware the schema holds at that moment
    into the model; a hook registered on the schema afterwards is not
    part of the compiled model (Mongoose: "Define Middleware Before
    Compiling Models"). *)
Fixpoint middleware_of {H} (stmts : list (SchemaStmt H)) : list H :=
  match stmts with
  | [] => []
  | model_compile :: _ => []
  | pre_deleteOne h :: rest => h :: middleware_of rest
  end.

(** A document hook: [true] for [next()], [false] for [next(error)]. *)
Definition Hook (D : Type) := D -> World -> bool * World.

Fixpoint run_pre {D} (hooks : list (Hook D)) (d : D) (w : World)
  : bool * World :=
  match hooks with
  | [] => (true, w)
  | h :: rest =>
      match h d w with
      | (true, w') => run_pre rest d w'
      | (false, w') => (false, w')
      end
  end.

(** The update operators the user hook sends, each with its path. *)
Inductive UpdateOp :=
| op_set_currentAssignee (v : id)
| op_pull_assigneeList (v : id)
| op_addToSet_assigneeList (v : id).

Definition op_path (o : UpdateOp) : string :=
  match o with
  | op_set_currentAssignee _ => "currentAssignee"
  | op_pull_assigneeList _ => "assigneeList"
  | op_addToSet_assigneeList _ => "assigneeList"
  end.

(** The server refuses an update document that reaches one path
    through two operators ("Updating the path 'p' would create a
    conflict at 'p'"). *)
Fixpoint conflict_free (ops : list UpdateOp) : bool :=
  match ops with
  | [] => true
  | o :: rest =>
      negb (existsb (fun o' => String.eqb (op_path o) (op_path o')) rest)
      && conflict_free rest
  end.

Definition has_id (i : id) (l : list id) : bool := existsb (Nat.eqb i) l.

Definition apply_op (o : UpdateOp) (l : LeadDoc) : LeadDoc :=
  match o with
  | op_set_currentAssignee v => set_currentAssignee (Some v) l
  | op_pull_assigneeList v =>
      set_assigneeList
        (filter (fun x => negb (x =? v)) (assigneeList l)) l
  | op_addToSet_assigneeList v =>
      if has_id v (assigneeList l) then l
      else set_assigneeList (assigneeList l ++ [v]) l
  end.

(** [Lead.updateMany(filter, update)]; [None] when the server rejects
    the update document. *)
Definition Lead_updateMany (flt : LeadDoc -> bool) (ops : list UpdateOp)
    (w : World) : option World :=
  if conflict_free ops then
    Some (set_leads
            (map (fun l =>
                    if flt l then fold_left (fun d o => apply_op o d) ops l
                    else l)
                 (leads w)) w)
  else None.

Definition opt_id_eqb (a : option id) (i : id) : bool :=
  match a with Some x => x =? i | None => false end.

Definition set_assigneeID (a : option id) (c : ConversationDoc)
  : ConversationDoc :=
  mkConversation (conv_id c) (leadID c) (message c) (sendBy c) a.

(** modal/user-modal.js, [userSchema.pre('deleteOne', ..)] *)
Definition userSchema_pre_deleteOne : Hook UserDoc := fun member w =>
  match userRole member with
  | Admin => (true, w)
  | Member =>
      match find (fun u => Role_eqb (userRole u) Admin) (users w) with
      | None => (false, w)
      | Some adminUser =>
          match Lead_updateMany
                  (fun l => opt_id_eqb (currentAssignee l) (user_id member))
                  [op_set_currentAssignee (user_id adminUser)] w with
          | None => (false, w)
          | Some w1 =>
              match Lead_updateMany
                      (fun l => has_id (user_id member) (assigneeList l))
                      [op_pull_assigneeList (user_id member);
                       op_addToSet_assigneeList (user_id adminUser)] w1 with
              | None => (false, w1)
              | Some w2 =>
                  (true,
                   set_conversations
                     (map (fun c =>
                             if opt_id_eqb (assigneeID c) (user_id member)
                             then set_assigneeID (Some (user_id adminUser)) c
                             else c)
                          (conversations w2)) w2)
              end
          end
      end
  end.

(** modal/lead-modal.js, [leadSchema.pre('deleteOne', ..)] *)
Definition leadSchema_pre_deleteOne : Hook LeadDoc := fun lead w =>
  (true,
   set_conversations
     (filter (fun c => negb (leadID c =? lead_id lead)) (conversations w)) w).

(** modal/user-modal.js: [mongoose.model('User', userSchema)] comes
    first, [userSchema.pre('deleteOne', ..)] after it. *)
Definition user_modal : list (SchemaStmt (Hook UserDoc)) :=
  [model_compile; pre_deleteOne userSchema_pre_deleteOne].

(** modal/lead-modal.js: the same order. *)
Definition lead_modal : list (SchemaStmt (Hook LeadDoc)) :=
  [model_compile; pre_deleteOne leadSchema_pre_deleteOne].

Fixpoint remove_user (i : id) (us : list UserDoc) : list UserDoc :=
  match us with
  | [] => []
  | u :: rest => if user_id u =? i then rest else u :: remove_user i rest
  end.

(** [doc.deleteOne()]: the pre hooks of the compiled model, then the
    removal; a failing hook rejects the call. *)
Definition document_deleteOne {D} (hooks : list (Hook D)) (d : D)
    (remove : World -> World) : Handler unit :=
  fun s =>
    match run_pre hooks d (world s) with
    | (true, w') => (Cont tt, mkH (remove w') (heap s) (answer s))
    | (false, w') => throw (mkH w' (heap s) (answer s))
    end.

Definition User_deleteOne (u : UserDoc) : Handler unit :=
  document_deleteOne (middleware_of user_modal) u
    (fun w => set_users (remove_user (user_id u) (users w)) w).

(** controller/auth.js, [deleteMember]; [uid] is [req.user.id]. *)
Definition deleteMember (uid : id) (memberID : option id) : Handler unit :=
  match memberID with
  | None => next CONFLICT
  | Some m =>
      validatUser <- User_findById m ;;
      match validatUser with
      | None => next NOT_FOUND
      | Some v =>
          match userRole (doc v) with
          | Admin => next UNAUTHORIZED
          | Member =>
              match parent (doc v) with
              | None => throw
              | Some p =>
                  if toString_neq p uid then next UNAUTHORIZED else
                  User_deleteOne (doc v) ;;;
                  res Success
              end
          end
      end
  end.

(* ================================================================== *)
(** ** Settings (controller/settings.js) *)
(* ================================================================== *)

Definition defaultWelcomeMessage : string :=
  "👋 Want to chat about Hubly? I'm a chatbot here to help you find your way.".

Definition defaultSettings : SettingsDoc :=
  mkSettings "#33475B" "#EEEEEE"
    ["How can i help you?"; "Ask me anything!"]
    (mkPlaceholder (Some "Your name") (Some "example@gmail.com")
                   (Some "+1 (000) 000-0000") (Some "Thank You!"))
    (Some defaultWelcomeMessage)
    (mkTimer (Some 1%Z) (Some 0%Z) (Some 0%Z)).

Definition loadDefaultSettings : Handler bool :=
  modify_world (fun w => set_settings (settings w ++ [defaultSettings]) w) ;;;
  ret true.

(** [req.body.formPlaceholder]: the keys the handler reads; [None] is
    an absent (or [null]) key. *)
Record PlaceholderBody := mkPlaceholderBody {
  b_name : option string;
  b_email : option string;
  b_phone : option string;
  b_submitButton : option string;
  b_ph_welcomeMessage : option string
}.

(** [req.body] of [PUT /bot-settings]. *)
Record SettingsBody := mkSettingsBody {
  b_headerColor : option string;
  b_backgroundColor : option string;
  b_customizedMessages : option (list string);
  b_formPlaceholder : option PlaceholderBody;
  b_welcomeMessage : option string;
  b_missedChatTimer : option MissedChatTimer
}.

(** [x ?? d] *)
Definition nullish (x : option string) (d : string) : string :=
  match x with Some v => v | None => d end.

Definition putChatBotSettings (body : SettingsBody) : Handler unit :=
  match b_headerColor body, b_backgroundColor body,
        b_customizedMessages body, b_formPlaceholder body,
        b_missedChatTimer body with
  | Some hc, Some bc, Some msgs, Some fp, Some timer =>
      if falsy (b_headerColor body) || falsy (b_backgroundColor body)
         || falsy (b_welcomeMessage body)
      then next CONFLICT else
      w <- get_world ;;
      match settings w with
      | [] =>
          loadDefaultSettings ;;;
          next EXPECTATION_FAILED
      | _ :: rest =>
          modify_world
            (set_settings
               (mkSettings hc bc msgs
                  (mkPlaceholder
                     (Some (nullish (b_name fp) "Your name"))
                     (Some (nullish (b_email fp) "+1 (000) 000-0000"))
                     (Some (nullish (b_phone fp) "example@gmail.com"))
                     (Some (nullish (b_submitButton fp) "Thank You!")))
                  (Some (nullish (b_ph_welcomeMessage fp)
                                 defaultWelcomeMessage))
                  (mkTimer (hour timer) (minute timer) (second timer))
                :: rest)) ;;;
          res Success
      end
  | _, _, _, _, _ => next CONFLICT
  end.

(* ================================================================== *)
(** ** Analytics (controller/lead.js, getLeadsAnalytics) *)
(* ================================================================== *)

(** [Math.round]: the nearest integer, halves upwards. The quotient it
    is applied to is taken exactly, which a double does for sums below
    2^52. *)
Definition Math_round (q : Q) : Z := Qfloor (q + (1 # 2)).

(** The callback of the [reduce] over the accumulator [{ sum, count }]. *)
Definition add_response (acc : Z * Z) (lead : LeadDoc) : Z * Z :=
  if (responseTime lead =? 0)%Z then acc
  else (fst acc + responseTime lead, snd acc + 1)%Z.

Definition responseData (ls : list LeadDoc) : Z * Z :=
  fold_left add_response ls (0%Z, 0%Z).

Definition averateResponseTime (ls : list LeadDoc) : Z :=
  let acc := responseData ls in
  Math_round
    (if (0 <? snd acc)%Z
     then inject_Z (fst acc) / inject_Z (snd acc)
     else 0)%Q.

(** The same figure, read off the specification: the rounded mean of
    the non-zero response times, and 0 when there is none. *)
Definition replied_times (ls : list LeadDoc) : list Z :=
  filter (fun t => negb (t =? 0)%Z) (map responseTime ls).

Definition spec_averageResponseTimeSeconds (ls : list LeadDoc) : Z :=
  match replied_times ls with
  | [] => 0%Z
  | ts =>
      Math_round
        (inject_Z (fold_right Z.add 0%Z ts)
         / inject_Z (Z.of_nat (List.length ts)))%Q
  end.

(* ================================================================== *)
(** ** The engine as a transition system *)
(* ================================================================== *)

Inductive Op :=
| OpPostNewLead (c : Clock) (message : option string)
| OpPostLeadForm (leadID : option id) (name email phone : option string)
| OpPutLeadMessage (leadID : option id) (message : option string)
| OpPutStatusUpdate (uid : id) (leadID : option id) (st : option Status)
| OpPutLeadAssignee (uid : id) (leadID assigneeID : option id)
| OpPutMessage (c : Clock) (uid : id) (leadID : option id)
    (message : option string)
| OpGetLeadList (c : Clock) (uid : id)
| OpDeleteMember (uid : id) (memberID : option id)
| OpPutChatBotSettings (body : SettingsBody).

Definition handler_of (o : Op) : Handler unit :=
  match o with
  | OpPostNewLead c m => postNewLead c m
  | OpPostLeadForm i n e p => postLeadForm i n e p
  | OpPutLeadMessage i m => putLeadMessage i m
  | OpPutStatusUpdate u i st => putStatusUpdate u i st
  | OpPutLeadAssignee u i a => putLeadAssignee u i a
  | OpPutMessage c u i m => putMessage c u i m
  | OpGetLeadList c u => getLeadList c u
  | OpDeleteMember u m => deleteMember u m
  | OpPutChatBotSettings b => putChatBotSettings b
  end.

Definition step (o : Op) (w : World) : World := snd (run (handler_of o) w).

(** The store after a sequence of requests, served one after the
    other. *)
Definition run_ops (ops : list Op) (w : World) : World :=
  fold_left (fun w o => step o w) ops w.

(** The sweep on its own, as [getLeadList] runs it. *)
Definition sweepMissedChats (c : Clock) (w : World) : World :=
  snd (run (foundMissedChats c) w).

(* ================================================================== *)
(** ** Sample data for the scenarios *)
(* ================================================================== *)

Definition sample_clock : Clock := mkClock 1741305600000 2025 2 7.

Definition sample_lead (i : id) (t : string) : LeadDoc :=
  mkLead i t None None None false 0 (Some 0) [0] true false Unresolved
         1741305600000.

(** One Admin, the default settings (missed-chat timer: one hour), no
    lead yet. *)
Definition scenario_world : World :=
  mkWorld [mkUser 0 "admin@hubly.test" Admin None] [] [] [defaultSettings] 1.

(* ================================================================== *)
(** ** One-way fields *)
(* ================================================================== *)

(** What a stored lead keeps when a request rewrites it: its
    identifier, a raised missed-chat flag, a response time that was
    stamped. *)
Definition lead_keeps (l l' : LeadDoc) : Prop :=
  lead_id l = lead_id l'
  /\ (isMissedChat l = true -> isMissedChat l' = true)
  /\ (responseTime l <> 0%Z -> responseTime l' = responseTime l).

(** The collection keeps every lead at its place; new leads come
    after. *)
Definition leads_keep (ls ls' : list LeadDoc) : Prop :=
  exists kept new, ls' = kept ++ new /\ Forall2 lead_keeps ls kept.

(* ================================================================== *)
(** ** The sweep, as the specification words it *)
(* ================================================================== *)

(** The threshold of the settings, in seconds. *)
Definition thresholdSeconds (s : SettingsDoc) : Z :=
  let t := missedChatTimer s in
  (or0 (hour t) * 3600 + or0 (minute t) * 60 + or0 (second t))%Z.

(** A lead the sweep is after: never answered, not flagged, created
    earlier than the threshold before now. *)
Definition overdue (c : Clock) (s : SettingsDoc) (l : LeadDoc) : bool :=
  (responseTime l =? 0)%Z && negb (isMissedChat l)
  && (createdAt l <? getTime c - 1000 * thresholdSeconds s)%Z.

(** The identifiers of the leads flagged as missed chats. *)
Definition flagged (w : World) : list id :=
  map lead_id (filter isMissedChat (leads w)).

(** A flagged lead of one admin and one member, and a request of every
    kind against it. *)
Definition flagged_lead : LeadDoc :=
  mkLead 2 "2025-0307" None None None true 0 (Some 0) [0] true false
         Unresolved 1741305600000.

Definition flagged_world : World :=
  mkWorld [mkUser 0 "admin@hubly.test" Admin None;
           mkUser 1 "member@hubly.test" Member (Some 0)]
          [flagged_lead] [] [defaultSettings] 3.

Definition later_clock : Clock := mkClock 1741312800000 2025 2 7.

Definition mixed_ops : list Op :=
  [OpPutLeadMessage (Some 2) (Some "anyone there?");
   OpPutMessage later_clock 0 (Some 2) (Some "sorry for the wait");
   OpPutStatusUpdate 0 (Some 2) (Some Resolved);
   OpPutLeadAssignee 0 (Some 2) (Some 1);
   OpGetLeadList later_clock 0;
   OpPostLeadForm (Some 2) (Some "Ann") (Some "ann@example.com")
     (Some "555-0100");
   OpPostNewLead later_clock (Some "hello");
   OpDeleteMember 0 (Some 1)].

(** An unanswered lead, two hours old at [later_clock]. *)
Definition sweep_world : World :=
  mkWorld [mkUser 0 "admin@hubly.test" Admin None]
          [sample_lead 1 "2025-0307"] [] [defaultSettings] 2.

(** The request body with another top-level [welcomeMessage]. *)
Definition with_welcomeMessage (wm : option string) (b : SettingsBody)
  : SettingsBody :=
  mkSettingsBody (b_headerColor b) (b_backgroundColor b)
    (b_customizedMessages b) (b_formPlaceholder b) wm (b_missedChatTimer b).

(** Settings an Admin has customised, welcome message included. *)
Definition customised_settings : SettingsDoc :=
  mkSettings "#112233" "#FAFAFA" ["Need a hand?"]
    (mkPlaceholder (Some "Name") (Some "Mail") (Some "Phone") (Some "Go"))
    (Some "Welcome back to Hubly")
    (mkTimer (Some 0%Z) (Some 10%Z) (Some 0%Z)).

Definition customised_world : World :=
  mkWorld [mkUser 0 "admin@hubly.test" Admin None] [] []
          [customised_settings] 1.

Definition sample_body : SettingsBody :=
  mkSettingsBody (Some "#000000") (Some "#FFFFFF") (Some ["Hi!"])
    (Some (mkPlaceholderBody (Some "Name") (Some "Email") (Some "Phone")
                             (Some "Send") None))
    (Some "Welcome to our shop")
    (Some (mkTimer (Some 0%Z) (Some 30%Z) (Some 0%Z))).

(** The scenario of the specification: a lead is created at time [T]
    on some day, the Admin (its assignee) answers after [d1]
    milliseconds and again after [d2] milliseconds. *)
Definition at_ms (T : Z) (c : Clock) : Clock :=
  mkClock T (getFullYear c) (getMonth c) (getDate c).

Definition scenario_created (T : Z) (day : Clock) : World :=
  step (OpPostNewLead (at_ms T day) (Some "hello")) scenario_world.

Definition scenario_first_reply (T d1 : Z) (day : Clock) : World :=
  step (OpPutMessage (at_ms (T + d1) day) 0 (Some 1) (Some "hi, how can I help?"))
       (scenario_created T day).

Definition scenario_second_reply (T d1 d2 : Z) (day : Clock) : World :=
  step (OpPutMessage (at_ms (T + d2) day) 0 (Some 1) (Some "still there?"))
       (scenario_first_reply T d1 day).

(** The flag and the response time of every stored lead. *)
Definition sla_view (w : World) : list (bool * Z) :=
  map (fun l => (isMissedChat l, responseTime l)) (leads w).

(** The staff turns logged against a lead. *)
Definition staff_turns (i : id) (w : World) : list ConversationDoc :=
  filter (fun c => (leadID c =? i)
                   && match sendBy c with
                      | SendByMember => true
                      | SendByLead => false
                      end)
         (conversations w).

(** A store written by hand, which no sequence of requests builds: a
    member is the assignee of a lead and has answered it. *)
Definition member_lead : LeadDoc :=
  mkLead 2 "2025-0307" None None None false 1800 (Some 1) [1; 0] true false
         Unresolved 1741305600000.

Definition member_world : World :=
  mkWorld [mkUser 0 "admin@hubly.test" Admin None;
           mkUser 1 "member@hubly.test" Member (Some 0)]
          [member_lead]
          [mkConversation 3 2 "hello" SendByLead None;
           mkConversation 4 2 "hi, how can I help?" SendByMember (Some 1)]
          [defaultSettings] 5.

(* ================================================================== *)
(** ** Settings reads and boot (controller/settings.js, middleware/db.js) *)
(* ================================================================== *)

(** [getBotSettings]: an empty collection is seeded and the request
    fails; otherwise the first document is answered. *)
Definition getBotSettings : Handler unit :=
  w <- get_world ;;
  match settings w with
  | [] => loadDefaultSettings ;;; next EXPECTATION_FAILED
  | _ :: _ => res Success
  end.

(** The [foundSettings] object a successful [getBotSettings] sends:
    the fields of [data[0]]. *)
Definition foundSettings (w : World) : option SettingsDoc :=
  hd_error (settings w).

(** [connectDB], once the connection is up: defaults are stored when
    [countDocuments()] is 0. *)
Definition connectDB : Handler unit :=
  w <- get_world ;;
  if List.length (settings w) =? 0
  then loadDefaultSettings ;;; ret tt
  else ret tt.

(** Requests of every kind the model serves, and the boot step. *)
Inductive Request :=
| Engine (o : Op)
| GetBotSettings
| Boot.

Definition serve (r : Request) (w : World) : World :=
  match r with
  | Engine o => step o w
  | GetBotSettings => snd (run getBotSettings w)
  | Boot => snd (run connectDB w)
  end.

Definition serve_all (rs : list Request) (w : World) : World :=
  fold_left (fun w r => serve r w) rs w.

(* ================================================================== *)
(** ** Threads (controller/lead.js, getLeadsDetails) *)
(* ================================================================== *)

(** [LeadConversation.find({ leadID }).sort({ createdAt: 1 })]: the
    turns of a lead, oldest first. A turn is stamped when it is saved,
    so this is the order of insertion. *)
Definition thread (i : id) (w : World) : list ConversationDoc :=
  filter (fun c => leadID c =? i) (conversations w).

(** The [conversation] array [getLeadsDetails] answers with. *)
Definition conversation_view (i : id) (w : World)
  : list (id * string * Sender) :=
  map (fun c => (conv_id c, message c, sendBy c)) (thread i w).

Definition getLeadsDetails (leadID : option id) : Handler unit :=
  match leadID with
  | None => next BAD_REQUEST
  | Some i =>
      foundLead <- Lead_findById i ;;
      match foundLead with
      | None => next NOT_FOUND
      | Some _ => res Success
      end
  end.

(** Identifiers come from one generator: nothing stored carries an
    identifier the generator has yet to hand out. *)
Definition ids_fresh (w : World) : Prop :=
  Forall (fun l => lead_id l < next_id w) (leads w)
  /\ Forall (fun c => leadID c < next_id w) (conversations w).

(* ================================================================== *)
(** ** Ticket list pages (controller/chat.js, getTicketList) *)
(* ================================================================== *)

(** [.sort({ createdAt: -1 })]: newest first. The server does not say
    in which order it returns leads of one instant, and every page is a
    query of its own; here such leads stay in insertion order, and what
    is proved about pages is proved for leads of distinct instants,
    where newest first leaves one order only. *)
Fixpoint insert_desc (l : LeadDoc) (sorted : list LeadDoc) : list LeadDoc :=
  match sorted with
  | [] => [l]
  | x :: rest =>
      if (createdAt x <=? createdAt l)%Z then l :: sorted
      else x :: insert_desc l rest
  end.

Definition sort_createdAt_desc (ls : list LeadDoc) : list LeadDoc :=
  fold_right insert_desc [] ls.

(** [status !== 'All' ? { status } : {}]; [None] stands for ['All']. *)
Definition matches_status (st : option Status) (l : LeadDoc) : bool :=
  match st with
  | None => true
  | Some s => Status_eqb (status l) s
  end.

(** [Math.ceil(totalLeads / limit)] for a positive [limit]. *)
Definition totalPages (totalLeads limit : nat) : nat :=
  (totalLeads + limit - 1) / limit.

(** The leads of one page: [find(query).skip((page - 1) * limit)
    .limit(limit).sort({ createdAt: -1 })]. *)
Definition ticket_page (page limit : nat) (st : option Status)
    (ls : list LeadDoc) : list LeadDoc :=
  firstn limit
    (skipn ((page - 1) * limit)
       (sort_createdAt_desc (filter (matches_status st) ls))).

(** [latestMessage]: the newest visitor turn of the lead, or the
    placeholder. *)
Definition latestMessage (i : id) (w : World) : string :=
  match List.rev (filter (fun c => match sendBy c with
                                   | SendByLead => true
                                   | SendByMember => false
                                   end)
                         (thread i w)) with
  | c :: _ => message c
  | [] => "No message"
  end.

(* ================================================================== *)
(** ** A staff reply, in one step *)
(* ================================================================== *)

(** The lead [putMessage] saves: the response time is stamped when it
    was 0, the flag is raised when a positive threshold is exceeded. *)
Definition answered (c : Clock) (s : SettingsDoc) (l : LeadDoc) : LeadDoc :=
  let elapsed := (getTime c - createdAt l)%Z in
  mkLead (lead_id l) (ticketID l) (userName l) (userEmail l) (userPhone l)
         (isMissedChat l
          || ((0 <? missedTimerMs s)%Z && (missedTimerMs s <? elapsed)%Z))
         (if (responseTime l =? 0)%Z then (elapsed / 1000)%Z
          else responseTime l)
         (currentAssignee l) (assigneeList l) (isFirstMessageShared l)
         (isDetailsShared l) (status l) (createdAt l).

(** A member asks about the flagged lead of the Admin. *)
Definition member_clock : Clock := mkClock 1741309200000 2025 2 7.

(** The flagged lead's store with the settings collection empty. *)
Definition unsettled_world : World := set_settings [] flagged_world.

(* ================================================================== *)
(** ** What a request may change in a lead *)
(* ================================================================== *)

(** The lead a successful [postLeadForm] saves. *)
Definition with_details (n e p : string) (l : LeadDoc) : LeadDoc :=
  mkLead (lead_id l) (ticketID l)
         (Some (trim n)) (Some (trim e)) (Some (trim p))
         (isMissedChat l) (responseTime l) (currentAssignee l)
         (assigneeList l) (isFirstMessageShared l) true
         (status l) (createdAt l).

(** The lead [postNewLead] inserts. *)
Definition fresh_lead (i : id) (t : string) (a : id) (c : Clock) : LeadDoc :=
  mkLead i t None None None false 0%Z (Some a) [a] true false Unresolved
         (getTime c).

(** [kept] holds between every stored lead and the lead at its place
    later on; [born] holds of the leads that came after. *)
Definition leads_grow (kept : LeadDoc -> LeadDoc -> Prop)
    (born : LeadDoc -> Prop) (ls ls' : list LeadDoc) : Prop :=
  exists old new,
    ls' = old ++ new /\ Forall2 kept ls old /\ Forall born new.

(** The parts of a lead no request rewrites. *)
Definition lead_fixed (l l' : LeadDoc) : Prop :=
  lead_id l' = lead_id l
  /\ ticketID l' = ticketID l
  /\ createdAt l' = createdAt l
  /\ currentAssignee l' = currentAssignee l
  /\ assigneeList l' = assigneeList l
  /\ isFirstMessageShared l' = isFirstMessageShared l
  /\ (isDetailsShared l = true -> isDetailsShared l' = true).

(** A lead whose assignee list is its current assignee and no one
    else. *)
Definition sole_assignee (l : LeadDoc) : Prop :=
  exists a, currentAssignee l = Some a /\ assigneeList l = [a].

(** Identifier and flag of a lead. *)
Definition flag_key (l : LeadDoc) : id * bool := (lead_id l, isMissedChat l).

(** Sequences of requests that leave the settings alone. *)
Definition settings_untouched (o : Op) : Prop :=
  match o with
  | OpPutChatBotSettings _ => False
  | _ => True
  end.

(** Settings with the missed-chat timer at zero. *)
Definition timer_off_world : World :=
  set_settings
    [mkSettings "#33475B" "#EEEEEE" []
       (mkPlaceholder None None None None) None
       (mkTimer (Some 0%Z) (Some 0%Z) (Some 0%Z))]
    sweep_world.

Definition unflagging_ops : list Op :=
  [OpGetLeadList later_clock 0;
   OpPutMessage later_clock 0 (Some 1) (Some "sorry for the wait");
   OpPostNewLead later_clock (Some "hello");
   OpGetLeadList later_clock 0].

(** A store that was never booted: no settings yet. *)
Definition unbooted_world : World := set_settings [] scenario_world.

Definition settings_requests : list Request :=
  [GetBotSettings;
   Engine (OpPutChatBotSettings sample_body);
   Boot;
   Engine (OpPostNewLead later_clock (Some "hello"));
   GetBotSettings].

(** The check [putChatBotSettings] opens with: every field of the body
    is there and truthy. *)
Definition body_complete (b : SettingsBody) : bool :=
  negb (falsy (b_headerColor b)) && negb (falsy (b_backgroundColor b))
  && negb (missing (b_customizedMessages b))
  && negb (missing (b_formPlaceholder b))
  && negb (falsy (b_welcomeMessage b))
  && negb (missing (b_missedChatTimer b)).

(** The document a complete body is stored as. *)
Definition stored_settings (b : SettingsBody) : option SettingsDoc :=
  match b_headerColor b, b_backgroundColor b, b_customizedMessages b,
        b_formPlaceholder b, b_missedChatTimer b with
  | Some hc, Some bc, Some msgs, Some fp, Some timer =>
      Some (mkSettings hc bc msgs
              (mkPlaceholder
                 (Some (nullish (b_name fp) "Your name"))
                 (Some (nullish (b_email fp) "+1 (000) 000-0000"))
                 (Some (nullish (b_phone fp) "example@gmail.com"))
                 (Some (nullish (b_submitButton fp) "Thank You!")))
              (Some (nullish (b_ph_welcomeMessage fp) defaultWelcomeMessage))
              timer)
  | _, _, _, _, _ => None
  end.

(** A body without [backgroundColor]. *)
Definition incomplete_body : SettingsBody :=
  mkSettingsBody (Some "#000000") None (Some ["Hi!"])
    (Some (mkPlaceholderBody None None None None None))
    (Some "Welcome") (Some (mkTimer (Some 0%Z) (Some 30%Z) (Some 0%Z))).

(** Newest first: [b] is not newer than [a]. *)
Definition not_newer (a b : LeadDoc) : Prop :=
  (createdAt b <= createdAt a)%Z.

(** All pages of a ticket list, first to last. *)
Definition all_pages (limit : nat) (st : option Status) (ls : list LeadDoc)
  : list (list LeadDoc) :=
  map (fun page => ticket_page page limit st ls)
      (seq 1 (totalPages (List.length (filter (matches_status st) ls)) limit)).

Definition three_leads : list LeadDoc :=
  [set_status Resolved (sample_lead 1 "2025-0307");
   mkLead 2 "2025-0308" None None None false 0 (Some 0) [0] true false
          Unresolved 1741392000000;
   mkLead 3 "2025-0309" None None None false 0 (Some 0) [0] true false
          Unresolved 1741478400000].

(* ================================================================== *)
(** ** Missed chats by week (controller/lead.js, getLeadsAnalytics) *)
(* ================================================================== *)

(** [Math.ceil] *)
Definition Math_ceil (q : Q) : Z := Qceiling q.

Section Calendar.

(** The local calendar of [Date], as far as the analytics read it:
    [getFullYear()] of a time value, the time value of
    [new Date(year, 0, 1)] for the year of a time value, and
    [getDay()] of a time value. *)
Variable fullYear_of : Z -> Z.
Variable jan1_of : Z -> Z.
Variable day_of : Z -> Z.

(** [getWeekNumber(date)]; the quotients are taken exactly, which the
    doubles of the source do for time values within a year. *)
Definition getWeekNumber (date : Z) : Z :=
  let start := jan1_of date in
  let diff := (inject_Z (date - start) / inject_Z (1000 * 60 * 60 * 24))%Q in
  Math_ceil ((diff + inject_Z (day_of start) + 1) / 7)%Q.

(** [array[n] += 1] *)
Fixpoint increment (n : nat) (g : list Z) : list Z :=
  match g, n with
  | [], _ => []
  | x :: rest, O => (x + 1)%Z :: rest
  | x :: rest, S n' => x :: increment n' rest
  end.

(** The lead is of the current year and at most nine weeks back. *)
Definition weekIndexFromNow (now : Z) (lead : LeadDoc) : Z :=
  (getWeekNumber now - getWeekNumber (createdAt lead))%Z.

Definition in_graph (now : Z) (lead : LeadDoc) : bool :=
  (fullYear_of (createdAt lead) =? fullYear_of now)%Z
  && (0 <=? weekIndexFromNow now lead)%Z
  && (weekIndexFromNow now lead <? 10)%Z.

(** The body of [missedChatLeads.forEach]. *)
Definition bin_lead (now : Z) (g : list Z) (lead : LeadDoc) : list Z :=
  if (fullYear_of (createdAt lead) =? fullYear_of now)%Z then
    let idx := weekIndexFromNow now lead in
    if ((0 <=? idx) && (idx <? 10))%Z
    then increment (Z.to_nat (9 - idx)) g
    else g
  else g.

(** [leadGraph] *)
Definition missedChatsByWeek (now : Z) (ls : list LeadDoc) : list Z :=
  fold_left (bin_lead now) (filter isMissedChat ls) (repeat 0%Z 10).

End Calendar.

(** The sum of the entries of a graph. *)
Definition total (g : list Z) : Z := fold_right Z.add 0%Z g.

Definition answered_leads : list LeadDoc :=
  [set_responseTime 1800 (sample_lead 1 "2025-0307");
   sample_lead 2 "2025-0307-01";
   set_responseTime 601 (sample_lead 3 "2025-0307-02")].

(** The flagged leads of the current year that were created [k] weeks
    before the current week. *)
Definition missed_weeks_back (fullYear_of jan1_of day_of : Z -> Z)
    (now k : Z) (ls : list LeadDoc) : list LeadDoc :=
  filter (fun l =>
            isMissedChat l
            && (fullYear_of (createdAt l) =? fullYear_of now)%Z
            && (weekIndexFromNow jan1_of day_of now l =? k)%Z)
         ls.

(** The calendar of 2025 in universal time: 1 January 2025 was a
    Wednesday. *)
Definition jan1_2025 : Z -> Z := fun _ => 1735689600000%Z.
Definition year_2025 : Z -> Z := fun _ => 2025%Z.
Definition wednesday : Z -> Z := fun _ => 3%Z.

Definition two_missed : list LeadDoc :=
  [set_isMissedChat true (sample_lead 1 "2025-0307");
   sample_lead 2 "2025-0307-01";
   mkLead 3 "2025-0221" None None None true 0 (Some 0) [0] true false
          Unresolved 1740096000000].

(* ================================================================== *)
(** ** Reading a ticket code *)
(* ================================================================== *)

(** The calendar fields [getTicketID] can meet: [getMonth()] is 0..11
    and [getDate()] is 1..31. *)
Definition calendar_date (c : Clock) : Prop :=
  getMonth c <= 11 /\ 1 <= getDate c <= 31.

Fixpoint dash_free (s : string) : bool :=
  match s with
  | EmptyString => true
  | String c s' => negb (Ascii.eqb c "-") && dash_free s'
  end.

(** The part of a string before its first dash, and the part after
    it. *)
Fixpoint before_dash (s : string) : string :=
  match s with
  | EmptyString => EmptyString
  | String c s' => if Ascii.eqb c "-" then EmptyString
                   else String c (before_dash s')
  end.

Fixpoint after_dash (s : string) : string :=
  match s with
  | EmptyString => EmptyString
  | String c s' => if Ascii.eqb c "-" then s' else after_dash s'
  end.

(* ================================================================== *)
(** ** Staff accounts (controller/auth.js) *)
(* ================================================================== *)

(** [req.body] of [POST /auth/register]. *)
Record RegisterBody := mkRegisterBody {
  r_firstName : option string;
  r_lastName : option string;
  r_email : option string;
  r_password : option string;
  r_confirmPassword : option string
}.

(** [req.body] of [POST /auth/user]. *)
Record MemberBody := mkMemberBody {
  m_name : option string;
  m_email : option string;
  m_designation : option string
}.

Definition opt_string_eqb (a b : option string) : bool :=
  match a, b with
  | Some x, Some y => String.eqb x y
  | None, None => true
  | _, _ => false
  end.

(** [User.findOne({ email })]. The schema declares [email] with
    [trim: true]: the value is trimmed when it is cast, in a query as
    at save. *)
Definition User_findOne_email (e : string) : Handler (option User) :=
  w <- get_world ;;
  hydrate_opt (find (fun u => String.eqb (email u) (trim e)) (users w)).

(** The [required] validators of the user schema on the trimmed
    [firstName], [lastName] and [email]. *)
Definition required_ok (firstName lastName e : option string) : bool :=
  negb (falsy (option_map trim firstName))
  && negb (falsy (option_map trim lastName))
  && negb (falsy (option_map trim e)).

(** [new User({..}).save()]: validation, then the insert. The names and
    the password hash are not kept in [UserDoc]. *)
Definition User_create (firstName lastName : option string) (e : string)
    (role : Role) (par : option id) : Handler unit :=
  if required_ok firstName lastName (Some e) then
    i <- new_id ;;
    modify_world (fun w =>
      set_users (users w ++ [mkUser i (trim e) role par]) w)
  else throw.

Definition postRegister (body : RegisterBody) : Handler unit :=
  if falsy (r_firstName body) || falsy (r_lastName body)
     || falsy (r_email body) || falsy (r_password body)
     || falsy (r_confirmPassword body)
  then next BAD_REQUEST else
  if negb (opt_string_eqb (r_password body) (r_confirmPassword body))
  then next BAD_REQUEST else
  match r_email body with
  | None => next BAD_REQUEST
  | Some e =>
      foundSimilarUser <- User_findOne_email e ;;
      match foundSimilarUser with
      | Some _ => next BAD_REQUEST
      | None =>
          foundAdmin <- User_findOne_Admin ;;
          let userRole := match foundAdmin with
                          | Some _ => Member
                          | None => Admin
                          end in
          let parentID := user_val foundAdmin in
          User_create (r_firstName body) (r_lastName body) e
                      userRole parentID ;;;
          res Success
      end
  end.

(** [s.split(' ')] *)
Fixpoint split_space (s : string) : list string :=
  match s with
  | EmptyString => [EmptyString]
  | String c s' =>
      if Ascii.eqb c " " then EmptyString :: split_space s'
      else match split_space s' with
           | p :: ps => String c p :: ps
           | [] => [String c EmptyString]
           end
  end.

(** The [enum] validator of [userRole]. *)
Definition role_of (designation : string) : option Role :=
  if String.eqb designation "Admin" then Some Admin
  else if String.eqb designation "Member" then Some Member
  else None.

Definition postMember (body : MemberBody) : Handler unit :=
  match m_name body, m_email body, m_designation body with
  | Some name, Some e, Some designation =>
      if falsy (m_name body) || falsy (m_email body)
         || falsy (m_designation body)
      then next BAD_REQUEST else
      foundUser <- User_findOne_email e ;;
      match foundUser with
      | Some _ => next CONFLICT
      | None =>
          foundAdmin <- User_findOne_Admin ;;
          match foundAdmin with
          | None => next CONFLICT
          | Some admin =>
              match role_of designation with
              | None => throw
              | Some role =>
                  User_create (nth_error (split_space name) 0)
                              (nth_error (split_space name) 1)
                              e role (Some (oid_val (_id admin))) ;;;
                  res Success
              end
          end
      end
  | _, _, _ => next BAD_REQUEST
  end.

(** The requests that add and remove staff accounts. *)
Inductive StaffOp :=
| Register (body : RegisterBody)
| AddMember (body : MemberBody)
| RemoveMember (uid : id) (memberID : option id).

Definition staff_handler (o : StaffOp) : Handler unit :=
  match o with
  | Register b => postRegister b
  | AddMember b => postMember b
  | RemoveMember u m => deleteMember u m
  end.

Definition staff_step (o : StaffOp) (w : World) : World :=
  snd (run (staff_handler o) w).

Definition run_staff (ops : list StaffOp) (w : World) : World :=
  fold_left (fun w o => staff_step o w) ops w.

(** [User.findOne({ userRole: 'Admin' })] on the stored users. *)
Definition first_admin (w : World) : option UserDoc :=
  find (fun u => Role_eqb (userRole u) Admin) (users w).

Definition empty_world : World := mkWorld [] [] [] [] 0.

Definition ann : RegisterBody :=
  mkRegisterBody (Some "Ann") (Some "Lee") (Some "ann@hubly.test")
                 (Some "secret") (Some "secret").

Definition bob : RegisterBody :=
  mkRegisterBody (Some "Bob") (Some "Ray") (Some " bob@hubly.test ")
                 (Some "hunter2") (Some "hunter2").

Definition staff_ops : list StaffOp :=
  [Register bob;
   AddMember (mkMemberBody (Some "Cy Young") (Some "cy@hubly.test")
                           (Some "Admin"));
   RemoveMember 0 (Some 1);
   AddMember (mkMemberBody (Some "Dee") (Some "dee@hubly.test")
                           (Some "Member"))].

(* ================================================================== *)
(** ** Every request *)
(* ================================================================== *)

(** [req.body] of [PUT /auth/user/:memberID]. *)
Record ProfileBody := mkProfileBody {
  p_userID : option id;
  p_firstName : option string;
  p_lastName : option string;
  p_email : option string;
  p_phone : option string;
  p_password : option string;
  p_confirmPassword : option string
}.

Definition set_email (e : string) (u : UserDoc) : UserDoc :=
  mkUser (user_id u) e (userRole u) (parent u).

(** Replaces the document that carries the identifier of [u']. *)
Fixpoint replace_user (u' : UserDoc) (us : list UserDoc) : list UserDoc :=
  match us with
  | [] => []
  | u :: rest =>
      if user_id u =? user_id u' then u' :: rest
      else u :: replace_user u' rest
  end.

(** [foundMember.save()]: the validators of the paths that were
    modified, then the update. The names are assigned trimmed; a stored
    name passed [required] when the user was created, so a name that
    trims to nothing is a change, and it fails the validator. The email
    is validated when it was changed. *)
Definition User_save (firstName lastName : string) (email_modified : bool)
    (u : UserDoc) : Handler unit :=
  if negb (falsy (Some (trim firstName)))
     && negb (falsy (Some (trim lastName)))
     && (negb email_modified || negb (falsy (Some (email u))))
  then modify_world (fun w => set_users (replace_user u (users w)) w)
  else throw.

(** [User.findOne({ email, _id: { $ne: i } })] *)
Definition User_findOne_email_ne (e : string) (i : id)
  : Handler (option User) :=
  w <- get_world ;;
  hydrate_opt
    (find (fun u => String.eqb (email u) (trim e) && negb (user_id u =? i))
          (users w)).

(** controller/auth.js, [putMemberDetail]. [contact] is the [contact]
    field of the stored member, which [UserDoc] leaves out, as it does
    the names and the password: of what the handler writes, the email
    is kept. The answer with status LOGOUT_REQESTED is written
    [Failure LOGOUT_REQESTED], as in [getReqUser]. *)
Definition putMemberDetail (contact : option string) (body : ProfileBody)
  : Handler unit :=
  match p_firstName body, p_lastName body, p_email body, p_phone body with
  | Some firstName, Some lastName, Some e, Some phone =>
      if falsy (p_firstName body) || falsy (p_lastName body)
         || falsy (p_email body) || falsy (p_phone body)
      then next CONFLICT else
      if negb (falsy (p_password body))
         && negb (opt_string_eqb (p_password body) (p_confirmPassword body))
      then next CONFLICT else
      foundMember <- match p_userID body with
                     | Some i => User_findById i
                     | None => ret None
                     end ;;
      match foundMember with
      | None => next NOT_FOUND
      | Some fm =>
          let email_differs := negb (String.eqb (email (doc fm)) (trim e)) in
          existingUser <- (if email_differs
                           then User_findOne_email_ne e (user_id (doc fm))
                           else ret None) ;;
          match existingUser with
          | Some _ => next CONFLICT
          | None =>
              if email_differs
                 || negb (opt_string_eqb contact (Some (trim phone)))
              then
                User_save firstName lastName email_differs
                          (set_email (trim e) (doc fm)) ;;;
                res (Failure LOGOUT_REQESTED)
              else
                User_save firstName lastName false (doc fm) ;;;
                res Success
          end
      end
  | _, _, _, _ => next CONFLICT
  end.

(** All that writes to the store: the requests of the engine and of the
    settings, the boot step, the requests on staff accounts and the
    profile update. ([postLogin] and [getLogout] write the refresh
    token of a user and nothing else; [UserDoc] leaves it out.) *)
Inductive AnyOp :=
| Serve (r : Request)
| Account (o : StaffOp)
| Profile (contact : option string) (body : ProfileBody).

Definition any_step (o : AnyOp) (w : World) : World :=
  match o with
  | Serve r => serve r w
  | Account a => staff_step a w
  | Profile contact body => snd (run (putMemberDetail contact body) w)
  end.

Definition run_any (ops : list AnyOp) (w : World) : World :=
  fold_left (fun w o => any_step o w) ops w.

(** The ticket code a request hands out: the one [postNewLead] got from
    [getTicketID], when it answers with the new lead. No other handler
    calls [getTicketID]. *)
Definition issued (o : AnyOp) (w : World) : option string :=
  match o with
  | Serve (Engine (OpPostNewLead c m)) =>
      match fst (run (postNewLead c m) w) with
      | SuccessLead _ => getTicketID (leads w) c
      | _ => None
      end
  | _ => None
  end.

(** The codes handed out along a sequence of requests, oldest first. *)
Fixpoint issued_codes (ops : list AnyOp) (w : World) : list string :=
  match ops with
  | [] => []
  | o :: rest =>
      match issued o w with
      | Some t => t :: issued_codes rest (any_step o w)
      | None => issued_codes rest (any_step o w)
      end
  end.









(** A store built by requests: two registrations, the boot step, a
    lead, an answer of the Admin. *)
Definition office_ops : list AnyOp :=
  [Account (Register ann);
   Account (Register bob);
   Serve Boot;
   Serve (Engine (OpPostNewLead sample_clock (Some "hello")));
   Serve (Engine (OpPutMessage later_clock 0 (Some 2) (Some "hi there")));
   Profile None
     (mkProfileBody (Some 1) (Some "Bob") (Some "Ray")
        (Some "bob.ray@hubly.test") (Some "555 0100") None None);
   Serve (Engine (OpPostNewLead sample_clock (Some "anyone?")))].

Definition office_world : World := run_any office_ops empty_world.
(* ================================================================== *)
(** ** The sequencer returns the first free probe *)
(* ================================================================== *)

Section Sequencer.

Lemma parse_num n : parse (num n) = Some n.
Proof.
  unfold parse, num. rewrite NilEmpty.usu. simpl.
  now rewrite Unsigned.of_to.
Qed.

Lemma parse_pad2 n : parse (pad2 n) = Some n.
Proof.
  unfold pad2. destruct (9 <? n) eqn:E.
  - apply parse_num.
  - apply Nat.ltb_ge in E.
    do 10 (destruct n as [|n]; [reflexivity|]). lia.
Qed.

Lemma pad2_inj a b : pad2 a = pad2 b -> a = b.
Proof.
  intros H. apply (f_equal parse) in H.
  rewrite !parse_pad2 in H. congruence.
Qed.

Lemma append_inv_head (p s t : string) : (p ++ s = p ++ t)%string -> s = t.
Proof.
  induction p as [|c p IH]; simpl; intros H; [exact H|].
  injection H as H. auto.
Qed.

Lemma append_longer (p s : string) : s <> "" -> (p ++ s)%string <> p.
Proof.
  intros Hs H. apply Hs.
  induction p as [|c p IH]; simpl in H; [exact H|].
  injection H as H. auto.
Qed.

Variable base : string.
Variable ls : list LeadDoc.

Lemma probe_inj j k : probe base j = probe base k -> j = k.
Proof.
  destruct j as [|j], k as [|k]; simpl; intros H.
  - reflexivity.
  - symmetry in H. apply append_longer in H; [tauto | discriminate].
  - apply append_longer in H; [tauto | discriminate].
  - apply append_inv_head in H. injection H as H.
    now apply pad2_inj.
Qed.

Lemma probes_NoDup n : NoDup (map (probe base) (seq 0 n)).
Proof.
  apply Injective_map_NoDup.
  - intros j k. apply probe_inj.
  - apply seq_NoDup.
Qed.

Lemma findOne_ticketID_Some t l :
  Lead_findOne_ticketID t ls = Some l -> In l ls /\ ticketID l = t.
Proof.
  unfold Lead_findOne_ticketID. intros H.
  apply find_some in H. destruct H as [Hin He].
  apply String.eqb_eq in He. auto.
Qed.

Lemma findOne_ticketID_None t :
  Lead_findOne_ticketID t ls = None ->
  forall l, In l ls -> ticketID l <> t.
Proof.
  unfold Lead_findOne_ticketID. intros H l Hin He.
  apply (find_none _ _ H) in Hin.
  apply String.eqb_neq in Hin. contradiction.
Qed.

(** Pigeonhole: the probes 0..k-1 cannot all be codes of fewer than
    [k] leads. *)
Lemma probes_exhaust k :
  (forall j, j < k -> In (probe base j) (map ticketID ls)) ->
  k <= List.length ls.
Proof.
  intros H.
  assert (Hl : List.length (map (probe base) (seq 0 k))
               <= List.length (map ticketID ls)).
  { apply NoDup_incl_length; [apply probes_NoDup|].
    intros t Ht. apply in_map_iff in Ht. destruct Ht as [j [<- Hj]].
    apply in_seq in Hj. apply H. lia. }
  rewrite !length_map, length_seq in Hl. exact Hl.
Qed.

(** The loop, entered at probe [k] with every earlier probe taken,
    returns the first free probe as soon as the fuel covers the leads
    that are left to collide with. *)
Lemma ticket_loop_finds : forall fuel k,
  List.length ls < fuel + k ->
  (forall j, j < k -> In (probe base j) (map ticketID ls)) ->
  exists m, k <= m /\
    ticket_loop fuel ls base (probe base k) (S k) = Some (probe base m) /\
    (forall l, In l ls -> ticketID l <> probe base m) /\
    (forall j, j < m -> In (probe base j) (map ticketID ls)).
Proof.
  induction fuel as [|fuel IH]; intros k Hfuel Hprev.
  - apply probes_exhaust in Hprev. lia.
  - simpl. destruct (Lead_findOne_ticketID (probe base k) ls) as [l|] eqn:E.
    + apply findOne_ticketID_Some in E. destruct E as [Hin Ht].
      destruct (IH (S k)) as [m [Hm [Hr [Hfree Hall]]]].
      * lia.
      * intros j Hj. destruct (Nat.eq_dec j k) as [->|Hne].
        -- rewrite <- Ht. now apply in_map.
        -- apply Hprev. lia.
      * exists m. repeat split; auto. lia.
    + exists k. repeat split; auto.
      now apply findOne_ticketID_None.
Qed.

End Sequencer.

Example baseTicketID_format :
  baseTicketID (mkClock 0 2025 2 7) = "2025-0307"
  /\ baseTicketID (mkClock 0 2025 10 23) = "2025-1123".
Proof. split; reflexivity. Qed.

Example probe_format :
  probe "2025-0307" 0 = "2025-0307"
  /\ probe "2025-0307" 1 = "2025-0307-01"
  /\ probe "2025-0307" 9 = "2025-0307-09"
  /\ probe "2025-0307" 10 = "2025-0307-10"
  /\ probe "2025-0307" 100 = "2025-0307-100".
Proof. repeat split; reflexivity. Qed.

Lemma digits_of_numbers :
  forallb (fun n => String.eqb (num n) (fixed_digits 4 n)) (seq 1000 (9 * 1000))
  && forallb (fun n => String.eqb (pad2 n) (fixed_digits 2 n)) (seq 0 100)
  = true.
Proof. vm_compute. reflexivity. Qed.

(** The year as the template literal prints it has its four digits. *)
Lemma num_spec_year (y : nat) : num y = spec_year y.
Proof.
  unfold spec_year.
  destruct ((1000 <=? y) && (y <? 10 * 1000)) eqn:E; [|reflexivity].
  apply andb_prop in E. destruct E as [Hlo Hhi].
  apply Nat.leb_le in Hlo. apply Nat.ltb_lt in Hhi.
  pose proof digits_of_numbers as H.
  apply andb_prop in H. destruct H as [H _].
  rewrite forallb_forall in H.
  apply String.eqb_eq, H, in_seq. lia.
Qed.

(** The conditional ['0' + n] of the source gives the two digits of
    the specification, and the number in full beyond 99. *)
Lemma pad2_spec_two_digits (n : nat) : pad2 n = spec_two_digits n.
Proof.
  unfold spec_two_digits.
  destruct (n <=? 99) eqn:E.
  - apply Nat.leb_le in E.
    pose proof digits_of_numbers as H.
    apply andb_prop in H. destruct H as [_ H].
    rewrite forallb_forall in H.
    apply String.eqb_eq, H, in_seq. lia.
  - apply Nat.leb_gt in E. unfold pad2.
    destruct (9 <? n) eqn:E9; [reflexivity|].
    apply Nat.ltb_ge in E9. lia.
Qed.

Lemma baseTicketID_spec (c : Clock) : baseTicketID c = spec_base_code c.
Proof.
  unfold baseTicketID, spec_base_code.
  now rewrite num_spec_year, !pad2_spec_two_digits.
Qed.

(** The probes of the loop are the codes of the specification. *)
Lemma probe_spec (c : Clock) (k : nat) :
  probe (baseTicketID c) k = spec_ticket_code c k.
Proof.
  unfold probe, spec_ticket_code.
  rewrite baseTicketID_spec.
  destruct k; [reflexivity|]. now rewrite pad2_spec_two_digits.
Qed.

(** C3. Whatever leads are stored and whatever the date, the loop of
    [getTicketID], given room for one probe more than there are leads,
    returns a code, and the code has the format of the specification:
    it is the first of [YYYY-MMDD], [YYYY-MMDD-01], [YYYY-MMDD-02], ...
    (month, day and counter on two digits, the counter in full beyond
    99) that no stored lead carries. So it is carried by no stored
    lead, and every code before it in that order is. More room changes
    nothing: it is the code [getTicketID] gives to [postNewLead]. *)
Theorem getTicketID_first_free (ls : list LeadDoc) (c : Clock) (fuel : nat) :
  List.length ls < fuel ->
  exists k,
    getTicketID_fuel fuel ls c = Some (spec_ticket_code c k)
    /\ getTicketID ls c = Some (spec_ticket_code c k)
    /\ (forall l, In l ls -> ticketID l <> spec_ticket_code c k)
    /\ (forall j, j < k ->
          exists l, In l ls /\ ticketID l = spec_ticket_code c j).
Proof.
  intros Hfuel.
  destruct (ticket_loop_finds (baseTicketID c) ls fuel 0)
    as [m [_ [Hr [Hfree Hall]]]]; [lia | intros j Hj; lia |].
  destruct (ticket_loop_finds (baseTicketID c) ls (S (List.length ls)) 0)
    as [m' [_ [Hr' [Hfree' Hall']]]]; [lia | intros j Hj; lia |].
  assert (Htaken : forall a b,
            (forall l, In l ls -> ticketID l <> probe (baseTicketID c) a) ->
            (forall j, j < b ->
               In (probe (baseTicketID c) j) (map ticketID ls)) ->
            ~ a < b).
  { intros a b Ha Hb Hlt. specialize (Hb a Hlt).
    apply in_map_iff in Hb. destruct Hb as [l [Hl Hin]].
    exact (Ha l Hin Hl). }
  assert (m' = m).
  { pose proof (Htaken m m' Hfree Hall').
    pose proof (Htaken m' m Hfree' Hall). lia. }
  subst m'.
  exists m. rewrite <- probe_spec.
  split; [exact Hr|]. split; [exact Hr'|]. split; [exact Hfree|].
  intros j Hj. specialize (Hall j Hj). rewrite <- probe_spec.
  apply in_map_iff in Hall. destruct Hall as [l [Hl Hin]].
  exists l. auto.
Qed.

Lemma getTicketID_first_free_witness :
  exists k,
    getTicketID_fuel 3
      [sample_lead 5 "2025-0307-01"; sample_lead 4 "2025-0307"]
      sample_clock
    = Some (spec_ticket_code sample_clock k)
    /\ getTicketID
         [sample_lead 5 "2025-0307-01"; sample_lead 4 "2025-0307"]
         sample_clock
       = Some (spec_ticket_code sample_clock k)
    /\ (forall l,
          In l [sample_lead 5 "2025-0307-01"; sample_lead 4 "2025-0307"] ->
          ticketID l <> spec_ticket_code sample_clock k)
    /\ (forall j, j < k ->
          exists l,
            In l [sample_lead 5 "2025-0307-01"; sample_lead 4 "2025-0307"]
            /\ ticketID l = spec_ticket_code sample_clock j).
Proof.
  apply (getTicketID_first_free
           [sample_lead 5 "2025-0307-01"; sample_lead 4 "2025-0307"]
           sample_clock 3).
  simpl. lia.
Defined.

Example spec_ticket_code_format :
  spec_ticket_code (mkClock 0 2025 2 7) 0 = "2025-0307"
  /\ spec_ticket_code (mkClock 0 2025 2 7) 1 = "2025-0307-01"
  /\ spec_ticket_code (mkClock 0 2025 10 23) 12 = "2025-1123-12"
  /\ spec_ticket_code (mkClock 0 2025 0 1) 100 = "2025-0101-100".
Proof. repeat split; reflexivity. Qed.

Example getTicketID_third_of_the_day :
  getTicketID [sample_lead 5 "2025-0307-01"; sample_lead 4 "2025-0307"]
              sample_clock
  = Some "2025-0307-02".
Proof. reflexivity. Qed.

(** The bound inside [getTicketID] loses nothing. *)
Lemma getTicketID_total (ls : list LeadDoc) (c : Clock) :
  exists t, getTicketID ls c = Some t
            /\ forall l, In l ls -> ticketID l <> t.
Proof.
  destruct (ticket_loop_finds (baseTicketID c) ls (S (List.length ls)) 0)
    as [k [_ [Hr [Hfree _]]]]; [lia | intros j Hj; lia |].
  exists (probe (baseTicketID c) k). auto.
Qed.

(* ================================================================== *)
(** ** What each handler does to the store *)
(* ================================================================== *)

Ltac unfold_monad :=
  unfold run, next, res, throw, getReqUser, User_findById,
    User_findOne_Admin, Lead_findById, ChatbotSettings_findOne,
    LeadConversation_create, new_id, Lead_insert, Lead_save,
    loadDefaultSettings, hydrate_opt, hydrate, bind, ret, reply, exit,
    get_world, modify_world in *.

Lemma postNewLead_leads (c : Clock) (m : option string) (w : World) :
  leads (snd (run (postNewLead c m) w)) = leads w
  \/ exists t i a,
       getTicketID (leads w) c = Some t
       /\ leads (snd (run (postNewLead c m) w))
          = leads w ++ [mkLead i t None None None false 0 (Some a) [a]
                               true false Unresolved (getTime c)].
Proof.
  unfold postNewLead.
  destruct (falsy m); [left; reflexivity|].
  unfold_monad. simpl.
  destruct (find _ (users w)) as [u|]; simpl; [|left; reflexivity].
  destruct (getTicketID (leads w) c) as [t|] eqn:Ht; simpl;
    [|left; reflexivity].
  right. exists t, (next_id w), (user_id u). auto.
Qed.

(* ================================================================== *)
(** ** The missed-chat flag and the response time are one-way *)
(* ================================================================== *)

Section OneWay.

Lemma lead_keeps_refl (l : LeadDoc) : lead_keeps l l.
Proof. unfold lead_keeps. auto. Qed.

Lemma lead_keeps_trans (a b c : LeadDoc) :
  lead_keeps a b -> lead_keeps b c -> lead_keeps a c.
Proof.
  unfold lead_keeps. intros [Hi [Hm Hr]] [Hi' [Hm' Hr']].
  repeat split; [congruence | auto |].
  intros Hne. rewrite Hr', Hr; auto. rewrite Hr; auto.
Qed.

Lemma Forall2_keeps_refl (ls : list LeadDoc) : Forall2 lead_keeps ls ls.
Proof. induction ls; constructor; auto using lead_keeps_refl. Qed.

Lemma Forall2_keeps_trans (xs : list LeadDoc) : forall ys zs,
  Forall2 lead_keeps xs ys -> Forall2 lead_keeps ys zs ->
  Forall2 lead_keeps xs zs.
Proof.
  induction xs as [|x xs IH]; intros ys zs H1 H2.
  - inversion H1; subst. inversion H2; subst. constructor.
  - inversion H1; subst. inversion H2; subst.
    constructor; eauto using lead_keeps_trans.
Qed.

Lemma leads_keep_refl (ls : list LeadDoc) : leads_keep ls ls.
Proof.
  exists ls, []. split; [now rewrite app_nil_r | apply Forall2_keeps_refl].
Qed.

Lemma leads_keep_trans (xs ys zs : list LeadDoc) :
  leads_keep xs ys -> leads_keep ys zs -> leads_keep xs zs.
Proof.
  intros [k1 [n1 [-> H1]]] [k2 [n2 [-> H2]]].
  apply Forall2_app_inv_l in H2.
  destruct H2 as [a [b [Ha [Hb ->]]]].
  exists a, (b ++ n2). split; [now rewrite app_assoc|].
  eapply Forall2_keeps_trans; eauto.
Qed.

Lemma leads_keep_app (ls new : list LeadDoc) : leads_keep ls (ls ++ new).
Proof. exists ls, new. split; [reflexivity | apply Forall2_keeps_refl]. Qed.

Lemma leads_keep_map (f : LeadDoc -> LeadDoc) (ls : list LeadDoc) :
  (forall l, lead_keeps l (f l)) -> leads_keep ls (map f ls).
Proof.
  intros Hf. exists (map f ls), []. split; [now rewrite app_nil_r|].
  induction ls; simpl; constructor; auto.
Qed.

(** [save()] of a document read by [findById] rewrites that document. *)
Lemma leads_keep_replace (i : id) (l l' : LeadDoc) (ls : list LeadDoc) :
  find (fun x => lead_id x =? i) ls = Some l ->
  lead_keeps l l' ->
  leads_keep ls (replace_lead l' ls).
Proof.
  intros Hfind Hk. exists (replace_lead l' ls), [].
  split; [now rewrite app_nil_r|].
  assert (Hid : lead_id l' = i).
  { apply find_some in Hfind. destruct Hfind as [_ E].
    apply Nat.eqb_eq in E. destruct Hk as [Hk _]. congruence. }
  revert Hfind. induction ls as [|x ls IH]; simpl; intros Hfind;
    [constructor|].
  rewrite Hid. destruct (lead_id x =? i) eqn:E.
  - injection Hfind as ->. constructor; [exact Hk | apply Forall2_keeps_refl].
  - constructor; [apply lead_keeps_refl | auto].
Qed.

Lemma sweep_lead_keeps (t : Z) (l : LeadDoc) : lead_keeps l (sweep_lead t l).
Proof.
  unfold sweep_lead, lead_keeps.
  destruct (_ && _); simpl; auto.
Qed.

End OneWay.

Ltac break_match :=
  match goal with
  | |- context [match ?x with _ => _ end] =>
      lazymatch x with
      | context [match _ with _ => _ end] => fail
      | _ => destruct x eqn:?
      end
  end.

Ltac keep_done :=
  first
    [ apply leads_keep_refl
    | apply leads_keep_app
    | eapply leads_keep_replace; [eassumption|];
      unfold lead_keeps; simpl; repeat split; auto;
      first [ congruence
            | intros;
              match goal with
              | E : (responseTime _ =? 0)%Z = true |- _ =>
                  apply Z.eqb_eq in E; contradiction
              end ] ].

Lemma postNewLead_keeps c m w :
  leads_keep (leads w) (leads (snd (run (postNewLead c m) w))).
Proof.
  destruct (postNewLead_leads c m w) as [E|[t [i [a [_ E]]]]]; rewrite E;
    keep_done.
Qed.

Lemma postLeadForm_keeps i n e p w :
  leads_keep (leads w) (leads (snd (run (postLeadForm i n e p) w))).
Proof.
  unfold postLeadForm. unfold_monad.
  repeat (simpl; try break_match); simpl; keep_done.
Qed.

Lemma putLeadMessage_keeps i m w :
  leads_keep (leads w) (leads (snd (run (putLeadMessage i m) w))).
Proof.
  unfold putLeadMessage. unfold_monad.
  repeat (simpl; try break_match); simpl; keep_done.
Qed.

Lemma putStatusUpdate_keeps u i st w :
  leads_keep (leads w) (leads (snd (run (putStatusUpdate u i st) w))).
Proof.
  unfold putStatusUpdate. unfold_monad.
  repeat (simpl; try break_match); simpl; keep_done.
Qed.

(** Two hydrated documents never share an ObjectId instance, so the
    admin check of [putLeadAssignee] turns every caller away. *)
Lemma putLeadAssignee_never_saves u i a w :
  snd (run (putLeadAssignee u i a) w) = w
  /\ fst (run (putLeadAssignee u i a) w) <> Success.
Proof.
  unfold putLeadAssignee. unfold_monad. unfold strict_neq.
  destruct i as [i|], a as [a|]; simpl; try (split; [reflexivity|discriminate]).
  destruct (find (fun x => user_id x =? u) (users w)) as [usr|]; simpl;
    destruct (find (fun x => Role_eqb (userRole x) Admin) (users w))
      as [adm|]; simpl;
    try (split; [reflexivity|discriminate]).
Qed.

Lemma putLeadAssignee_keeps u i a w :
  leads_keep (leads w) (leads (snd (run (putLeadAssignee u i a) w))).
Proof.
  destruct (putLeadAssignee_never_saves u i a w) as [-> _].
  apply leads_keep_refl.
Qed.

Lemma putMessage_keeps c u i m w :
  leads_keep (leads w) (leads (snd (run (putMessage c u i m) w))).
Proof.
  unfold putMessage. unfold_monad.
  repeat (simpl; try break_match); simpl; keep_done.
Qed.

Lemma foundMissedChats_leads c (s : HState) :
  leads (world (snd (foundMissedChats c s)))
  = match hd_error (settings (world s)) with
    | Some st =>
        if (0 <? missedTimerMs st)%Z
        then map (sweep_lead (getTime c - missedTimerMs st)%Z)
                 (leads (world s))
        else leads (world s)
    | None => leads (world s)
    end.
Proof.
  unfold foundMissedChats. unfold_monad. simpl.
  destruct (hd_error (settings (world s))) as [st|]; simpl; [|reflexivity].
  destruct (0 <? missedTimerMs st)%Z; reflexivity.
Qed.

Lemma foundMissedChats_keeps c (s : HState) :
  leads_keep (leads (world s)) (leads (world (snd (foundMissedChats c s)))).
Proof.
  rewrite foundMissedChats_leads.
  destruct (hd_error (settings (world s))) as [st|];
    [|apply leads_keep_refl].
  destruct (0 <? missedTimerMs st)%Z; [|apply leads_keep_refl].
  apply leads_keep_map. apply sweep_lead_keeps.
Qed.

Lemma getLeadList_leads c u w :
  leads (snd (run (getLeadList c u) w))
  = leads (snd (run (foundMissedChats c) w)).
Proof.
  unfold getLeadList, foundMissedChats. unfold_monad. simpl.
  destruct (find _ (users w)); simpl;
    destruct (hd_error (settings w)) as [st|]; simpl; try reflexivity;
    destruct (0 <? missedTimerMs st)%Z; reflexivity.
Qed.

Lemma getLeadList_keeps c u w :
  leads_keep (leads w) (leads (snd (run (getLeadList c u) w))).
Proof.
  rewrite getLeadList_leads. unfold run.
  apply (foundMissedChats_keeps c (mkH w 0 None)).
Qed.

(** The compiled User model carries no [deleteOne] middleware. *)
Lemma user_middleware_empty : middleware_of user_modal = [].
Proof. reflexivity. Qed.

Lemma deleteMember_leads u m w :
  leads (snd (run (deleteMember u m) w)) = leads w
  /\ conversations (snd (run (deleteMember u m) w)) = conversations w.
Proof.
  unfold deleteMember, User_deleteOne, document_deleteOne.
  rewrite user_middleware_empty. unfold_monad.
  repeat (simpl; try break_match); simpl; auto.
Qed.

Lemma putChatBotSettings_leads b w :
  leads (snd (run (putChatBotSettings b) w)) = leads w.
Proof.
  unfold putChatBotSettings. unfold_monad.
  repeat (simpl; try break_match); simpl; auto.
Qed.

Lemma step_keeps (o : Op) (w : World) :
  leads_keep (leads w) (leads (step o w)).
Proof.
  unfold step. destruct o; cbn [handler_of].
  - apply postNewLead_keeps.
  - apply postLeadForm_keeps.
  - apply putLeadMessage_keeps.
  - apply putStatusUpdate_keeps.
  - apply putLeadAssignee_keeps.
  - apply putMessage_keeps.
  - apply getLeadList_keeps.
  - destruct (deleteMember_leads uid memberID w) as [-> _].
    apply leads_keep_refl.
  - rewrite putChatBotSettings_leads. apply leads_keep_refl.
Qed.

Lemma run_ops_keeps (ops : list Op) : forall w,
  leads_keep (leads w) (leads (run_ops ops w)).
Proof.
  induction ops as [|o ops IH]; intros w; simpl; [apply leads_keep_refl|].
  eapply leads_keep_trans; [apply step_keeps | apply IH].
Qed.

Lemma leads_keep_nth (ls ls' : list LeadDoc) (n : nat) (l : LeadDoc) :
  leads_keep ls ls' -> nth_error ls n = Some l ->
  exists l', nth_error ls' n = Some l' /\ lead_keeps l l'.
Proof.
  intros [kept [new [-> H]]]. revert n.
  induction H as [|x y xs ys Hxy _ IH]; intros n Hn.
  - destruct n; discriminate.
  - destruct n as [|n]; simpl in *.
    + injection Hn as ->. eauto.
    + auto.
Qed.

(** C6. Along every sequence of requests (lead intake, form, visitor
    and staff messages, status updates, reassignments, ticket-list
    reads with their sweep, member deletions, settings updates) a
    stored lead whose [isMissedChat] is set is still stored, at the
    same place and under the same identifier, with [isMissedChat]
    set. *)
Theorem isMissedChat_never_cleared
    (ops : list Op) (w : World) (n : nat) (l : LeadDoc) :
  nth_error (leads w) n = Some l ->
  isMissedChat l = true ->
  exists l',
    nth_error (leads (run_ops ops w)) n = Some l'
    /\ lead_id l' = lead_id l
    /\ isMissedChat l' = true.
Proof.
  intros Hn Hm.
  destruct (leads_keep_nth _ _ n l (run_ops_keeps ops w) Hn)
    as [l' [Hn' [Hid [Hk _]]]].
  exists l'. auto.
Qed.

(** Along every sequence of requests a response time that was stamped
    (is not 0) stays as it is. *)
Lemma responseTime_stamped_once
    (ops : list Op) (w : World) (n : nat) (l : LeadDoc) :
  nth_error (leads w) n = Some l ->
  responseTime l <> 0%Z ->
  exists l',
    nth_error (leads (run_ops ops w)) n = Some l'
    /\ lead_id l' = lead_id l
    /\ responseTime l' = responseTime l.
Proof.
  intros Hn Hr.
  destruct (leads_keep_nth _ _ n l (run_ops_keeps ops w) Hn)
    as [l' [Hn' [Hid [_ Hk]]]].
  exists l'. auto.
Qed.

Lemma isMissedChat_never_cleared_witness :
  exists l',
    nth_error (leads (run_ops mixed_ops flagged_world)) 0 = Some l'
    /\ lead_id l' = lead_id flagged_lead
    /\ isMissedChat l' = true.
Proof.
  apply (isMissedChat_never_cleared mixed_ops flagged_world 0 flagged_lead);
    reflexivity.
Defined.

(* ================================================================== *)
(** ** The missed-chat sweep *)
(* ================================================================== *)

Lemma missedTimerMs_seconds (s : SettingsDoc) :
  missedTimerMs s = (1000 * thresholdSeconds s)%Z.
Proof. unfold missedTimerMs, thresholdSeconds. lia. Qed.

Lemma sweep_lead_idempotent (t : Z) (l : LeadDoc) :
  sweep_lead t (sweep_lead t l) = sweep_lead t l.
Proof.
  unfold sweep_lead.
  destruct ((responseTime l =? 0)%Z && negb (isMissedChat l)
            && (createdAt l <? t)%Z) eqn:E; simpl.
  - now rewrite andb_false_r.
  - now rewrite E.
Qed.

Lemma sweepMissedChats_unfold (c : Clock) (w : World) :
  sweepMissedChats c w
  = match hd_error (settings w) with
    | Some s =>
        if (0 <? missedTimerMs s)%Z
        then set_leads
               (map (sweep_lead (getTime c - missedTimerMs s)%Z) (leads w)) w
        else w
    | None => w
    end.
Proof.
  unfold sweepMissedChats, foundMissedChats. unfold_monad. simpl.
  destruct (hd_error (settings w)) as [s|]; simpl; [|reflexivity].
  destruct (0 <? missedTimerMs s)%Z; reflexivity.
Qed.

(** C5. At a fixed time, sweeping a second time changes nothing: the
    store, and so the set of flagged leads, is the one the first sweep
    left. When the threshold [hour*3600 + minute*60 + second] of the
    settings is positive, a sweep flags exactly the leads with
    [responseTime = 0], [isMissedChat = false] and [createdAt] earlier
    than now minus the threshold, and touches nothing else. *)
Theorem sweepMissedChats_idempotent (c : Clock) (w : World) :
  sweepMissedChats c (sweepMissedChats c w) = sweepMissedChats c w
  /\ flagged (sweepMissedChats c (sweepMissedChats c w))
     = flagged (sweepMissedChats c w)
  /\ (forall s,
        hd_error (settings w) = Some s ->
        (0 < thresholdSeconds s)%Z ->
        sweepMissedChats c w
        = set_leads
            (map (fun l => if overdue c s l then set_isMissedChat true l
                           else l)
                 (leads w)) w).
Proof.
  assert (Hidem : sweepMissedChats c (sweepMissedChats c w)
                  = sweepMissedChats c w).
  { rewrite (sweepMissedChats_unfold c w).
    destruct (hd_error (settings w)) as [s|] eqn:Hs.
    - destruct (0 <? missedTimerMs s)%Z eqn:Ht.
      + rewrite sweepMissedChats_unfold. simpl. rewrite Hs, Ht.
        unfold set_leads. simpl. f_equal.
        rewrite map_map. apply map_ext. intros l.
        apply sweep_lead_idempotent.
      + rewrite sweepMissedChats_unfold, Hs, Ht. reflexivity.
    - rewrite sweepMissedChats_unfold, Hs. reflexivity. }
  split; [exact Hidem|]. split; [now rewrite Hidem|].
  intros s Hs Hpos.
  rewrite sweepMissedChats_unfold, Hs.
  assert (Ht : (0 <? missedTimerMs s)%Z = true).
  { apply Z.ltb_lt. rewrite missedTimerMs_seconds. lia. }
  rewrite Ht. f_equal. apply map_ext. intros l.
  unfold sweep_lead, overdue. now rewrite missedTimerMs_seconds.
Qed.

Lemma sweepMissedChats_idempotent_witness :
  sweepMissedChats later_clock (sweepMissedChats later_clock sweep_world)
  = sweepMissedChats later_clock sweep_world
  /\ flagged (sweepMissedChats later_clock sweep_world) = [1]
  /\ sweepMissedChats later_clock sweep_world
     = set_leads
         (map (fun l => if overdue later_clock defaultSettings l
                        then set_isMissedChat true l else l)
              (leads sweep_world)) sweep_world.
Proof.
  destruct (sweepMissedChats_idempotent later_clock sweep_world)
    as [H1 [_ H3]].
  split; [exact H1|]. split; [reflexivity|].
  apply (H3 defaultSettings); reflexivity.
Defined.

(* ================================================================== *)
(** ** Average response time *)
(* ================================================================== *)

Section Analytics.

Lemma reduce_from (ls : list LeadDoc) : forall sum count,
  fold_left add_response ls (sum, count)
  = ((sum + fold_right Z.add 0 (replied_times ls))%Z,
     (count + Z.of_nat (List.length (replied_times ls)))%Z).
Proof.
  induction ls as [|l ls IH]; intros sum count; simpl.
  - f_equal; lia.
  - unfold replied_times in *. simpl. unfold add_response at 2.
    destruct (responseTime l =? 0)%Z; simpl.
    + apply IH.
    + rewrite IH. f_equal; lia.
Qed.

Lemma responseData_sum_count (ls : list LeadDoc) :
  responseData ls
  = (fold_right Z.add 0%Z (replied_times ls),
     Z.of_nat (List.length (replied_times ls))).
Proof.
  unfold responseData. rewrite reduce_from. reflexivity.
Qed.

End Analytics.

(** C8. For every set of leads the average response time of the
    analytics is the rounded mean of the response times that are not 0
    (leads with [responseTime = 0] enter neither the sum nor the
    count), and 0 when no lead has a response time other than 0. *)
Theorem averateResponseTime_is_rounded_mean (ls : list LeadDoc) :
  averateResponseTime ls = spec_averageResponseTimeSeconds ls.
Proof.
  unfold averateResponseTime, spec_averageResponseTimeSeconds.
  rewrite responseData_sum_count. simpl fst. simpl snd.
  destruct (replied_times ls) as [|t ts] eqn:E.
  - reflexivity.
  - assert (H : (0 <? Z.of_nat (List.length (t :: ts)))%Z = true).
    { apply Z.ltb_lt. simpl List.length. lia. }
    rewrite H. reflexivity.
Qed.

Example averateResponseTime_skips_unanswered :
  averateResponseTime
    [set_responseTime 1800 (sample_lead 1 "a");
     sample_lead 2 "b";
     set_responseTime 601 (sample_lead 3 "c");
     sample_lead 4 "d"]
  = 1201%Z.
Proof. reflexivity. Qed.

(* ================================================================== *)
(** ** Settings update *)
(* ================================================================== *)

Lemma putChatBotSettings_run (body : SettingsBody) (w : World) :
  (body_complete body = false ->
   run (putChatBotSettings body) w = (Failure CONFLICT, w))
  /\ (body_complete body = true ->
      exists doc,
        stored_settings body = Some doc
        /\ run (putChatBotSettings body) w
           = match settings w with
             | [] =>
                 (Failure EXPECTATION_FAILED,
                  set_settings [defaultSettings] w)
             | _ :: rest => (Success, set_settings (doc :: rest) w)
             end).
Proof.
  unfold body_complete, stored_settings, putChatBotSettings.
  destruct body as [hc bc msgs fp wm0 timer].
  cbn [b_headerColor b_backgroundColor b_customizedMessages
       b_formPlaceholder b_welcomeMessage b_missedChatTimer].
  destruct hc as [hc|], bc as [bc|], msgs as [msgs|], fp as [fp|],
    timer as [timer|];
    try (split; [reflexivity | intros H; simpl in H;
                 rewrite ?andb_false_r in H; discriminate]).
  destruct (falsy (Some hc)) eqn:H1; [split; [reflexivity|discriminate]|].
  destruct (falsy (Some bc)) eqn:H2; [split; [reflexivity|discriminate]|].
  destruct (falsy wm0) eqn:H3; [split; [reflexivity|discriminate]|].
  cbn [negb andb orb missing]. split; [discriminate|]. intros _.
  eexists. split; [reflexivity|].
  unfold_monad. simpl.
  destruct (settings w) as [|s0 rest] eqn:Hs; simpl.
  - unfold set_settings. rewrite Hs. reflexivity.
  - destruct timer. reflexivity.
Qed.

Lemma putChatBotSettings_cases (body : SettingsBody) (w : World) :
  (body_complete body = false /\
   run (putChatBotSettings body) w = (Failure CONFLICT, w))
  \/ (body_complete body = true /\
      exists doc,
        stored_settings body = Some doc
        /\ run (putChatBotSettings body) w
           = match settings w with
             | [] =>
                 (Failure EXPECTATION_FAILED,
                  set_settings [defaultSettings] w)
             | _ :: rest => (Success, set_settings (doc :: rest) w)
             end).
Proof.
  destruct (putChatBotSettings_run body w) as [Hno Hyes].
  destruct (body_complete body); [right|left]; auto.
Qed.

(** C10 (as amended). When [putChatBotSettings] answers with success
    and the [formPlaceholder] object of the body has no [welcomeMessage]
    key, the first settings document is replaced by one whose welcome
    message is the default text, whatever was stored before. The
    top-level [welcomeMessage] of the body is read by the opening check
    only: sent empty or not at all it makes the request fail with
    CONFLICT and an untouched store, and any other value of it gives
    the same answer and the same store. *)
Theorem putChatBotSettings_welcome_default
    (body : SettingsBody) (fp : PlaceholderBody) (w : World) :
  fst (run (putChatBotSettings body) w) = Success ->
  b_formPlaceholder body = Some fp ->
  b_ph_welcomeMessage fp = None ->
  (exists doc old rest,
     settings w = old :: rest
     /\ snd (run (putChatBotSettings body) w) = set_settings (doc :: rest) w
     /\ welcomeMessage doc = Some defaultWelcomeMessage)
  /\ (forall wm,
        falsy wm = false ->
        run (putChatBotSettings (with_welcomeMessage wm body)) w
        = run (putChatBotSettings body) w)
  /\ (forall wm,
        falsy wm = true ->
        run (putChatBotSettings (with_welcomeMessage wm body)) w
        = (Failure CONFLICT, w)).
Proof.
  intros Hok Hfp Hwm.
  destruct (putChatBotSettings_cases body w) as [[_ Hr]|[Hc [doc [Hdoc Hr]]]];
    [rewrite Hr in Hok; discriminate|].
  destruct (settings w) as [|old rest] eqn:Hs;
    [rewrite Hr in Hok; discriminate|].
  split; [|split].
  - exists doc, old, rest. split; [reflexivity|].
    rewrite Hr. split; [reflexivity|].
    unfold stored_settings in Hdoc. rewrite Hfp in Hdoc.
    destruct (b_headerColor body), (b_backgroundColor body),
      (b_customizedMessages body), (b_missedChatTimer body);
      try discriminate.
    injection Hdoc as <-. cbn [welcomeMessage]. now rewrite Hwm.
  - intros wm Hf.
    destruct (putChatBotSettings_cases (with_welcomeMessage wm body) w)
      as [[Hc' _]|[_ [doc' [Hdoc' Hr']]]].
    + exfalso. revert Hc Hc'. unfold body_complete.
      destruct body as [hc bc msgs fp' wm0 timer].
      cbn [with_welcomeMessage b_headerColor b_backgroundColor
           b_customizedMessages b_formPlaceholder b_welcomeMessage
           b_missedChatTimer].
      rewrite Hf.
      destruct (falsy hc), (falsy bc), (missing msgs), (missing fp'),
        (falsy wm0), (missing timer); cbn; congruence.
    + rewrite Hr', Hr, Hs.
      assert (doc' = doc); [|now subst].
      revert Hdoc Hdoc'. unfold stored_settings.
      destruct body as [hc bc msgs fp' wm0 timer].
      cbn [with_welcomeMessage b_headerColor b_backgroundColor
           b_customizedMessages b_formPlaceholder b_welcomeMessage
           b_missedChatTimer].
      congruence.
  - intros wm Hf.
    destruct (putChatBotSettings_cases (with_welcomeMessage wm body) w)
      as [[_ Hr']|[Hc' _]]; [exact Hr'|].
    exfalso. revert Hc'. unfold body_complete.
    destruct body as [hc bc msgs fp' wm0 timer].
    cbn [with_welcomeMessage b_headerColor b_backgroundColor
         b_customizedMessages b_formPlaceholder b_welcomeMessage
         b_missedChatTimer].
    rewrite Hf. rewrite !andb_false_r. cbn. rewrite ?andb_false_r.
    discriminate.
Qed.

Lemma putChatBotSettings_welcome_default_witness :
  option_map welcomeMessage (hd_error (settings customised_world))
  = Some (Some "Welcome back to Hubly")
  /\ (exists doc old rest,
        settings customised_world = old :: rest
        /\ snd (run (putChatBotSettings sample_body) customised_world)
           = set_settings (doc :: rest) customised_world
        /\ welcomeMessage doc = Some defaultWelcomeMessage)
  /\ (forall wm,
        falsy wm = false ->
        run (putChatBotSettings (with_welcomeMessage wm sample_body))
            customised_world
        = run (putChatBotSettings sample_body) customised_world)
  /\ (forall wm,
        falsy wm = true ->
        run (putChatBotSettings (with_welcomeMessage wm sample_body))
            customised_world
        = (Failure CONFLICT, customised_world)).
Proof.
  split; [reflexivity|].
  apply (putChatBotSettings_welcome_default sample_body
           (mkPlaceholderBody (Some "Name") (Some "Email") (Some "Phone")
                              (Some "Send") None)
           customised_world); reflexivity.
Defined.

(** C10 (as stated) does not hold: the top-level [welcomeMessage] is
    read. Two bodies that differ in nothing else are answered
    differently: with an empty one the request fails with CONFLICT and
    the customised welcome message stays, with another one it succeeds
    and the default text is stored. *)
Lemma top_level_welcomeMessage_is_read :
  run (putChatBotSettings (with_welcomeMessage (Some "") sample_body))
      customised_world
  = (Failure CONFLICT, customised_world)
  /\ run (putChatBotSettings (with_welcomeMessage None sample_body))
         customised_world
     = (Failure CONFLICT, customised_world)
  /\ fst (run (putChatBotSettings
                 (with_welcomeMessage (Some "Hello") sample_body))
              customised_world)
     = Success
  /\ option_map welcomeMessage
       (hd_error
          (settings
             (snd (run (putChatBotSettings
                          (with_welcomeMessage (Some "Hello") sample_body))
                       customised_world))))
     = Some (Some defaultWelcomeMessage)
  /\ run (putChatBotSettings (with_welcomeMessage (Some "") sample_body))
         customised_world
     <> run (putChatBotSettings
               (with_welcomeMessage (Some "Hello") sample_body))
            customised_world.
Proof.
  repeat split; try reflexivity. vm_compute. discriminate.
Qed.

(* ================================================================== *)
(** ** Staff replies: the scenarios *)
(* ================================================================== *)

Lemma scenario_created_world (T : Z) (day : Clock) :
  scenario_created T day
  = mkWorld [mkUser 0 "admin@hubly.test" Admin None]
      [mkLead 1 (baseTicketID day) None None None false 0 (Some 0) [0]
              true false Unresolved T]
      [mkConversation 2 1 "hello" SendByLead None]
      [defaultSettings] 3.
Proof. reflexivity. Qed.

Lemma scenario_first_reply_world (T d1 : Z) (day : Clock) :
  scenario_first_reply T d1 day
  = mkWorld [mkUser 0 "admin@hubly.test" Admin None]
      [mkLead 1 (baseTicketID day) None None None
              (3600000 <? d1)%Z (d1 / 1000)%Z (Some 0) [0]
              true false Unresolved T]
      [mkConversation 2 1 "hello" SendByLead None;
       mkConversation 3 1 "hi, how can I help?" SendByMember (Some 0)]
      [defaultSettings] 4.
Proof.
  unfold scenario_first_reply. rewrite scenario_created_world.
  unfold step, handler_of, putMessage. unfold_monad. cbn.
  replace (T + d1 - T)%Z with d1 by lia.
  destruct (3600000 <? d1)%Z; reflexivity.
Qed.

Lemma scenario_second_reply_view (T d1 d2 : Z) (day : Clock) :
  sla_view (scenario_second_reply T d1 d2 day)
  = [((3600000 <? d1)%Z || (3600000 <? d2)%Z,
      if (d1 / 1000 =? 0)%Z then (d2 / 1000)%Z else (d1 / 1000)%Z)].
Proof.
  unfold scenario_second_reply. rewrite scenario_first_reply_world.
  unfold sla_view, step, handler_of, putMessage. unfold_monad. cbn.
  replace (T + d2 - T)%Z with d2 by lia.
  destruct (d1 / 1000 =? 0)%Z, (3600000 <? d1)%Z, (3600000 <? d2)%Z;
    reflexivity.
Qed.

(** C7. With the threshold at one hour, a lead created at time [T] and
    answered by its assignee at [T] + 30 min has [isMissedChat] false
    and [responseTime] 1800; after a second answer at [T] + 2 h its
    [responseTime] is still 1800. *)
Theorem reply_within_threshold_scenario (T : Z) (day : Clock) :
  map thresholdSeconds (settings scenario_world) = [3600%Z]
  /\ map createdAt (leads (scenario_created T day)) = [T]
  /\ sla_view (scenario_created T day) = [(false, 0%Z)]
  /\ sla_view (scenario_first_reply T 1800000 day) = [(false, 1800%Z)]
  /\ map responseTime (leads (scenario_second_reply T 1800000 7200000 day))
     = [1800%Z].
Proof.
  split; [reflexivity|]. split; [reflexivity|]. split; [reflexivity|].
  split.
  - rewrite scenario_first_reply_world. reflexivity.
  - pose proof (scenario_second_reply_view T 1800000 7200000 day) as H.
    unfold sla_view in H.
    apply (f_equal (map snd)) in H. rewrite map_map in H.
    exact H.
Qed.

(** The second answer of that scenario comes after the threshold, and
    the handler raises the flag then. *)
Remark late_second_reply_flags (T : Z) (day : Clock) :
  sla_view (scenario_second_reply T 1800000 7200000 day) = [(true, 1800%Z)].
Proof. rewrite scenario_second_reply_view. reflexivity. Qed.

(** C1 does not hold of the code. A staff answer posted less than a second
    after the lead was created leaves [responseTime] at 0 although a
    staff turn is logged; the stamp is then written by the next
    answer, here 5 seconds after the creation. *)
Theorem responseTime_zero_after_fast_reply (T : Z) (day : Clock) :
  sla_view (scenario_first_reply T 500 day) = [(false, 0%Z)]
  /\ map assigneeID (staff_turns 1 (scenario_first_reply T 500 day))
     = [Some 0]
  /\ sla_view (scenario_second_reply T 500 5000 day) = [(false, 5%Z)].
Proof.
  split; [|split].
  - rewrite scenario_first_reply_world. reflexivity.
  - rewrite scenario_first_reply_world. reflexivity.
  - rewrite scenario_second_reply_view. reflexivity.
Qed.

(* ================================================================== *)
(** ** Reassignment *)
(* ================================================================== *)

(** C2 does not hold of the code. The Admin (user 0, the only one) asks to hand
    lead 2 to member 1; both exist. The handler answers UNAUTHORIZED and
    the store is as before. *)
Theorem putLeadAssignee_rejects_admin :
  map userRole (users flagged_world) = [Admin; Member]
  /\ map lead_id (leads flagged_world) = [2]
  /\ run (putLeadAssignee 0 (Some 2) (Some 1)) flagged_world
     = (Failure UNAUTHORIZED, flagged_world).
Proof. repeat split; reflexivity. Qed.

(* ================================================================== *)
(** ** Deleting a member *)
(* ================================================================== *)

(** The hook of the user schema is registered after the model is
    compiled and does not run. On a store where a member is the
    assignee of a lead (no request builds one: see
    [member_unreferenced] below), deleting the member removes the user
    document only: the lead still names user 1 as [currentAssignee]
    and in [assigneeList], and the staff turn still names user 1. *)
Remark deleteMember_skips_the_hook :
  run (deleteMember 0 (Some 1)) member_world
  = (Success,
     set_users [mkUser 0 "admin@hubly.test" Admin None] member_world)
  /\ map currentAssignee
       (leads (snd (run (deleteMember 0 (Some 1)) member_world)))
     = [Some 1]
  /\ map assigneeList
       (leads (snd (run (deleteMember 0 (Some 1)) member_world)))
     = [[1; 0]]
  /\ map assigneeID
       (conversations (snd (run (deleteMember 0 (Some 1)) member_world)))
     = [None; Some 1].
Proof. repeat split; reflexivity. Qed.

(** The hook itself, had it been part of the compiled model: its
    second [updateMany] names [assigneeList] under [$pull] and under
    [$addToSet], the server refuses it, and the hook fails after the
    first [updateMany] went through. *)
Remark userSchema_pre_deleteOne_conflict :
  userSchema_pre_deleteOne (mkUser 1 "member@hubly.test" Member (Some 0))
    member_world
  = (false,
     set_leads [set_currentAssignee (Some 0) member_lead] member_world).
Proof. reflexivity. Qed.


(* ================================================================== *)
(** * Further properties of the handlers *)
(* ================================================================== *)

(* ================================================================== *)
(** ** Who may act on a ticket *)
(* ================================================================== *)

Lemma find_user_id (uid : id) (us : list UserDoc) (u : UserDoc) :
  find (fun x => user_id x =? uid) us = Some u -> user_id u = uid.
Proof.
  intros H. apply find_some in H. destruct H as [_ H].
  now apply Nat.eqb_eq in H.
Qed.

Lemma find_lead_id (i : id) (ls : list LeadDoc) (l : LeadDoc) :
  find (fun x => lead_id x =? i) ls = Some l -> lead_id l = i.
Proof.
  intros H. apply find_some in H. destruct H as [_ H].
  now apply Nat.eqb_eq in H.
Qed.

Lemma set_leads_same (w : World) : set_leads (leads w) w = w.
Proof. destruct w. reflexivity. Qed.

Lemma find_replace_lead (i : id) (l l' : LeadDoc) (ls : list LeadDoc) :
  find (fun x => lead_id x =? i) ls = Some l ->
  lead_id l' = i ->
  find (fun x => lead_id x =? i) (replace_lead l' ls) = Some l'.
Proof.
  intros Hfind Hid. induction ls as [|x ls IH]; simpl in *; [discriminate|].
  rewrite Hid. destruct (lead_id x =? i) eqn:E; simpl.
  - now rewrite Hid, Nat.eqb_refl.
  - rewrite E. auto.
Qed.

Lemma replace_lead_back (i : id) (l l' : LeadDoc) (ls : list LeadDoc) :
  find (fun x => lead_id x =? i) ls = Some l ->
  lead_id l' = i ->
  replace_lead l (replace_lead l' ls) = ls.
Proof.
  intros Hfind Hid.
  assert (Hl : lead_id l = i) by (eapply find_lead_id; eauto).
  induction ls as [|x ls IH]; simpl in *; [reflexivity|].
  rewrite Hid. destruct (lead_id x =? i) eqn:E; simpl.
  - rewrite Hid, Hl, Nat.eqb_refl. congruence.
  - rewrite Hl, E. f_equal. auto.
Qed.

(** X1. A status update sent by a known user who is not the current
    assignee of the lead is refused with UNAUTHORIZED and nothing is
    written. *)
Theorem putStatusUpdate_only_assignee
    (uid i a : id) (st : Status) (w : World) (u : UserDoc) (l : LeadDoc) :
  find (fun x => user_id x =? uid) (users w) = Some u ->
  find (fun x => lead_id x =? i) (leads w) = Some l ->
  currentAssignee l = Some a ->
  a <> uid ->
  run (putStatusUpdate uid (Some i) (Some st)) w = (Failure UNAUTHORIZED, w).
Proof.
  intros Hu Hl Ha Hne.
  pose proof (find_user_id _ _ _ Hu) as Hid.
  unfold putStatusUpdate. unfold_monad. simpl.
  rewrite Hu. simpl. rewrite Hl. simpl.
  unfold not_current_assignee. rewrite Ha. simpl.
  unfold toString_neq. rewrite Hid.
  apply Nat.eqb_neq in Hne. rewrite Hne. reflexivity.
Qed.

Lemma putStatusUpdate_only_assignee_witness :
  run (putStatusUpdate 1 (Some 2) (Some Resolved)) flagged_world
  = (Failure UNAUTHORIZED, flagged_world).
Proof.
  apply (putStatusUpdate_only_assignee 1 2 0 Resolved flagged_world
           (mkUser 1 "member@hubly.test" Member (Some 0)) flagged_lead);
    [reflexivity | reflexivity | reflexivity | discriminate].
Defined.

(** X2. The current assignee may set either status from either status:
    the request succeeds, the lead found under the identifier then
    carries the new status and is otherwise as before, and setting the
    old status again gives back the store as it was. *)
Theorem putStatusUpdate_reversible
    (uid i : id) (st : Status) (w : World) (u : UserDoc) (l : LeadDoc) :
  find (fun x => user_id x =? uid) (users w) = Some u ->
  find (fun x => lead_id x =? i) (leads w) = Some l ->
  currentAssignee l = Some uid ->
  fst (run (putStatusUpdate uid (Some i) (Some st)) w) = Success
  /\ find (fun x => lead_id x =? i)
          (leads (snd (run (putStatusUpdate uid (Some i) (Some st)) w)))
     = Some (set_status st l)
  /\ snd (run (putStatusUpdate uid (Some i) (Some (status l)))
              (snd (run (putStatusUpdate uid (Some i) (Some st)) w)))
     = w.
Proof.
  intros Hu Hl Ha.
  pose proof (find_user_id _ _ _ Hu) as Hid.
  pose proof (find_lead_id _ _ _ Hl) as Hlid.
  assert (Hrun : forall s w' l',
            find (fun x => user_id x =? uid) (users w') = Some u ->
            find (fun x => lead_id x =? i) (leads w') = Some l' ->
            currentAssignee l' = Some uid ->
            run (putStatusUpdate uid (Some i) (Some s)) w'
            = (Success, set_leads (replace_lead (set_status s l') (leads w')) w')).
  { intros s w' l' Hu' Hl' Ha'.
    unfold putStatusUpdate. unfold_monad. simpl.
    rewrite Hu'. simpl. rewrite Hl'. simpl.
    unfold not_current_assignee. rewrite Ha'. simpl.
    unfold toString_neq. rewrite Hid, Nat.eqb_refl. reflexivity. }
  rewrite (Hrun st w l Hu Hl Ha). cbn [fst snd].
  assert (Hl1 : find (fun x => lead_id x =? i)
                     (replace_lead (set_status st l) (leads w))
                = Some (set_status st l))
    by (apply (find_replace_lead i l); auto).
  split; [reflexivity|]. split; [exact Hl1|].
  rewrite (Hrun (status l) _ (set_status st l)); auto.
  cbn [snd]. unfold set_leads. simpl.
  replace (set_status (status l) (set_status st l)) with l
    by (destruct l; reflexivity).
  rewrite (replace_lead_back i l (set_status st l)); auto.
  destruct w; reflexivity.
Qed.

Lemma putStatusUpdate_reversible_witness :
  fst (run (putStatusUpdate 0 (Some 2) (Some Resolved)) flagged_world)
  = Success
  /\ find (fun x => lead_id x =? 2)
          (leads (snd (run (putStatusUpdate 0 (Some 2) (Some Resolved))
                           flagged_world)))
     = Some (set_status Resolved flagged_lead)
  /\ snd (run (putStatusUpdate 0 (Some 2) (Some (status flagged_lead)))
              (snd (run (putStatusUpdate 0 (Some 2) (Some Resolved))
                        flagged_world)))
     = flagged_world.
Proof.
  apply (putStatusUpdate_reversible 0 2 Resolved flagged_world
           (mkUser 0 "admin@hubly.test" Admin None) flagged_lead);
    reflexivity.
Defined.

Lemma putMessage_refused
    (c : Clock) (uid i a : id) (m : string) (w : World)
    (u : UserDoc) (l : LeadDoc) :
  m <> "" ->
  find (fun x => user_id x =? uid) (users w) = Some u ->
  find (fun x => lead_id x =? i) (leads w) = Some l ->
  currentAssignee l = Some a ->
  a <> uid ->
  run (putMessage c uid (Some i) (Some m)) w = (Failure UNAUTHORIZED, w).
Proof.
  intros Hm Hu Hl Ha Hne.
  pose proof (find_user_id _ _ _ Hu) as Hid.
  apply String.eqb_neq in Hm.
  unfold putMessage, falsy. rewrite Hm. unfold_monad. simpl.
  rewrite Hu. simpl. rewrite Hl. simpl.
  unfold not_current_assignee. rewrite Ha. simpl.
  unfold toString_neq. rewrite Hid.
  apply Nat.eqb_neq in Hne. rewrite Hne. reflexivity.
Qed.

(** X3. A staff message sent by a known user who is not the current
    assignee of the lead is refused with UNAUTHORIZED: no turn is
    logged and the lead is not touched. *)
Theorem putMessage_only_assignee
    (c : Clock) (uid i a : id) (m : string) (w : World)
    (u : UserDoc) (l : LeadDoc) :
  m <> "" ->
  find (fun x => user_id x =? uid) (users w) = Some u ->
  find (fun x => lead_id x =? i) (leads w) = Some l ->
  currentAssignee l = Some a ->
  a <> uid ->
  run (putMessage c uid (Some i) (Some m)) w = (Failure UNAUTHORIZED, w).
Proof. exact (putMessage_refused c uid i a m w u l). Qed.

Lemma putMessage_only_assignee_witness :
  run (putMessage member_clock 1 (Some 2) (Some "let me take this"))
      flagged_world
  = (Failure UNAUTHORIZED, flagged_world).
Proof.
  apply (putMessage_only_assignee member_clock 1 2 0 "let me take this"
           flagged_world
           (mkUser 1 "member@hubly.test" Member (Some 0)) flagged_lead);
    [discriminate | reflexivity | reflexivity | reflexivity | discriminate].
Defined.

(** X4. While the settings collection is empty a staff message of the
    assignee is answered NOT_FOUND and leaves no trace: the response
    time computed for it is not saved and no turn is logged. *)
Theorem putMessage_without_settings
    (c : Clock) (uid i : id) (m : string) (w : World)
    (u : UserDoc) (l : LeadDoc) :
  m <> "" ->
  find (fun x => user_id x =? uid) (users w) = Some u ->
  find (fun x => lead_id x =? i) (leads w) = Some l ->
  currentAssignee l = Some uid ->
  settings w = [] ->
  run (putMessage c uid (Some i) (Some m)) w = (Failure NOT_FOUND, w).
Proof.
  intros Hm Hu Hl Ha Hs.
  pose proof (find_user_id _ _ _ Hu) as Hid.
  apply String.eqb_neq in Hm.
  unfold putMessage, falsy. rewrite Hm. unfold_monad. simpl.
  rewrite Hu. simpl. rewrite Hl. simpl.
  unfold not_current_assignee. rewrite Ha. simpl.
  unfold toString_neq. rewrite Hid, Nat.eqb_refl. simpl.
  rewrite Hs. reflexivity.
Qed.

Lemma putMessage_without_settings_witness :
  run (putMessage member_clock 0 (Some 2) (Some "hello")) unsettled_world
  = (Failure NOT_FOUND, unsettled_world).
Proof.
  apply (putMessage_without_settings member_clock 0 2 "hello"
           unsettled_world
           (mkUser 0 "admin@hubly.test" Admin None) flagged_lead);
    [discriminate | reflexivity | reflexivity | reflexivity | reflexivity].
Defined.

Lemma putMessage_run
    (c : Clock) (uid i : id) (m : string) (w : World)
    (u : UserDoc) (l : LeadDoc) (s : SettingsDoc) :
  m <> "" ->
  find (fun x => user_id x =? uid) (users w) = Some u ->
  find (fun x => lead_id x =? i) (leads w) = Some l ->
  currentAssignee l = Some uid ->
  hd_error (settings w) = Some s ->
  run (putMessage c uid (Some i) (Some m)) w
  = (Success,
     mkWorld (users w)
       (replace_lead (answered c s l) (leads w))
       (conversations w
        ++ [mkConversation (next_id w) i m SendByMember (Some uid)])
       (settings w) (S (next_id w))).
Proof.
  intros Hm Hu Hl Ha Hs.
  pose proof (find_user_id _ _ _ Hu) as Hid.
  pose proof (find_lead_id _ _ _ Hl) as Hlid.
  apply String.eqb_neq in Hm.
  unfold putMessage, falsy. rewrite Hm. unfold_monad. simpl.
  rewrite Hu. simpl. rewrite Hl. simpl.
  unfold not_current_assignee. rewrite Ha. simpl.
  unfold toString_neq. rewrite Hid, Nat.eqb_refl. simpl.
  rewrite Hs. simpl. rewrite Hlid.
  unfold set_conversations, bump_id, set_leads, answered. simpl.
  destruct (responseTime l =? 0)%Z,
    ((0 <? missedTimerMs s)%Z
     && (missedTimerMs s <? getTime c - createdAt l)%Z),
    (isMissedChat l) eqn:Hf;
    simpl; try reflexivity;
    repeat f_equal; destruct l; simpl in *; subst; reflexivity.
Qed.

(** X5. A staff message of the current assignee succeeds when settings
    exist. It logs one Member turn that carries the sender, stamps the
    response time only if it was 0, and raises the missed-chat flag
    exactly when the threshold is positive and the lead is older than
    the threshold at that moment, whether or not it was answered
    before; users and settings are left alone. *)
Theorem putMessage_effect
    (c : Clock) (uid i : id) (m : string) (w : World)
    (u : UserDoc) (l : LeadDoc) (s : SettingsDoc) :
  m <> "" ->
  find (fun x => user_id x =? uid) (users w) = Some u ->
  find (fun x => lead_id x =? i) (leads w) = Some l ->
  currentAssignee l = Some uid ->
  hd_error (settings w) = Some s ->
  let w' := snd (run (putMessage c uid (Some i) (Some m)) w) in
  fst (run (putMessage c uid (Some i) (Some m)) w) = Success
  /\ find (fun x => lead_id x =? i) (leads w') = Some (answered c s l)
  /\ conversations w'
     = conversations w
       ++ [mkConversation (next_id w) i m SendByMember (Some uid)]
  /\ users w' = users w
  /\ settings w' = settings w.
Proof.
  intros Hm Hu Hl Ha Hs w'. subst w'.
  rewrite (putMessage_run c uid i m w u l s Hm Hu Hl Ha Hs).
  cbn [fst snd leads conversations users settings].
  repeat split.
  apply (find_replace_lead i l); auto.
  unfold answered. simpl. eapply find_lead_id; eauto.
Qed.

Lemma putMessage_effect_witness :
  let w' := snd (run (putMessage member_clock 0 (Some 2) (Some "hello"))
                     flagged_world) in
  fst (run (putMessage member_clock 0 (Some 2) (Some "hello")) flagged_world)
  = Success
  /\ find (fun x => lead_id x =? 2) (leads w')
     = Some (answered member_clock defaultSettings flagged_lead)
  /\ conversations w'
     = conversations flagged_world
       ++ [mkConversation (next_id flagged_world) 2 "hello" SendByMember
                          (Some 0)]
  /\ users w' = users flagged_world
  /\ settings w' = settings flagged_world.
Proof.
  apply (putMessage_effect member_clock 0 2 "hello" flagged_world
           (mkUser 0 "admin@hubly.test" Admin None) flagged_lead
           defaultSettings);
    [discriminate | reflexivity | reflexivity | reflexivity | reflexivity].
Defined.

(* ================================================================== *)
(** ** What no request changes *)
(* ================================================================== *)

Section Grow.

Variable kept : LeadDoc -> LeadDoc -> Prop.
Variable born : LeadDoc -> Prop.

Hypothesis kept_refl : forall l, kept l l.
Hypothesis kept_trans : forall a b c, kept a b -> kept b c -> kept a c.
Hypothesis born_kept : forall l l', born l -> kept l l' -> born l'.
Hypothesis kept_details : forall n e p l, kept l (with_details n e p l).
Hypothesis kept_status : forall st l, kept l (set_status st l).
Hypothesis kept_time : forall t l, kept l (set_responseTime t l).
Hypothesis kept_flag : forall l, kept l (set_isMissedChat true l).
Hypothesis born_fresh : forall i t a c, born (fresh_lead i t a c).

Lemma Forall2_kept_refl (ls : list LeadDoc) : Forall2 kept ls ls.
Proof. induction ls; constructor; auto. Qed.

Lemma Forall2_kept_trans (xs : list LeadDoc) : forall ys zs,
  Forall2 kept xs ys -> Forall2 kept ys zs -> Forall2 kept xs zs.
Proof.
  induction xs as [|x xs IH]; intros ys zs H1 H2;
    inversion H1; subst; inversion H2; subst; constructor; eauto.
Qed.

Lemma Forall_born_kept (xs : list LeadDoc) : forall ys,
  Forall born xs -> Forall2 kept xs ys -> Forall born ys.
Proof.
  induction xs as [|x xs IH]; intros ys H1 H2;
    inversion H1; subst; inversion H2; subst; constructor; eauto.
Qed.

Lemma grow_refl (ls : list LeadDoc) : leads_grow kept born ls ls.
Proof.
  exists ls, []. rewrite app_nil_r.
  split; [reflexivity|]. split; [apply Forall2_kept_refl | constructor].
Qed.

Lemma grow_trans (xs ys zs : list LeadDoc) :
  leads_grow kept born xs ys -> leads_grow kept born ys zs ->
  leads_grow kept born xs zs.
Proof.
  intros [o1 [n1 [-> [H1 B1]]]] [o2 [n2 [-> [H2 B2]]]].
  apply Forall2_app_inv_l in H2.
  destruct H2 as [a [b [Ha [Hb ->]]]].
  exists a, (b ++ n2). split; [now rewrite app_assoc|].
  split; [exact (Forall2_kept_trans xs o1 a H1 Ha)|].
  apply Forall_app. split; [exact (Forall_born_kept n1 b B1 Hb) | exact B2].
Qed.

Lemma grow_snoc (ls : list LeadDoc) (l : LeadDoc) :
  born l -> leads_grow kept born ls (ls ++ [l]).
Proof.
  intros H. exists ls, [l]. split; [reflexivity|].
  split; [apply Forall2_kept_refl | now constructor].
Qed.

Lemma grow_map (f : LeadDoc -> LeadDoc) (ls : list LeadDoc) :
  (forall l, kept l (f l)) -> leads_grow kept born ls (map f ls).
Proof.
  intros Hf. exists (map f ls), []. rewrite app_nil_r.
  split; [reflexivity|]. split; [|constructor].
  induction ls; simpl; constructor; auto.
Qed.

Lemma grow_replace (i : id) (l l' : LeadDoc) (ls : list LeadDoc) :
  find (fun x => lead_id x =? i) ls = Some l ->
  lead_id l' = i ->
  kept l l' ->
  leads_grow kept born ls (replace_lead l' ls).
Proof.
  intros Hfind Hid Hk. exists (replace_lead l' ls), []. rewrite app_nil_r.
  split; [reflexivity|]. split; [|constructor].
  revert Hfind. induction ls as [|x ls IH]; simpl; intros Hfind;
    [constructor|].
  rewrite Hid. destruct (lead_id x =? i) eqn:E.
  - injection Hfind as ->. constructor; [exact Hk | apply Forall2_kept_refl].
  - constructor; auto.
Qed.

Lemma kept_sweep (t : Z) (l : LeadDoc) : kept l (sweep_lead t l).
Proof. unfold sweep_lead. destruct (_ && _); auto. Qed.

Ltac grow_done :=
  first
    [ apply grow_refl
    | eapply grow_replace;
      [ eassumption
      | simpl; eapply find_lead_id; eassumption
      | eauto ] ].

Lemma postNewLead_grows c m w :
  leads_grow kept born (leads w) (leads (snd (run (postNewLead c m) w))).
Proof.
  destruct (postNewLead_leads c m w) as [E|[t [i [a [_ E]]]]]; rewrite E.
  - apply grow_refl.
  - apply grow_snoc. apply (born_fresh i t a c).
Qed.

Lemma postLeadForm_grows i n e p w :
  leads_grow kept born (leads w)
    (leads (snd (run (postLeadForm i n e p) w))).
Proof.
  unfold postLeadForm. unfold_monad.
  repeat (simpl; try break_match); simpl; try apply grow_refl.
  eapply grow_replace;
    [ eassumption | simpl; eapply find_lead_id; eassumption |].
  match goal with
  | |- kept ?l _ => apply (kept_details _ _ _ l)
  end.
Qed.

Lemma putStatusUpdate_grows u i st w :
  leads_grow kept born (leads w)
    (leads (snd (run (putStatusUpdate u i st) w))).
Proof.
  unfold putStatusUpdate. unfold_monad.
  repeat (simpl; try break_match); simpl; grow_done.
Qed.

Lemma putMessage_grows c u i m w :
  leads_grow kept born (leads w)
    (leads (snd (run (putMessage c u i m) w))).
Proof.
  unfold putMessage. unfold_monad.
  repeat (simpl; try break_match); simpl; grow_done.
Qed.

Lemma putLeadMessage_grows i m w :
  leads_grow kept born (leads w)
    (leads (snd (run (putLeadMessage i m) w))).
Proof.
  unfold putLeadMessage. unfold_monad.
  repeat (simpl; try break_match); simpl; grow_done.
Qed.

Lemma step_grows (o : Op) (w : World) :
  leads_grow kept born (leads w) (leads (step o w)).
Proof.
  unfold step.
  destruct o as [c m|i n e p|i m|u i st|u i a|c u i m|c u|u m|b];
    cbn [handler_of].
  - apply postNewLead_grows.
  - apply postLeadForm_grows.
  - apply putLeadMessage_grows.
  - apply putStatusUpdate_grows.
  - destruct (putLeadAssignee_never_saves u i a w) as [-> _].
    apply grow_refl.
  - apply putMessage_grows.
  - rewrite getLeadList_leads.
    change (leads (snd (run (foundMissedChats c) w)))
      with (leads (world (snd (foundMissedChats c (mkH w 0 None))))).
    rewrite foundMissedChats_leads. simpl.
    destruct (hd_error (settings w)) as [s|]; [|apply grow_refl].
    destruct (0 <? missedTimerMs s)%Z; [|apply grow_refl].
    apply grow_map. apply kept_sweep.
  - destruct (deleteMember_leads u m w) as [-> _].
    apply grow_refl.
  - rewrite putChatBotSettings_leads. apply grow_refl.
Qed.

Lemma run_ops_grows (ops : list Op) : forall w,
  leads_grow kept born (leads w) (leads (run_ops ops w)).
Proof.
  induction ops as [|o ops IH]; intros w; simpl; [apply grow_refl|].
  eapply grow_trans; [apply step_grows | apply IH].
Qed.

End Grow.

Lemma grow_nth kept born (ls ls' : list LeadDoc) (n : nat) (l : LeadDoc) :
  leads_grow kept born ls ls' -> nth_error ls n = Some l ->
  exists l', nth_error ls' n = Some l' /\ kept l l'.
Proof.
  intros [old [new [-> [H _]]]]. revert n.
  induction H as [|x y xs ys Hxy _ IH]; intros n Hn.
  - destruct n; discriminate.
  - destruct n as [|n]; simpl in *.
    + injection Hn as ->. eauto.
    + auto.
Qed.

Lemma lead_fixed_refl (l : LeadDoc) : lead_fixed l l.
Proof. unfold lead_fixed. tauto. Qed.

Lemma lead_fixed_trans (a b c : LeadDoc) :
  lead_fixed a b -> lead_fixed b c -> lead_fixed a c.
Proof.
  unfold lead_fixed. intros H1 H2.
  destruct H1 as (?&?&?&?&?&?&?), H2 as (?&?&?&?&?&?&?).
  repeat split; try congruence. auto.
Qed.

Lemma sole_assignee_fixed (l l' : LeadDoc) :
  sole_assignee l -> lead_fixed l l' -> sole_assignee l'.
Proof.
  intros [a [Hc Hl]] (_&_&_&Hc'&Hl'&_). exists a.
  split; congruence.
Qed.

Lemma run_ops_fixed (born : LeadDoc -> Prop) (ops : list Op) (w : World) :
  (forall l l', born l -> lead_fixed l l' -> born l') ->
  (forall i t a c, born (fresh_lead i t a c)) ->
  leads_grow lead_fixed born (leads w) (leads (run_ops ops w)).
Proof.
  intros Hbk Hbf.
  apply run_ops_grows; auto using lead_fixed_refl.
  - apply lead_fixed_trans.
  - intros n e p l. unfold lead_fixed. simpl. tauto.
  - intros st l. unfold lead_fixed. simpl. tauto.
  - intros t l. unfold lead_fixed. simpl. tauto.
  - intros l. unfold lead_fixed. simpl. tauto.
Qed.

(** X6. Whatever requests follow, a stored lead stays at its place in
    the collection with the same identifier, ticket code, creation
    time, current assignee and assignee list; a lead whose details
    were shared stays so. *)
Theorem lead_fields_fixed
    (ops : list Op) (w : World) (n : nat) (l : LeadDoc) :
  nth_error (leads w) n = Some l ->
  exists l',
    nth_error (leads (run_ops ops w)) n = Some l' /\ lead_fixed l l'.
Proof.
  intros Hn.
  apply (grow_nth lead_fixed (fun _ => True) (leads w)); [|exact Hn].
  apply run_ops_fixed; auto.
Qed.

Lemma lead_fields_fixed_witness :
  exists l',
    nth_error (leads (run_ops mixed_ops flagged_world)) 0 = Some l'
    /\ lead_fixed flagged_lead l'.
Proof.
  apply (lead_fields_fixed mixed_ops flagged_world 0 flagged_lead).
  reflexivity.
Defined.

(** X7. If every stored lead has its current assignee as the one entry
    of its assignee list, this is still so after any sequence of
    requests: leads are created that way and no request adds to an
    assignee list or moves a lead to another assignee. *)
Theorem sole_assignee_invariant (ops : list Op) (w : World) :
  Forall sole_assignee (leads w) ->
  Forall sole_assignee (leads (run_ops ops w)).
Proof.
  intros H.
  destruct (run_ops_fixed sole_assignee ops w) as [old [new [-> [Hk Hb]]]].
  - apply sole_assignee_fixed.
  - intros i t a c. exists a. split; reflexivity.
  - apply Forall_app. split; [|exact Hb].
    clear Hb. induction Hk as [|x y xs ys Hxy _ IH]; [constructor|].
    inversion H; subst. constructor; eauto using sole_assignee_fixed.
Qed.

Lemma sole_assignee_invariant_witness :
  Forall sole_assignee (leads (run_ops mixed_ops flagged_world)).
Proof.
  apply (sole_assignee_invariant mixed_ops flagged_world).
  repeat constructor. exists 0. split; reflexivity.
Defined.

(* ================================================================== *)
(** ** Turns are only ever added *)
(* ================================================================== *)

Ltac appended :=
  first
    [ exists []; rewrite app_nil_r; reflexivity
    | eexists; reflexivity ].

Lemma step_appends (o : Op) (w : World) :
  exists new, conversations (step o w) = conversations w ++ new.
Proof.
  unfold step.
  destruct o as [c m|i n e p|i m|u i st|u i a|c u i m|c u|u m|b];
    cbn [handler_of].
  - unfold postNewLead. unfold_monad.
    repeat (simpl; try break_match); simpl; appended.
  - unfold postLeadForm. unfold_monad.
    repeat (simpl; try break_match); simpl; appended.
  - unfold putLeadMessage. unfold_monad.
    repeat (simpl; try break_match); simpl; appended.
  - unfold putStatusUpdate. unfold_monad.
    repeat (simpl; try break_match); simpl; appended.
  - destruct (putLeadAssignee_never_saves u i a w) as [-> _]. appended.
  - unfold putMessage. unfold_monad.
    repeat (simpl; try break_match); simpl; appended.
  - unfold getLeadList, foundMissedChats. unfold_monad.
    repeat (simpl; try break_match); simpl; appended.
  - destruct (deleteMember_leads u m w) as [_ ->]. appended.
  - unfold putChatBotSettings. unfold_monad.
    repeat (simpl; try break_match); simpl; appended.
Qed.

(** X8. No sequence of requests removes or rewrites a conversation
    turn: the turns stored before are a prefix of the turns stored
    after. *)
Theorem conversations_append_only (ops : list Op) (w : World) :
  exists new, conversations (run_ops ops w) = conversations w ++ new.
Proof.
  revert w. induction ops as [|o ops IH]; intros w; simpl.
  - exists []. now rewrite app_nil_r.
  - destruct (step_appends o w) as [n1 H1].
    destruct (IH (step o w)) as [n2 H2].
    exists (n1 ++ n2). rewrite H2, H1. now rewrite app_assoc.
Qed.

(* ================================================================== *)
(** ** Lead intake *)
(* ================================================================== *)

Lemma postNewLead_cases (c : Clock) (m : option string) (w : World) :
  (falsy m = true -> run (postNewLead c m) w = (Failure BAD_REQUEST, w))
  /\ (falsy m = false ->
      find (fun u => Role_eqb (userRole u) Admin) (users w) = None ->
      run (postNewLead c m) w = (Failure UNAUTHORIZED, w))
  /\ (forall msg admin,
        m = Some msg -> msg <> "" ->
        find (fun u => Role_eqb (userRole u) Admin) (users w) = Some admin ->
        exists t,
          (forall l, In l (leads w) -> ticketID l <> t)
          /\ run (postNewLead c m) w
             = (SuccessLead (next_id w),
                mkWorld (users w)
                  (leads w ++ [fresh_lead (next_id w) t (user_id admin) c])
                  (conversations w
                   ++ [mkConversation (S (next_id w)) (next_id w) msg
                                      SendByLead None])
                  (settings w) (S (S (next_id w))))).
Proof.
  split; [|split].
  - intros Hf. unfold postNewLead. rewrite Hf. reflexivity.
  - intros Hf Ha. unfold postNewLead. rewrite Hf.
    unfold_monad. simpl. rewrite Ha. reflexivity.
  - intros msg admin -> Hmsg Ha.
    destruct (getTicketID_total (leads w) c) as [t [Ht Hfree]].
    exists t. split; [exact Hfree|].
    apply String.eqb_neq in Hmsg.
    unfold postNewLead, falsy. rewrite Hmsg.
    unfold_monad. simpl. rewrite Ha. simpl. rewrite Ht. reflexivity.
Qed.

(** X9. [postNewLead] always answers. Without a message it answers
    BAD_REQUEST, without an Admin UNAUTHORIZED, and writes nothing.
    Otherwise it answers with the identifier of a new lead that is
    stored last, assigned to the first Admin alone, unresolved,
    unanswered and unflagged, under a ticket code no stored lead
    carries, together with the visitor's message as its first turn. *)
Theorem postNewLead_outcome (c : Clock) (m : option string) (w : World) :
  (falsy m = true -> run (postNewLead c m) w = (Failure BAD_REQUEST, w))
  /\ (falsy m = false ->
      find (fun u => Role_eqb (userRole u) Admin) (users w) = None ->
      run (postNewLead c m) w = (Failure UNAUTHORIZED, w))
  /\ (forall msg admin,
        m = Some msg -> msg <> "" ->
        find (fun u => Role_eqb (userRole u) Admin) (users w) = Some admin ->
        exists t,
          (forall l, In l (leads w) -> ticketID l <> t)
          /\ run (postNewLead c m) w
             = (SuccessLead (next_id w),
                mkWorld (users w)
                  (leads w ++ [fresh_lead (next_id w) t (user_id admin) c])
                  (conversations w
                   ++ [mkConversation (S (next_id w)) (next_id w) msg
                                      SendByLead None])
                  (settings w) (S (S (next_id w))))).
Proof. exact (postNewLead_cases c m w). Qed.

Lemma postNewLead_outcome_witness :
  exists t,
    (forall l, In l (leads flagged_world) -> ticketID l <> t)
    /\ run (postNewLead later_clock (Some "hello")) flagged_world
       = (SuccessLead 3,
          mkWorld (users flagged_world)
            (leads flagged_world ++ [fresh_lead 3 t 0 later_clock])
            (conversations flagged_world
             ++ [mkConversation 4 3 "hello" SendByLead None])
            (settings flagged_world) 5).
Proof.
  destruct (postNewLead_outcome later_clock (Some "hello") flagged_world)
    as [_ [_ H]].
  apply (H "hello" (mkUser 0 "admin@hubly.test" Admin None));
    [reflexivity | discriminate | reflexivity].
Defined.

(* ================================================================== *)
(** ** Requests of a user who is gone *)
(* ================================================================== *)

Lemma unknown_requester_runs (uid : id) (w : World) :
  find (fun x => user_id x =? uid) (users w) = None ->
  (forall i st,
     run (putStatusUpdate uid (Some i) (Some st)) w
     = (Failure LOGOUT_REQESTED, w))
  /\ (forall c i m, m <> "" ->
        run (putMessage c uid (Some i) (Some m)) w
        = (Failure LOGOUT_REQESTED, w))
  /\ (forall i a,
        run (putLeadAssignee uid (Some i) (Some a)) w
        = (Failure LOGOUT_REQESTED, w))
  /\ (forall c,
        run (getLeadList c uid) w
        = (Failure LOGOUT_REQESTED, sweepMissedChats c w)).
Proof.
  intros Hu. repeat split.
  - intros i st. unfold putStatusUpdate. unfold_monad. simpl.
    rewrite Hu. simpl.
    destruct (find _ (leads w)) as [l|]; simpl; [|reflexivity].
    unfold not_current_assignee. destruct (currentAssignee l); reflexivity.
  - intros c i m Hm. apply String.eqb_neq in Hm.
    unfold putMessage, falsy. rewrite Hm. unfold_monad. simpl.
    rewrite Hu. simpl.
    destruct (find _ (leads w)) as [l|]; simpl; [|reflexivity].
    unfold not_current_assignee. destruct (currentAssignee l); reflexivity.
  - intros i a. unfold putLeadAssignee. unfold_monad. simpl.
    rewrite Hu. simpl.
    destruct (find (fun x => Role_eqb (userRole x) Admin) (users w));
      reflexivity.
  - intros c. rewrite sweepMissedChats_unfold.
    unfold getLeadList, foundMissedChats. unfold_monad. simpl.
    rewrite Hu. simpl.
    destruct (hd_error (settings w)) as [s|]; simpl; [|reflexivity].
    destruct (0 <? missedTimerMs s)%Z; reflexivity.
Qed.

(** X10. When the requesting user is not stored, a status update, a
    staff message and a reassignment are answered LOGOUT_REQESTED and
    write nothing. The ticket list is answered LOGOUT_REQESTED as well,
    yet the missed-chat sweep it starts with still runs. *)
Theorem unknown_requester (uid : id) (w : World) :
  find (fun x => user_id x =? uid) (users w) = None ->
  (forall i st,
     run (putStatusUpdate uid (Some i) (Some st)) w
     = (Failure LOGOUT_REQESTED, w))
  /\ (forall c i m, m <> "" ->
        run (putMessage c uid (Some i) (Some m)) w
        = (Failure LOGOUT_REQESTED, w))
  /\ (forall i a,
        run (putLeadAssignee uid (Some i) (Some a)) w
        = (Failure LOGOUT_REQESTED, w))
  /\ (forall c,
        run (getLeadList c uid) w
        = (Failure LOGOUT_REQESTED, sweepMissedChats c w)).
Proof. exact (unknown_requester_runs uid w). Qed.

Lemma unknown_requester_witness :
  run (getLeadList later_clock 7) sweep_world
  = (Failure LOGOUT_REQESTED, sweepMissedChats later_clock sweep_world)
  /\ flagged (sweepMissedChats later_clock sweep_world) = [1]
  /\ flagged sweep_world = [].
Proof.
  destruct (unknown_requester 7 sweep_world) as [_ [_ [_ H]]];
    [reflexivity|].
  split; [apply H|]. split; reflexivity.
Defined.

(* ================================================================== *)
(** ** A timer at zero switches the detection off *)
(* ================================================================== *)

Lemma flagged_keys (ls ls' : list LeadDoc) :
  map flag_key ls' = map flag_key ls ->
  map lead_id (filter isMissedChat ls') = map lead_id (filter isMissedChat ls).
Proof.
  revert ls'. induction ls as [|l ls IH]; intros [|l' ls'] H;
    simpl in *; try discriminate; [reflexivity|].
  injection H as Hid Hf Hrest.
  rewrite Hf. destruct (isMissedChat l); simpl; [f_equal; auto | auto].
Qed.

Lemma replace_lead_keys (i : id) (l l' : LeadDoc) (ls : list LeadDoc) :
  find (fun x => lead_id x =? i) ls = Some l ->
  lead_id l' = i ->
  flag_key l' = flag_key l ->
  map flag_key (replace_lead l' ls) = map flag_key ls.
Proof.
  intros Hfind Hid Hk. induction ls as [|x ls IH]; simpl in *;
    [reflexivity|].
  rewrite Hid. destruct (lead_id x =? i) eqn:E; simpl.
  - injection Hfind as ->. now rewrite Hk.
  - f_equal. auto.
Qed.

Lemma answered_off_key (c : Clock) (s : SettingsDoc) (l : LeadDoc) :
  (thresholdSeconds s <= 0)%Z -> flag_key (answered c s l) = flag_key l.
Proof.
  intros H. unfold flag_key, answered. simpl.
  assert (E : (0 <? missedTimerMs s)%Z = false).
  { apply Z.ltb_ge. rewrite missedTimerMs_seconds. lia. }
  rewrite E. simpl. now rewrite orb_false_r.
Qed.

Lemma step_off (o : Op) (w : World) (s : SettingsDoc) :
  hd_error (settings w) = Some s ->
  (thresholdSeconds s <= 0)%Z ->
  settings_untouched o ->
  settings (step o w) = settings w
  /\ flagged (step o w) = flagged w.
Proof.
  intros Hs Hoff Hun.
  assert (E : (0 <? missedTimerMs s)%Z = false).
  { apply Z.ltb_ge. rewrite missedTimerMs_seconds. lia. }
  unfold step, flagged.
  destruct o as [c m|i n e p|i m|u i st|u i a|c u i m|c u|u m|b];
    cbn [handler_of]; [| | | | | | | |destruct Hun].
  - destruct (falsy m) eqn:Hf.
    + destruct (postNewLead_cases c m w) as [H _]. rewrite (H Hf). auto.
    + destruct (find (fun u => Role_eqb (userRole u) Admin) (users w))
        as [admin|] eqn:Ha.
      * destruct m as [msg|]; [|discriminate].
        destruct (postNewLead_cases c (Some msg) w) as [_ [_ H]].
        destruct (H msg admin eq_refl) as [t [_ Hr]]; auto.
        { intros ->. discriminate. }
        rewrite Hr. simpl. split; [reflexivity|].
        rewrite filter_app. simpl. now rewrite app_nil_r.
      * destruct (postNewLead_cases c m w) as [_ [H _]].
        rewrite (H Hf Ha). auto.
  - unfold postLeadForm. unfold_monad.
    repeat (simpl; try break_match); simpl; (split; [reflexivity|]);
      try reflexivity;
      apply flagged_keys;
      (eapply replace_lead_keys;
       [ eassumption | simpl; eapply find_lead_id; eassumption
       | reflexivity ]).
  - unfold putLeadMessage. unfold_monad.
    repeat (simpl; try break_match); simpl; split; reflexivity.
  - unfold putStatusUpdate. unfold_monad.
    repeat (simpl; try break_match); simpl; (split; [reflexivity|]);
      try reflexivity;
      apply flagged_keys;
      (eapply replace_lead_keys;
       [ eassumption | simpl; eapply find_lead_id; eassumption
       | reflexivity ]).
  - destruct (putLeadAssignee_never_saves u i a w) as [-> _]. auto.
  - destruct i as [i|]; [|split; reflexivity].
    destruct m as [m|]; [|split; reflexivity].
    destruct (String.eqb m "") eqn:Hm.
    { unfold putMessage, falsy. rewrite Hm. split; reflexivity. }
    apply String.eqb_neq in Hm.
    destruct (find (fun x => user_id x =? u) (users w)) as [usr|] eqn:Hu.
    + destruct (find (fun x => lead_id x =? i) (leads w)) as [l|] eqn:Hl.
      * destruct (currentAssignee l) as [a|] eqn:Ha.
        -- destruct (Nat.eq_dec a u) as [->|Hne].
           ++ rewrite (putMessage_run c u i m w usr l s); auto.
              simpl. split; [reflexivity|].
              apply flagged_keys. eapply replace_lead_keys; eauto.
              ** unfold answered. simpl. eapply find_lead_id; eauto.
              ** now apply answered_off_key.
           ++ rewrite (putMessage_refused c u i a m w usr l); auto.
        -- apply String.eqb_neq in Hm.
           unfold putMessage, falsy. rewrite Hm. unfold_monad. simpl.
           rewrite Hu. simpl. rewrite Hl. simpl.
           unfold not_current_assignee. rewrite Ha. split; reflexivity.
      * apply String.eqb_neq in Hm.
        unfold putMessage, falsy. rewrite Hm. unfold_monad. simpl.
        rewrite Hu. simpl. rewrite Hl. split; reflexivity.
    + destruct (unknown_requester_runs u w Hu) as [_ [H _]].
      rewrite (H c i m Hm). auto.
  - unfold getLeadList, foundMissedChats. unfold_monad. simpl.
    destruct (find _ (users w)); simpl; rewrite Hs; simpl; rewrite E;
      split; reflexivity.
  - destruct (deleteMember_leads u m w) as [Hl _]. rewrite Hl.
    split; [|reflexivity].
    unfold deleteMember, User_deleteOne, document_deleteOne.
    rewrite user_middleware_empty. unfold_monad.
    repeat (simpl; try break_match); simpl; reflexivity.
Qed.

(** X11. While the first settings document has a threshold of zero (or
    less), no sequence of requests that leaves the settings alone
    flags a lead: neither a late staff message nor the sweep of the
    ticket list does. *)
Theorem timer_off_never_flags (ops : list Op) (w : World) (s : SettingsDoc) :
  hd_error (settings w) = Some s ->
  (thresholdSeconds s <= 0)%Z ->
  Forall settings_untouched ops ->
  flagged (run_ops ops w) = flagged w.
Proof.
  intros Hs Hoff Hun. revert w Hs.
  induction Hun as [|o ops Ho _ IH]; intros w Hs; simpl; [reflexivity|].
  destruct (step_off o w s Hs Hoff Ho) as [Hset Hflag].
  rewrite IH; [exact Hflag | now rewrite Hset].
Qed.

Lemma timer_off_never_flags_witness :
  flagged (run_ops unflagging_ops timer_off_world) = flagged timer_off_world.
Proof.
  apply (timer_off_never_flags unflagging_ops timer_off_world
           (mkSettings "#33475B" "#EEEEEE" []
              (mkPlaceholder None None None None) None
              (mkTimer (Some 0%Z) (Some 0%Z) (Some 0%Z)))).
  - reflexivity.
  - vm_compute. discriminate.
  - repeat constructor.
Defined.

(* ================================================================== *)
(** ** The settings document *)
(* ================================================================== *)

(** X12. On an empty settings collection a complete settings update is
    lost: the handler stores the defaults instead and answers
    EXPECTATION_FAILED; the same request sent again succeeds and stores
    the values of the body. *)
Theorem putChatBotSettings_on_empty (body : SettingsBody) (w : World) :
  settings w = [] ->
  body_complete body = true ->
  run (putChatBotSettings body) w
  = (Failure EXPECTATION_FAILED, set_settings [defaultSettings] w)
  /\ fst (run (putChatBotSettings body) (set_settings [defaultSettings] w))
     = Success
  /\ option_map Some
       (foundSettings
          (snd (run (putChatBotSettings body)
                    (set_settings [defaultSettings] w))))
     = Some (stored_settings body).
Proof.
  intros Hs Hok.
  destruct (putChatBotSettings_run body w) as [_ H].
  destruct (H Hok) as [doc [Hdoc Hr]]. rewrite Hs in Hr.
  destruct (putChatBotSettings_run body (set_settings [defaultSettings] w))
    as [_ H'].
  destruct (H' Hok) as [doc' [Hdoc' Hr']]. simpl in Hr'.
  rewrite Hr, Hr', Hdoc'. repeat split.
Qed.

Lemma putChatBotSettings_on_empty_witness :
  run (putChatBotSettings sample_body) unbooted_world
  = (Failure EXPECTATION_FAILED,
     set_settings [defaultSettings] unbooted_world)
  /\ fst (run (putChatBotSettings sample_body)
              (set_settings [defaultSettings] unbooted_world))
     = Success
  /\ option_map Some
       (foundSettings
          (snd (run (putChatBotSettings sample_body)
                    (set_settings [defaultSettings] unbooted_world))))
     = Some (stored_settings sample_body).
Proof.
  apply (putChatBotSettings_on_empty sample_body unbooted_world);
    reflexivity.
Defined.

(** X13. A settings update whose body lacks a field, or has an empty
    colour or welcome message, is refused with CONFLICT and stores
    nothing. A complete body sent while a settings document exists
    succeeds; what [getBotSettings] then sends back has the colours,
    messages and timer of the body, and any further settings document
    is left as it was. *)
Theorem putChatBotSettings_stores_body (body : SettingsBody) (w : World) :
  (body_complete body = false ->
   run (putChatBotSettings body) w = (Failure CONFLICT, w))
  /\ (body_complete body = true ->
      settings w <> [] ->
      fst (run (putChatBotSettings body) w) = Success
      /\ exists doc,
           foundSettings (snd (run (putChatBotSettings body) w)) = Some doc
           /\ Some (headerColor doc) = b_headerColor body
           /\ Some (backgroundColor doc) = b_backgroundColor body
           /\ Some (customizedMessages doc) = b_customizedMessages body
           /\ Some (missedChatTimer doc) = b_missedChatTimer body
           /\ tl (settings (snd (run (putChatBotSettings body) w)))
              = tl (settings w)).
Proof.
  destruct (putChatBotSettings_run body w) as [Hbad Hgood].
  split; [exact Hbad|].
  intros Hok Hs. destruct (Hgood Hok) as [doc [Hdoc Hr]].
  destruct (settings w) as [|s0 rest] eqn:E; [contradiction|].
  rewrite Hr. split; [reflexivity|].
  exists doc. split; [reflexivity|].
  unfold stored_settings in Hdoc.
  destruct (b_headerColor body), (b_backgroundColor body),
    (b_customizedMessages body), (b_formPlaceholder body),
    (b_missedChatTimer body); try discriminate.
  injection Hdoc as <-. simpl. repeat split.
Qed.

Lemma putChatBotSettings_stores_body_witness :
  run (putChatBotSettings incomplete_body) scenario_world
  = (Failure CONFLICT, scenario_world)
  /\ fst (run (putChatBotSettings sample_body) scenario_world) = Success
  /\ exists doc,
       foundSettings (snd (run (putChatBotSettings sample_body)
                               scenario_world)) = Some doc
       /\ Some (headerColor doc) = b_headerColor sample_body
       /\ Some (backgroundColor doc) = b_backgroundColor sample_body
       /\ Some (customizedMessages doc) = b_customizedMessages sample_body
       /\ Some (missedChatTimer doc) = b_missedChatTimer sample_body
       /\ tl (settings (snd (run (putChatBotSettings sample_body)
                                 scenario_world)))
          = tl (settings scenario_world).
Proof.
  split.
  - destruct (putChatBotSettings_stores_body incomplete_body scenario_world)
      as [H _].
    apply H. reflexivity.
  - destruct (putChatBotSettings_stores_body sample_body scenario_world)
      as [_ H].
    apply H; [reflexivity | discriminate].
Defined.

Lemma getBotSettings_run (w : World) :
  run getBotSettings w
  = match settings w with
    | [] => (Failure EXPECTATION_FAILED, set_settings [defaultSettings] w)
    | _ :: _ => (Success, w)
    end.
Proof.
  unfold getBotSettings. unfold_monad. simpl.
  destruct (settings w) as [|s rest] eqn:E; simpl; [|reflexivity].
  unfold set_settings. rewrite E. reflexivity.
Qed.

Lemma connectDB_run (w : World) :
  snd (run connectDB w)
  = match settings w with
    | [] => set_settings [defaultSettings] w
    | _ :: _ => w
    end.
Proof.
  unfold connectDB. unfold_monad. simpl.
  destruct (settings w) as [|s rest] eqn:E; simpl; [|reflexivity].
  unfold set_settings. rewrite E. reflexivity.
Qed.

(** X14. Reading the settings from an empty collection fails with
    EXPECTATION_FAILED and stores the defaults; the next read succeeds,
    writes nothing and sends the defaults, whose missed-chat threshold
    is one hour. *)
Theorem getBotSettings_seeds_defaults (w : World) :
  settings w = [] ->
  run getBotSettings w
  = (Failure EXPECTATION_FAILED, set_settings [defaultSettings] w)
  /\ run getBotSettings (set_settings [defaultSettings] w)
     = (Success, set_settings [defaultSettings] w)
  /\ foundSettings (set_settings [defaultSettings] w) = Some defaultSettings
  /\ thresholdSeconds defaultSettings = 3600%Z.
Proof.
  intros Hs. rewrite !getBotSettings_run, Hs. repeat split.
Qed.

Lemma getBotSettings_seeds_defaults_witness :
  run getBotSettings unbooted_world
  = (Failure EXPECTATION_FAILED,
     set_settings [defaultSettings] unbooted_world)
  /\ run getBotSettings (set_settings [defaultSettings] unbooted_world)
     = (Success, set_settings [defaultSettings] unbooted_world)
  /\ foundSettings (set_settings [defaultSettings] unbooted_world)
     = Some defaultSettings
  /\ thresholdSeconds defaultSettings = 3600%Z.
Proof.
  apply (getBotSettings_seeds_defaults unbooted_world). reflexivity.
Defined.

Lemma step_settings_one (o : Op) (w : World) :
  List.length (settings w) = 1 -> List.length (settings (step o w)) = 1.
Proof.
  intros H. unfold step.
  destruct o as [c m|i n e p|i m|u i st|u i a|c u i m|c u|u m|b];
    cbn [handler_of].
  - unfold postNewLead. unfold_monad.
    repeat (simpl; try break_match); simpl; assumption.
  - unfold postLeadForm. unfold_monad.
    repeat (simpl; try break_match); simpl; assumption.
  - unfold putLeadMessage. unfold_monad.
    repeat (simpl; try break_match); simpl; assumption.
  - unfold putStatusUpdate. unfold_monad.
    repeat (simpl; try break_match); simpl; assumption.
  - destruct (putLeadAssignee_never_saves u i a w) as [-> _]. assumption.
  - unfold putMessage. unfold_monad.
    repeat (simpl; try break_match); simpl; assumption.
  - unfold getLeadList, foundMissedChats. unfold_monad.
    repeat (simpl; try break_match); simpl; assumption.
  - unfold deleteMember, User_deleteOne, document_deleteOne.
    rewrite user_middleware_empty. unfold_monad.
    repeat (simpl; try break_match); simpl; assumption.
  - destruct (body_complete b) eqn:Hb.
    + destruct (putChatBotSettings_run b w) as [_ Hr].
      destruct (Hr Hb) as [doc [_ ->]].
      destruct (settings w) as [|s0 [|s1 rest]]; simpl in *;
        try discriminate; reflexivity.
    + destruct (putChatBotSettings_run b w) as [Hr _].
      rewrite (Hr Hb). assumption.
Qed.

Lemma serve_settings_one (r : Request) (w : World) :
  List.length (settings w) = 1 -> List.length (settings (serve r w)) = 1.
Proof.
  intros H. destruct r as [o| |]; cbn [serve].
  - now apply step_settings_one.
  - rewrite getBotSettings_run.
    destruct (settings w) eqn:E; [discriminate | simpl; now rewrite E].
  - rewrite connectDB_run.
    destruct (settings w) eqn:E; [discriminate | now rewrite E].
Qed.

(** X15. The settings are a singleton. Booting a store that holds no
    settings document, or one, leaves exactly one, and from then on
    every sequence of requests leaves exactly one: nothing deletes it
    and nothing adds a second. *)
Theorem settings_singleton (rs : list Request) (w : World) :
  List.length (settings w) <= 1 ->
  List.length (settings (serve_all (Boot :: rs) w)) = 1.
Proof.
  intros H. unfold serve_all. cbn [fold_left serve].
  assert (H1 : List.length (settings (snd (run connectDB w))) = 1).
  { rewrite connectDB_run.
    destruct (settings w) as [|s [|s' rest]] eqn:E; simpl in *;
      [reflexivity | now rewrite E | lia]. }
  revert H1. generalize (snd (run connectDB w)). clear H w.
  induction rs as [|r rs IH]; intros w H; cbn [fold_left]; [exact H|].
  apply IH. now apply serve_settings_one.
Qed.

Lemma settings_singleton_witness :
  List.length (settings (serve_all (Boot :: settings_requests) unbooted_world))
  = 1.
Proof.
  apply (settings_singleton settings_requests unbooted_world).
  simpl. lia.
Defined.

(* ================================================================== *)
(** ** Threads *)
(* ================================================================== *)

Lemma thread_fresh (w : World) (i : id) :
  Forall (fun c => leadID c < next_id w) (conversations w) ->
  next_id w <= i ->
  thread i w = [].
Proof.
  unfold thread. intros H Hi.
  induction (conversations w) as [|c cs IH]; [reflexivity|].
  inversion H; subst. simpl.
  destruct (leadID c =? i) eqn:E; [apply Nat.eqb_eq in E; lia | auto].
Qed.

Lemma find_lead_snoc (ls : list LeadDoc) (l : LeadDoc) (i : id) :
  Forall (fun x => lead_id x < i) ls ->
  lead_id l = i ->
  find (fun x => lead_id x =? i) (ls ++ [l]) = Some l.
Proof.
  intros H Hl. induction ls as [|x ls IH]; simpl.
  - now rewrite Hl, Nat.eqb_refl.
  - inversion H; subst.
    destruct (lead_id x =? lead_id l) eqn:E;
      [apply Nat.eqb_eq in E; lia | auto].
Qed.

Lemma putLeadMessage_run (i : id) (m : string) (w : World) (l : LeadDoc) :
  m <> "" ->
  find (fun x => lead_id x =? i) (leads w) = Some l ->
  run (putLeadMessage (Some i) (Some m)) w
  = (Success,
     mkWorld (users w) (leads w)
       (conversations w ++ [mkConversation (next_id w) i m SendByLead None])
       (settings w) (S (next_id w))).
Proof.
  intros Hm Hl. pose proof (find_lead_id _ _ _ Hl) as Hid.
  apply String.eqb_neq in Hm.
  unfold putLeadMessage, falsy. rewrite Hm. unfold_monad. simpl.
  rewrite Hl. simpl. rewrite Hid. reflexivity.
Qed.

(** X16. What a visitor posts is what the thread shows. In a store
    with an Admin, a new lead's thread holds its first message and
    nothing else; a message posted to that lead afterwards comes last
    in its thread and is the latest message of its ticket, and the
    thread of every other lead is as it was. *)
Theorem visitor_thread_round_trip
    (c : Clock) (msg m2 : string) (w : World) (admin : UserDoc) :
  ids_fresh w ->
  find (fun u => Role_eqb (userRole u) Admin) (users w) = Some admin ->
  msg <> "" -> m2 <> "" ->
  let i := next_id w in
  let w1 := snd (run (postNewLead c (Some msg)) w) in
  let w2 := snd (run (putLeadMessage (Some i) (Some m2)) w1) in
  fst (run (postNewLead c (Some msg)) w) = SuccessLead i
  /\ conversation_view i w1 = [(S i, msg, SendByLead)]
  /\ latestMessage i w1 = msg
  /\ fst (run (putLeadMessage (Some i) (Some m2)) w1) = Success
  /\ conversation_view i w2
     = [(S i, msg, SendByLead); (S (S i), m2, SendByLead)]
  /\ latestMessage i w2 = m2
  /\ (forall j, j <> i -> conversation_view j w2 = conversation_view j w).
Proof.
  intros [Hleads Hconvs] Ha Hmsg Hm2 i w1 w2. subst i w1 w2.
  destruct (postNewLead_cases c (Some msg) w) as [_ [_ H]].
  destruct (H msg admin eq_refl Hmsg Ha) as [t [_ Hr]].
  rewrite Hr. cbn [fst snd].
  set (w1 := mkWorld _ _ _ _ _).
  assert (Hfind : find (fun x => lead_id x =? next_id w) (leads w1)
                  = Some (fresh_lead (next_id w) t (user_id admin) c)).
  { subst w1. cbn [leads]. apply find_lead_snoc; auto. }
  rewrite (putLeadMessage_run (next_id w) m2 w1 _ Hm2 Hfind).
  cbn [fst snd].
  assert (Hth : thread (next_id w) w = []) by (apply thread_fresh; auto).
  unfold conversation_view, latestMessage, thread in *. subst w1.
  cbn [conversations next_id]. rewrite !filter_app, Hth. simpl.
  rewrite !Nat.eqb_refl. simpl.
  repeat split.
  intros j Hj. apply Nat.eqb_neq in Hj.
  rewrite Nat.eqb_sym in Hj.
  rewrite <- app_assoc, filter_app. simpl. rewrite Hj. simpl.
  now rewrite app_nil_r.
Qed.

Lemma visitor_thread_round_trip_witness :
  let i := next_id flagged_world in
  let w1 := snd (run (postNewLead later_clock (Some "hello")) flagged_world) in
  let w2 := snd (run (putLeadMessage (Some i) (Some "anyone?")) w1) in
  fst (run (postNewLead later_clock (Some "hello")) flagged_world)
  = SuccessLead i
  /\ conversation_view i w1 = [(S i, "hello", SendByLead)]
  /\ latestMessage i w1 = "hello"
  /\ fst (run (putLeadMessage (Some i) (Some "anyone?")) w1) = Success
  /\ conversation_view i w2
     = [(S i, "hello", SendByLead); (S (S i), "anyone?", SendByLead)]
  /\ latestMessage i w2 = "anyone?"
  /\ (forall j, j <> i ->
        conversation_view j w2 = conversation_view j flagged_world).
Proof.
  apply (visitor_thread_round_trip later_clock "hello" "anyone?"
           flagged_world (mkUser 0 "admin@hubly.test" Admin None)).
  - split; repeat constructor.
  - reflexivity.
  - discriminate.
  - discriminate.
Defined.

(* ================================================================== *)
(** ** Pages of the ticket list *)
(* ================================================================== *)

Section Pages.

Lemma insert_desc_perm (l : LeadDoc) (s : list LeadDoc) :
  Permutation (insert_desc l s) (l :: s).
Proof.
  induction s as [|x s IH]; simpl; [reflexivity|].
  destruct (createdAt x <=? createdAt l)%Z; [reflexivity|].
  rewrite IH. apply perm_swap.
Qed.

Lemma sort_perm (ls : list LeadDoc) :
  Permutation (sort_createdAt_desc ls) ls.
Proof.
  induction ls as [|l ls IH]; simpl; [reflexivity|].
  rewrite insert_desc_perm. now constructor.
Qed.

Lemma insert_desc_sorted (l : LeadDoc) (s : list LeadDoc) :
  StronglySorted not_newer s -> StronglySorted not_newer (insert_desc l s).
Proof.
  induction s as [|x s IH]; simpl; intros H.
  - repeat constructor.
  - inversion H as [|? ? Hs Hx]; subst.
    destruct (createdAt x <=? createdAt l)%Z eqn:E.
    + apply Z.leb_le in E. constructor; [exact H|].
      constructor; [exact E|].
      eapply Forall_impl; [|exact Hx]. unfold not_newer. intros y Hy. lia.
    + apply Z.leb_gt in E. constructor; [auto|].
      apply (Permutation_Forall (Permutation_sym (insert_desc_perm l s))).
      constructor; [unfold not_newer; lia | exact Hx].
Qed.

Lemma sort_sorted (ls : list LeadDoc) :
  StronglySorted not_newer (sort_createdAt_desc ls).
Proof.
  induction ls as [|l ls IH]; simpl; [constructor|].
  now apply insert_desc_sorted.
Qed.

Variable A : Type.

Lemma firstn_plus (a b : nat) (l : list A) :
  firstn (a + b) l = firstn a l ++ firstn b (skipn a l).
Proof.
  revert l. induction a as [|a IH]; intros l; simpl; [reflexivity|].
  destruct l as [|x l]; simpl.
  - now rewrite firstn_nil.
  - f_equal. apply IH.
Qed.

Lemma chunks_concat (limit k : nat) (l : list A) :
  List.concat (map (fun page => firstn limit (skipn ((page - 1) * limit) l))
              (seq 1 k))
  = firstn (k * limit) l.
Proof.
  induction k as [|k IH]; [reflexivity|].
  rewrite seq_S, map_app, concat_app, IH. simpl.
  rewrite app_nil_r, Nat.sub_0_r.
  rewrite (Nat.add_comm limit (k * limit)). symmetry. apply firstn_plus.
Qed.

Lemma totalPages_cover (n limit : nat) :
  1 <= limit -> n <= totalPages n limit * limit.
Proof.
  intros H. unfold totalPages.
  pose proof (Nat.div_mod (n + limit - 1) limit ltac:(lia)) as Hd.
  pose proof (Nat.mod_upper_bound (n + limit - 1) limit ltac:(lia)) as Hm.
  nia.
Qed.

End Pages.

Lemma NoDup_map_In_inj {A B : Type} (f : A -> B) (l : list A) (x y : A) :
  NoDup (map f l) -> In x l -> In y l -> f x = f y -> x = y.
Proof.
  induction l as [|a l IH]; simpl; intros Hnd Hx Hy Hf; [destruct Hx|].
  inversion Hnd as [|? ? Hnotin Hrest]; subst.
  destruct Hx as [->|Hx], Hy as [->|Hy]; auto.
  - exfalso. apply Hnotin. rewrite Hf. now apply in_map.
  - exfalso. apply Hnotin. rewrite <- Hf. now apply in_map.
Qed.

(** Leads of distinct instants have one newest-first order. *)
Lemma newest_first_unique (l1 : list LeadDoc) :
  forall l2,
    NoDup (map createdAt l1) ->
    Permutation l1 l2 ->
    StronglySorted not_newer l1 ->
    StronglySorted not_newer l2 ->
    l1 = l2.
Proof.
  induction l1 as [|x l1 IH]; intros l2 Hnd Hp H1 H2.
  - apply Permutation_nil in Hp. now subst.
  - destruct l2 as [|y l2];
      [apply Permutation_sym, Permutation_nil in Hp; discriminate|].
    inversion H1 as [|? ? Hs1 Hf1]; subst.
    inversion H2 as [|? ? Hs2 Hf2]; subst.
    assert (Hxy : x = y).
    { assert (Hx : In x (y :: l2))
        by (eapply Permutation_in; [exact Hp | now left]).
      assert (Hy : In y (x :: l1))
        by (eapply Permutation_in;
            [apply Permutation_sym; exact Hp | now left]).
      apply (NoDup_map_In_inj createdAt (x :: l1)); auto; [now left|].
      rewrite Forall_forall in Hf1, Hf2. unfold not_newer in *.
      destruct Hx as [->|Hx]; [reflexivity|].
      destruct Hy as [->|Hy]; [reflexivity|].
      specialize (Hf1 y Hy). specialize (Hf2 x Hx). lia. }
    subst y. f_equal.
    apply IH; auto.
    + simpl in Hnd. now inversion Hnd.
    + eapply Permutation_cons_inv; exact Hp.
Qed.

(** X17. With a positive page size and matching leads of distinct
    creation instants, the pages 1 .. [totalPages] of the ticket list,
    read one after the other, show every lead that matches the status
    filter exactly once, newest first; this is the one newest-first
    order those leads have, so it does not depend on how a query
    orders leads of one instant. No page holds more than [limit]
    tickets, and every page after [totalPages] is empty. *)
Theorem ticket_pages_partition
    (limit : nat) (st : option Status) (ls : list LeadDoc) :
  1 <= limit ->
  NoDup (map createdAt (filter (matches_status st) ls)) ->
  Permutation (List.concat (all_pages limit st ls))
              (filter (matches_status st) ls)
  /\ StronglySorted not_newer (List.concat (all_pages limit st ls))
  /\ (forall sorted,
        Permutation sorted (filter (matches_status st) ls) ->
        StronglySorted not_newer sorted ->
        List.concat (all_pages limit st ls) = sorted)
  /\ (forall page, List.length (ticket_page page limit st ls) <= limit)
  /\ (forall page,
        totalPages (List.length (filter (matches_status st) ls)) limit < page ->
        ticket_page page limit st ls = []).
Proof.
  intros Hlimit Hdistinct.
  set (matching := filter (matches_status st) ls) in *.
  assert (Hlen : List.length (sort_createdAt_desc matching)
                 = List.length matching)
    by (apply Permutation_length, sort_perm).
  assert (Hall : List.concat (all_pages limit st ls)
                 = sort_createdAt_desc matching).
  { unfold all_pages, ticket_page. fold matching.
    rewrite (chunks_concat LeadDoc limit).
    apply firstn_all2. rewrite Hlen. now apply totalPages_cover. }
  rewrite Hall. split; [apply sort_perm|]. split; [apply sort_sorted|].
  split; [|split].
  - intros sorted Hp Hs. apply newest_first_unique.
    + eapply Permutation_NoDup; [|exact Hdistinct].
      apply Permutation_map, Permutation_sym, sort_perm.
    + rewrite sort_perm. now apply Permutation_sym.
    + apply sort_sorted.
    + exact Hs.
  - intros page. unfold ticket_page. apply firstn_le_length.
  - intros page Hpage. unfold ticket_page. fold matching.
    rewrite skipn_all2; [now rewrite firstn_nil|].
    rewrite Hlen.
    pose proof (totalPages_cover (List.length matching) limit Hlimit).
    nia.
Qed.

Lemma ticket_pages_partition_witness :
  Permutation (List.concat (all_pages 2 None three_leads))
              (filter (matches_status None) three_leads)
  /\ StronglySorted not_newer (List.concat (all_pages 2 None three_leads))
  /\ (forall sorted,
        Permutation sorted (filter (matches_status None) three_leads) ->
        StronglySorted not_newer sorted ->
        List.concat (all_pages 2 None three_leads) = sorted)
  /\ (forall page, List.length (ticket_page page 2 None three_leads) <= 2)
  /\ (forall page,
        totalPages (List.length (filter (matches_status None) three_leads)) 2
        < page ->
        ticket_page page 2 None three_leads = []).
Proof.
  apply (ticket_pages_partition 2 None three_leads); [lia|].
  simpl. repeat constructor; simpl; intuition discriminate.
Defined.

Example ticket_pages_newest_first :
  map (map lead_id) (all_pages 2 None three_leads) = [[3; 2]; [1]]
  /\ map (map lead_id) (all_pages 2 (Some Unresolved) three_leads)
     = [[3; 2]].
Proof. split; reflexivity. Qed.

(* ================================================================== *)
(** ** Analytics: bounds and the weekly graph *)
(* ================================================================== *)

Lemma Math_round_div (a b : Z) :
  (0 < b)%Z ->
  Math_round (inject_Z a / inject_Z b)%Q = ((2 * a + b) / (2 * b))%Z.
Proof.
  intros Hb. unfold Math_round.
  assert (E : (inject_Z a / inject_Z b + (1 # 2)
               == (2 * a + b) # Z.to_pos (2 * b))%Q).
  { destruct b as [|p|p]; try lia.
    change (Z.to_pos (2 * Z.pos p)) with (p~0)%positive.
    unfold Qeq, Qdiv, Qplus, Qmult, Qinv, inject_Z.
    cbn [Qnum Qden].
    rewrite ?Pos.mul_1_l, ?Pos2Z.inj_mul.
    change (Z.pos p~0) with (2 * Z.pos p)%Z. ring. }
  rewrite (Qfloor_comp _ _ E). unfold Qfloor.
  rewrite Z2Pos.id by lia. reflexivity.
Qed.

Lemma replied_sum_bounds (lo hi : Z) (ts : list Z) :
  Forall (fun t => lo <= t <= hi)%Z ts ->
  (lo * Z.of_nat (List.length ts) <= fold_right Z.add 0 ts
   <= hi * Z.of_nat (List.length ts))%Z.
Proof.
  induction 1 as [|t ts Ht _ IH]; simpl List.length; simpl fold_right; lia.
Qed.

(** X18. When at least one lead was answered, the average response
    time lies between the smallest and the largest response time of
    the answered leads. *)
Theorem averateResponseTime_between (lo hi : Z) (ls : list LeadDoc) :
  (forall l, In l ls -> responseTime l <> 0%Z ->
             (lo <= responseTime l <= hi)%Z) ->
  (exists l, In l ls /\ responseTime l <> 0%Z) ->
  (lo <= averateResponseTime ls <= hi)%Z.
Proof.
  intros Hall [l0 [Hin0 Hne0]].
  assert (Hts : Forall (fun t => lo <= t <= hi)%Z (replied_times ls)).
  { apply Forall_forall. intros t Ht. unfold replied_times in Ht.
    apply filter_In in Ht. destruct Ht as [Ht Hnz].
    apply in_map_iff in Ht. destruct Ht as [l [<- Hl]].
    apply Hall; [exact Hl|].
    apply negb_true_iff, Z.eqb_neq in Hnz. exact Hnz. }
  assert (Hpos : (0 < Z.of_nat (List.length (replied_times ls)))%Z).
  { assert (In (responseTime l0) (replied_times ls)).
    { unfold replied_times. apply filter_In. split.
      - now apply in_map.
      - apply negb_true_iff, Z.eqb_neq. exact Hne0. }
    destruct (replied_times ls); [contradiction | simpl List.length; lia]. }
  pose proof (replied_sum_bounds lo hi _ Hts) as Hsum.
  unfold averateResponseTime. rewrite responseData_sum_count.
  cbn [fst snd].
  apply Z.ltb_lt in Hpos as Hpos'. rewrite Hpos'.
  rewrite Math_round_div by exact Hpos.
  set (n := Z.of_nat (List.length (replied_times ls))) in *.
  set (s := fold_right Z.add 0%Z (replied_times ls)) in *.
  split.
  - apply Z.div_le_lower_bound; lia.
  - apply Z.lt_succ_r. apply Z.div_lt_upper_bound; lia.
Qed.

Lemma averateResponseTime_between_witness :
  (601 <= averateResponseTime answered_leads <= 1800)%Z.
Proof.
  apply (averateResponseTime_between 601 1800 answered_leads).
  - intros l Hl Hne. simpl in Hl.
    destruct Hl as [<-|[<-|[<-|[]]]]; simpl in *; lia.
  - exists (set_responseTime 1800 (sample_lead 1 "2025-0307")).
    split; [now left | discriminate].
Defined.

Section WeeklyGraph.

Variable fullYear_of : Z -> Z.
Variable jan1_of : Z -> Z.
Variable day_of : Z -> Z.

(** The week number in integers: the days since the Sunday on or
    before 1 January, counted from 1, in weeks, rounded up. *)
Lemma getWeekNumber_Z (date : Z) :
  getWeekNumber jan1_of day_of date
  = (- ((- (date - jan1_of date + (day_of (jan1_of date) + 1) * 86400000))
        / (7 * 86400000)))%Z.
Proof.
  unfold getWeekNumber, Math_ceil, Qceiling.
  f_equal.
  set (ms := (date - jan1_of date)%Z).
  set (wd := day_of (jan1_of date)).
  assert (E : (- ((inject_Z ms / inject_Z (1000 * 60 * 60 * 24)
                   + inject_Z wd + 1) / 7)
               == (- (ms + (wd + 1) * 86400000)) # 604800000)%Q).
  { unfold Qeq, Qdiv, Qplus, Qmult, Qinv, Qopp, inject_Z.
    cbn [Qnum Qden Z.mul Pos.mul]. simpl Qnum. simpl Qden. lia. }
  rewrite (Qfloor_comp _ _ E). reflexivity.
Qed.

Lemma getWeekNumber_le (d1 d2 : Z) :
  jan1_of d1 = jan1_of d2 -> (d1 <= d2)%Z ->
  (getWeekNumber jan1_of day_of d1 <= getWeekNumber jan1_of day_of d2)%Z.
Proof.
  intros Hy Hle. rewrite !getWeekNumber_Z, Hy.
  apply Z.opp_le_mono. rewrite !Z.opp_involutive.
  apply Z.div_le_mono; lia.
Qed.

Lemma increment_length (n : nat) (g : list Z) :
  List.length (increment n g) = List.length g.
Proof.
  revert n. induction g as [|x g IH]; intros [|n]; simpl; auto.
Qed.

Lemma increment_nth (n m : nat) (g : list Z) :
  n < List.length g ->
  nth m (increment n g) 0%Z
  = (nth m g 0 + if (m =? n)%nat then 1 else 0)%Z.
Proof.
  revert n m. induction g as [|x g IH]; intros n m Hn; simpl in Hn; [lia|].
  destruct n as [|n], m as [|m]; simpl; try lia.
  apply IH. lia.
Qed.

Lemma bin_lead_length (now : Z) (g : list Z) (l : LeadDoc) :
  List.length (bin_lead fullYear_of jan1_of day_of now g l) = List.length g.
Proof.
  unfold bin_lead.
  destruct (_ =? _)%Z; [|reflexivity].
  destruct (_ && _); [apply increment_length | reflexivity].
Qed.

Lemma bin_lead_nth (now k : Z) (g : list Z) (l : LeadDoc) :
  List.length g = 10 -> (0 <= k < 10)%Z ->
  nth (Z.to_nat (9 - k)) (bin_lead fullYear_of jan1_of day_of now g l) 0%Z
  = (nth (Z.to_nat (9 - k)) g 0
     + if (fullYear_of (createdAt l) =? fullYear_of now)%Z
          && (weekIndexFromNow jan1_of day_of now l =? k)%Z
       then 1 else 0)%Z.
Proof.
  intros Hg Hk. unfold bin_lead.
  destruct (fullYear_of (createdAt l) =? fullYear_of now)%Z; cbn [andb];
    [|lia].
  generalize (weekIndexFromNow jan1_of day_of now l). intros idx.
  destruct ((0 <=? idx) && (idx <? 10))%Z eqn:Hin.
  - apply andb_true_iff in Hin. destruct Hin as [H0 H10].
    apply Z.leb_le in H0. apply Z.ltb_lt in H10.
    rewrite increment_nth by (rewrite Hg; lia).
    destruct (idx =? k)%Z eqn:E.
    + apply Z.eqb_eq in E. subst k. now rewrite Nat.eqb_refl.
    + apply Z.eqb_neq in E.
      destruct (Z.to_nat (9 - k) =? Z.to_nat (9 - idx)) eqn:E';
        [apply Nat.eqb_eq in E'; lia | reflexivity].
  - destruct (idx =? k)%Z eqn:E; [|lia].
    apply Z.eqb_eq in E. subst k.
    apply andb_false_iff in Hin.
    destruct Hin as [H|H]; [apply Z.leb_gt in H | apply Z.ltb_ge in H]; lia.
Qed.

Lemma fold_bin_nth (now k : Z) (ls : list LeadDoc) : forall g,
  List.length g = 10 -> (0 <= k < 10)%Z ->
  List.length (fold_left (bin_lead fullYear_of jan1_of day_of now) ls g) = 10
  /\ nth (Z.to_nat (9 - k))
         (fold_left (bin_lead fullYear_of jan1_of day_of now) ls g) 0%Z
     = (nth (Z.to_nat (9 - k)) g 0
        + Z.of_nat
            (List.length
               (filter (fun l =>
                          (fullYear_of (createdAt l) =? fullYear_of now)%Z
                          && (weekIndexFromNow jan1_of day_of now l =? k)%Z)
                       ls)))%Z.
Proof.
  induction ls as [|l ls IH]; intros g Hg Hk; cbn [fold_left filter].
  - split; [exact Hg | cbn [List.length]; lia].
  - destruct (IH (bin_lead fullYear_of jan1_of day_of now g l)) as [Hl Hn];
      [now rewrite bin_lead_length | exact Hk |].
    split; [exact Hl|]. rewrite Hn, bin_lead_nth by assumption.
    destruct (_ && _); cbn [List.length]; lia.
Qed.

End WeeklyGraph.

(** X19. Within a year the week number lies between 1 and 54, for a
    date from 1 January on and less than 366 days later, whatever the
    weekday of 1 January. *)
Theorem getWeekNumber_bounds (jan1_of day_of : Z -> Z) (date : Z) :
  (jan1_of date <= date < jan1_of date + 366 * 86400000)%Z ->
  (0 <= day_of (jan1_of date) <= 6)%Z ->
  (1 <= getWeekNumber jan1_of day_of date <= 54)%Z.
Proof.
  intros Hd Hw. rewrite getWeekNumber_Z.
  set (x := (date - jan1_of date
             + (day_of (jan1_of date) + 1) * 86400000)%Z).
  assert (Hx : (0 < x <= 373 * 86400000)%Z) by (unfold x; lia).
  assert (H1 : ((- x) / (7 * 86400000) <= -1)%Z).
  { apply Z.lt_succ_r. apply Z.div_lt_upper_bound; lia. }
  assert (H2 : (-54 <= (- x) / (7 * 86400000))%Z).
  { apply Z.div_le_lower_bound; lia. }
  lia.
Qed.

Lemma getWeekNumber_bounds_witness :
  (1 <= getWeekNumber jan1_2025 wednesday 1741305600000 <= 54)%Z.
Proof.
  apply (getWeekNumber_bounds jan1_2025 wednesday 1741305600000);
    unfold jan1_2025, wednesday; lia.
Defined.

Example getWeekNumber_7_march_2025 :
  getWeekNumber jan1_2025 wednesday 1741305600000 = 10%Z.
Proof. reflexivity. Qed.

(** X20. A lead created in the current year, not after now, is never
    ahead of the current week: its week offset is not negative, so it
    leaves the graph only by being more than nine weeks old. *)
Theorem weekIndexFromNow_nonneg
    (jan1_of day_of : Z -> Z) (now : Z) (lead : LeadDoc) :
  jan1_of (createdAt lead) = jan1_of now ->
  (createdAt lead <= now)%Z ->
  (0 <= weekIndexFromNow jan1_of day_of now lead)%Z.
Proof.
  intros Hy Hle. unfold weekIndexFromNow.
  pose proof (getWeekNumber_le jan1_of day_of _ _ Hy Hle). lia.
Qed.

Lemma weekIndexFromNow_nonneg_witness :
  (0 <= weekIndexFromNow jan1_2025 wednesday 1741312800000
          (sample_lead 1%nat "2025-0307"))%Z.
Proof.
  apply (weekIndexFromNow_nonneg jan1_2025 wednesday 1741312800000
           (sample_lead 1 "2025-0307")).
  - reflexivity.
  - simpl. lia.
Defined.

(** X21. The weekly graph always has ten entries, and for every [k]
    from 0 to 9 the entry at index 9 - [k] is the number of flagged
    leads of the current year that were created [k] weeks before the
    current week; leads that are not flagged, of another year, or
    further back are counted nowhere. *)
Theorem missedChatsByWeek_bins
    (fullYear_of jan1_of day_of : Z -> Z) (now k : Z) (ls : list LeadDoc) :
  (0 <= k < 10)%Z ->
  List.length (missedChatsByWeek fullYear_of jan1_of day_of now ls) = 10
  /\ nth (Z.to_nat (9 - k))
         (missedChatsByWeek fullYear_of jan1_of day_of now ls) 0%Z
     = Z.of_nat
         (List.length
            (missed_weeks_back fullYear_of jan1_of day_of now k ls)).
Proof.
  intros Hk. unfold missedChatsByWeek.
  destruct (fold_bin_nth fullYear_of jan1_of day_of now k
              (filter isMissedChat ls) (repeat 0%Z 10) eq_refl Hk)
    as [Hl Hn].
  split; [exact Hl|]. rewrite Hn.
  assert (E : nth (Z.to_nat (9 - k)) (repeat 0%Z 10) 0%Z = 0%Z).
  { apply nth_repeat. }
  rewrite E. simpl Z.add. do 2 f_equal.
  unfold missed_weeks_back. clear.
  induction ls as [|l ls IH]; simpl; [reflexivity|].
  destruct (isMissedChat l); simpl; [|exact IH].
  destruct (_ && _); simpl; now rewrite IH.
Qed.

Lemma missedChatsByWeek_bins_witness :
  List.length (missedChatsByWeek year_2025 jan1_2025 wednesday
                 1741312800000 two_missed) = 10
  /\ nth (Z.to_nat (9 - 2))
         (missedChatsByWeek year_2025 jan1_2025 wednesday
            1741312800000 two_missed) 0%Z
     = Z.of_nat
         (List.length
            (missed_weeks_back year_2025 jan1_2025 wednesday
               1741312800000 2 two_missed)).
Proof.
  apply (missedChatsByWeek_bins year_2025 jan1_2025 wednesday
           1741312800000 2 two_missed).
  lia.
Defined.

Example missedChatsByWeek_two_missed :
  missedChatsByWeek year_2025 jan1_2025 wednesday 1741312800000 two_missed
  = [0; 0; 0; 0; 0; 0; 0; 1; 0; 1]%Z.
Proof. reflexivity. Qed.

(* ================================================================== *)
(** ** A ticket code tells its day and its number *)
(* ================================================================== *)

Section TicketCodes.

Lemma string_app_assoc (a b c : string) :
  ((a ++ b) ++ c = a ++ (b ++ c))%string.
Proof. induction a as [|x a IH]; simpl; [reflexivity | now rewrite IH]. Qed.

Lemma uint_dash_free (d : uint) :
  dash_free (NilEmpty.string_of_uint d) = true.
Proof. induction d; simpl; auto. Qed.

Lemma num_dash_free (n : nat) : dash_free (num n) = true.
Proof. apply uint_dash_free. Qed.

Lemma split_at_dash (a b : string) :
  dash_free a = true ->
  before_dash (a ++ String "-" b) = a /\ after_dash (a ++ String "-" b) = b.
Proof.
  induction a as [|x a IH]; simpl; intros H; [auto|].
  apply andb_true_iff in H. destruct H as [Hx Ha].
  apply negb_true_iff in Hx. rewrite Hx.
  destruct (IH Ha) as [-> ->]. auto.
Qed.

Lemma num_inj (a b : nat) : num a = num b -> a = b.
Proof.
  intros H. apply (f_equal parse) in H.
  rewrite !parse_num in H. congruence.
Qed.

Lemma pad2_two (n : nat) :
  n <= 31 -> exists a b, pad2 n = String a (String b EmptyString).
Proof.
  intros H.
  do 32 (destruct n as [|n]; [do 2 eexists; reflexivity|]).
  lia.
Qed.

(** A probe is the year, a dash, and the rest. *)
Lemma probe_shape (c : Clock) (k : nat) :
  probe (baseTicketID c) k
  = (num (getFullYear c)
     ++ String "-"
          (pad2 (getMonth c + 1) ++ pad2 (getDate c)
           ++ match k with
              | O => EmptyString
              | S _ => String "-" (pad2 k)
              end))%string.
Proof.
  unfold probe, baseTicketID. destruct k; simpl.
  - do 3 f_equal.
    induction (pad2 (getDate c)); simpl; congruence.
  - rewrite string_app_assoc. simpl. now rewrite string_app_assoc.
Qed.

End TicketCodes.

(** X22. A ticket code tells the day it was issued on and its number
    on that day: two probes of the sequencer are the same string only
    for the same year, month, day and sequence number. *)
Theorem ticket_code_injective (c c' : Clock) (k k' : nat) :
  calendar_date c -> calendar_date c' ->
  probe (baseTicketID c) k = probe (baseTicketID c') k' ->
  getFullYear c = getFullYear c'
  /\ getMonth c = getMonth c'
  /\ getDate c = getDate c'
  /\ k = k'.
Proof.
  intros [Hm Hd] [Hm' Hd'] H.
  rewrite !probe_shape in H.
  pose proof (split_at_dash (num (getFullYear c))
                (pad2 (getMonth c + 1) ++ pad2 (getDate c)
                 ++ match k with
                    | O => EmptyString
                    | S _ => String "-" (pad2 k)
                    end)%string (num_dash_free _)) as [Hb Ha].
  pose proof (split_at_dash (num (getFullYear c'))
                (pad2 (getMonth c' + 1) ++ pad2 (getDate c')
                 ++ match k' with
                    | O => EmptyString
                    | S _ => String "-" (pad2 k')
                    end)%string (num_dash_free _)) as [Hb' Ha'].
  rewrite H in Hb, Ha. rewrite Hb' in Hb. rewrite Ha' in Ha.
  apply num_inj in Hb.
  destruct (pad2_two (getMonth c + 1)) as [m1 [m2 Em]]; [lia|].
  destruct (pad2_two (getMonth c' + 1)) as [m1' [m2' Em']]; [lia|].
  destruct (pad2_two (getDate c)) as [d1 [d2 Ed]]; [lia|].
  destruct (pad2_two (getDate c')) as [d1' [d2' Ed']]; [lia|].
  rewrite Em, Em', Ed, Ed' in Ha. simpl in Ha.
  injection Ha as -> -> -> -> Hk.
  rewrite <- Em in Em'. apply pad2_inj in Em'.
  rewrite <- Ed in Ed'. apply pad2_inj in Ed'.
  repeat split; try lia.
  destruct k as [|k], k' as [|k']; try discriminate; [reflexivity|].
  injection Hk as Hk. now apply pad2_inj.
Qed.

Lemma ticket_code_injective_witness :
  getFullYear sample_clock = getFullYear later_clock
  /\ getMonth sample_clock = getMonth later_clock
  /\ getDate sample_clock = getDate later_clock
  /\ 2 = 2.
Proof.
  apply (ticket_code_injective sample_clock later_clock 2 2).
  - unfold calendar_date. simpl. lia.
  - unfold calendar_date. simpl. lia.
  - reflexivity.
Defined.

(* ================================================================== *)
(** ** Staff accounts *)
(* ================================================================== *)

Lemma deleteMember_run (uid m : id) (w : World) :
  run (deleteMember uid (Some m)) w
  = match find (fun u => user_id u =? m) (users w) with
    | None => (Failure NOT_FOUND, w)
    | Some v =>
        match userRole v, parent v with
        | Admin, _ => (Failure UNAUTHORIZED, w)
        | Member, None => (Thrown, w)
        | Member, Some p =>
            if p =? uid
            then (Success, set_users (remove_user m (users w)) w)
            else (Failure UNAUTHORIZED, w)
        end
    end.
Proof.
  unfold deleteMember, User_deleteOne, document_deleteOne.
  rewrite user_middleware_empty. unfold_monad. simpl.
  destruct (find (fun u => user_id u =? m) (users w)) as [v|] eqn:E;
    simpl; [|reflexivity].
  pose proof (find_user_id _ _ _ E) as Hid.
  destruct (userRole v); simpl; [reflexivity|].
  destruct (parent v) as [p|]; simpl; [|reflexivity].
  unfold toString_neq. destruct (p =? uid); simpl; [|reflexivity].
  now rewrite Hid.
Qed.

(** X23. [deleteMember] succeeds exactly when the user to delete is
    stored, is a Member, and was created under the requesting user;
    then that one user document is removed. In every other case
    nothing is written. *)
Theorem deleteMember_outcome (uid m : id) (w : World) :
  (fst (run (deleteMember uid (Some m)) w) = Success
   <-> exists v,
         find (fun u => user_id u =? m) (users w) = Some v
         /\ userRole v = Member /\ parent v = Some uid)
  /\ (fst (run (deleteMember uid (Some m)) w) = Success ->
      snd (run (deleteMember uid (Some m)) w)
      = set_users (remove_user m (users w)) w)
  /\ (fst (run (deleteMember uid (Some m)) w) <> Success ->
      snd (run (deleteMember uid (Some m)) w) = w).
Proof.
  rewrite deleteMember_run.
  destruct (find (fun u => user_id u =? m) (users w)) as [v|].
  - destruct (userRole v) eqn:Hr.
    + simpl. repeat split; try discriminate.
      intros [v' [Hv [Hm _]]]. injection Hv as <-. congruence.
    + destruct (parent v) as [p|] eqn:Hp.
      * destruct (p =? uid) eqn:E.
        -- apply Nat.eqb_eq in E. subst p. simpl.
           repeat split; try tauto. exists v. auto.
        -- apply Nat.eqb_neq in E. simpl.
           repeat split; try discriminate.
           intros [v' [Hv [_ Hp']]]. injection Hv as <-. congruence.
      * simpl. repeat split; try discriminate.
        intros [v' [Hv [_ Hp']]]. injection Hv as <-. congruence.
  - simpl. repeat split; try discriminate.
    intros [v' [Hv _]]. discriminate.
Qed.

Lemma user_create_run (fn ln : option string) (e : string) (role : Role)
    (par : option id) (s : HState) :
  User_create fn ln e role par s
  = if required_ok fn ln (Some e)
    then (Cont tt,
          mkH (mkWorld (users (world s)
                        ++ [mkUser (next_id (world s)) (trim e) role par])
                       (leads (world s)) (conversations (world s))
                       (settings (world s)) (S (next_id (world s))))
              (heap s) (answer s))
    else (Exit,
          mkH (world s) (heap s)
              (match answer s with
               | Some r0 => Some r0
               | None => Some Thrown
               end)).
Proof.
  unfold User_create. destruct (required_ok fn ln (Some e)); reflexivity.
Qed.

Lemma postRegister_users (body : RegisterBody) (w : World) :
  (fst (run (postRegister body) w) <> Success
   /\ snd (run (postRegister body) w) = w)
  \/ exists e,
       r_email body = Some e
       /\ find (fun u => String.eqb (email u) (trim e)) (users w) = None
       /\ run (postRegister body) w
          = (Success,
             mkWorld
               (users w
                ++ [mkUser (next_id w) (trim e)
                      (match first_admin w with
                       | Some _ => Member
                       | None => Admin
                       end)
                      (option_map user_id (first_admin w))])
               (leads w) (conversations w) (settings w) (S (next_id w))).
Proof.
  unfold postRegister, first_admin.
  destruct (falsy (r_firstName body) || falsy (r_lastName body)
            || falsy (r_email body) || falsy (r_password body)
            || falsy (r_confirmPassword body));
    [left; split; [discriminate | reflexivity]|].
  destruct (negb (opt_string_eqb (r_password body) (r_confirmPassword body)));
    [left; split; [discriminate | reflexivity]|].
  destruct (r_email body) as [e|];
    [|left; split; [discriminate | reflexivity]].
  unfold User_findOne_email, User_create. unfold_monad. simpl.
  destruct (find (fun u => String.eqb (email u) (trim e)) (users w))
    as [u|] eqn:Hu; simpl;
    [left; split; [discriminate | reflexivity]|].
  destruct (find (fun u => Role_eqb (userRole u) Admin) (users w))
    as [a|] eqn:Ha; simpl;
    (destruct (required_ok (r_firstName body) (r_lastName body) (Some e));
     simpl;
     [ right; exists e; split; [reflexivity|]; split; [exact Hu|];
       reflexivity
     | left; split; [discriminate | reflexivity] ]).
Qed.

(** X24. The first account registered becomes the Admin, with no
    parent; every later registration gives a Member whose parent is
    the first Admin of the collection. A registration never stores a
    second account under an email that is already there, and a refused
    registration stores nothing. *)
Theorem postRegister_roles (body : RegisterBody) (w : World) :
  (fst (run (postRegister body) w) <> Success ->
   snd (run (postRegister body) w) = w)
  /\ (fst (run (postRegister body) w) = Success ->
      exists new,
        users (snd (run (postRegister body) w)) = users w ++ [new]
        /\ (forall u, In u (users w) -> email u <> email new)
        /\ match first_admin w with
           | None => userRole new = Admin /\ parent new = None
           | Some admin =>
               userRole new = Member /\ parent new = Some (user_id admin)
           end).
Proof.
  destruct (postRegister_users body w) as [[Hne Hw]|[e [He [Hfree Hr]]]].
  - split; [auto | contradiction].
  - rewrite Hr. cbn [fst snd users].
    split; [intros H; now contradiction H|]. intros _.
    eexists. split; [reflexivity|]. split.
    + intros u Hu Heq. simpl in Heq.
      apply (find_none _ _ Hfree) in Hu.
      apply String.eqb_neq in Hu. contradiction.
    + destruct (first_admin w); simpl; auto.
Qed.

Example first_registrant_is_admin :
  users (run_staff [Register ann; Register bob] empty_world)
  = [mkUser 0 "ann@hubly.test" Admin None;
     mkUser 1 "bob@hubly.test" Member (Some 0)].
Proof. reflexivity. Qed.

Lemma deleteMember_outcome_witness :
  fst (run (deleteMember 0 (Some 1)) flagged_world) = Success
  /\ snd (run (deleteMember 0 (Some 1)) flagged_world)
     = set_users (remove_user 1 (users flagged_world)) flagged_world
  /\ snd (run (deleteMember 1 (Some 0)) flagged_world) = flagged_world.
Proof.
  destruct (deleteMember_outcome 0 1 flagged_world) as [[_ H1] [H2 _]].
  destruct (deleteMember_outcome 1 0 flagged_world) as [_ [_ H3]].
  assert (Hok : fst (run (deleteMember 0 (Some 1)) flagged_world) = Success).
  { apply H1. exists (mkUser 1 "member@hubly.test" Member (Some 0)).
    repeat split. }
  split; [exact Hok|]. split; [exact (H2 Hok)|].
  apply H3. discriminate.
Defined.

Lemma postRegister_roles_witness :
  exists new,
    users (snd (run (postRegister bob) scenario_world))
    = users scenario_world ++ [new]
    /\ (forall u, In u (users scenario_world) -> email u <> email new)
    /\ userRole new = Member /\ parent new = Some 0.
Proof.
  destruct (postRegister_roles bob scenario_world) as [_ H].
  apply H. reflexivity.
Defined.

Lemma postMember_users (body : MemberBody) (w : World) :
  (fst (run (postMember body) w) <> Success
   /\ snd (run (postMember body) w) = w)
  \/ exists name e role admin,
       m_name body = Some name
       /\ m_email body = Some e
       /\ first_admin w = Some admin
       /\ option_map role_of (m_designation body) = Some (Some role)
       /\ required_ok (nth_error (split_space name) 0)
                      (nth_error (split_space name) 1) (Some e) = true
       /\ find (fun u => String.eqb (email u) (trim e)) (users w) = None
       /\ run (postMember body) w
          = (Success,
             mkWorld
               (users w
                ++ [mkUser (next_id w) (trim e) role (Some (user_id admin))])
               (leads w) (conversations w) (settings w) (S (next_id w))).
Proof.
  unfold postMember, first_admin.
  destruct (m_name body) as [name|];
    [|left; split; [discriminate | reflexivity]].
  destruct (m_email body) as [e|];
    [|left; split; [discriminate | reflexivity]].
  destruct (m_designation body) as [d|];
    [|left; split; [discriminate | reflexivity]].
  destruct (falsy (Some name) || falsy (Some e) || falsy (Some d));
    [left; split; [discriminate | reflexivity]|].
  unfold User_findOne_email. unfold_monad. simpl.
  destruct (find (fun u => String.eqb (email u) (trim e)) (users w))
    as [u|] eqn:Hu; simpl;
    [left; split; [discriminate | reflexivity]|].
  destruct (find (fun u => Role_eqb (userRole u) Admin) (users w))
    as [a|] eqn:Ha; simpl;
    [|left; split; [discriminate | reflexivity]].
  destruct (role_of d) as [role|] eqn:Hd; cbn [snd fst];
    [|left; split; [discriminate | reflexivity]].
  rewrite user_create_run. cbn [world heap answer next_id users].
  match goal with
  | |- context [if ?b then _ else _] => destruct b eqn:Hreq
  end; simpl; [|left; split; [discriminate | reflexivity]].
  right. exists name, e, role, a.
  repeat (split; [first [reflexivity | assumption]|]). reflexivity.
Qed.

(** X25. A member cannot be added under a name without a space: the
    second part of the split name is missing, the account fails
    validation, and nothing is stored. *)
Theorem postMember_needs_two_names
    (body : MemberBody) (name : string) (w : World) :
  m_name body = Some name ->
  List.length (split_space name) = 1 ->
  fst (run (postMember body) w) <> Success
  /\ snd (run (postMember body) w) = w.
Proof.
  intros Hn Hlen.
  destruct (postMember_users body w)
    as [H|[name' [e [role [a [Hn' [_ [_ [_ [Hreq _]]]]]]]]]]; [exact H|].
  rewrite Hn in Hn'. injection Hn' as <-.
  destruct (split_space name) as [|p [|q ps]]; try discriminate.
  unfold required_ok in Hreq. simpl in Hreq.
  rewrite andb_false_r in Hreq. discriminate.
Qed.

Lemma postMember_needs_two_names_witness :
  fst (run (postMember (mkMemberBody (Some "Dee") (Some "dee@hubly.test")
                                     (Some "Member")))
           scenario_world) <> Success
  /\ snd (run (postMember (mkMemberBody (Some "Dee") (Some "dee@hubly.test")
                                        (Some "Member")))
              scenario_world) = scenario_world.
Proof.
  apply (postMember_needs_two_names
           (mkMemberBody (Some "Dee") (Some "dee@hubly.test") (Some "Member"))
           "Dee" scenario_world); reflexivity.
Defined.

Lemma find_snoc_some {A} (f : A -> bool) (l : list A) (x a : A) :
  find f l = Some a -> find f (l ++ [x]) = Some a.
Proof.
  induction l as [|y l IH]; simpl; [discriminate|].
  destruct (f y); auto.
Qed.

Lemma find_remove_user (f : UserDoc -> bool) (m : id) (us : list UserDoc)
    (v : UserDoc) :
  find (fun u => user_id u =? m) us = Some v ->
  f v = false ->
  find f (remove_user m us) = find f us.
Proof.
  induction us as [|u us IH]; simpl; intros Hv Hf; [reflexivity|].
  destruct (user_id u =? m) eqn:E.
  - injection Hv as ->. now rewrite Hf.
  - simpl. destruct (f u); auto.
Qed.

Lemma staff_step_first_admin (o : StaffOp) (w : World) (a : UserDoc) :
  first_admin w = Some a -> first_admin (staff_step o w) = Some a.
Proof.
  intros Ha. unfold staff_step. destruct o as [b|b|u m]; cbn [staff_handler].
  - destruct (postRegister_users b w) as [[_ ->]|[e [_ [_ ->]]]];
      [exact Ha|].
    unfold first_admin in *. cbn [snd users]. now apply find_snoc_some.
  - destruct (postMember_users b w)
      as [[_ ->]|[n [e [r [ad [_ [_ [_ [_ [_ [_ ->]]]]]]]]]]]; [exact Ha|].
    unfold first_admin in *. cbn [snd users]. now apply find_snoc_some.
  - destruct m as [m|]; [|exact Ha].
    rewrite deleteMember_run.
    destruct (find (fun u => user_id u =? m) (users w)) as [v|] eqn:Hv;
      [|exact Ha].
    destruct (userRole v) eqn:Hr; [exact Ha|].
    destruct (parent v) as [p|]; [|exact Ha].
    destruct (p =? u); [|exact Ha].
    unfold first_admin in *. cbn [snd users set_users].
    rewrite (find_remove_user _ m (users w) v Hv); [exact Ha|].
    now rewrite Hr.
Qed.

(** X26. Once an Admin is stored, the account that
    [User.findOne({ userRole: 'Admin' })] finds, the one new leads are
    assigned to, stays the same through every sequence of
    registrations, member creations and member deletions, even when
    further Admins are created. *)
Theorem first_admin_stable (ops : list StaffOp) (w : World) (a : UserDoc) :
  first_admin w = Some a -> first_admin (run_staff ops w) = Some a.
Proof.
  revert w. induction ops as [|o ops IH]; intros w Ha; simpl; [exact Ha|].
  apply IH. now apply staff_step_first_admin.
Qed.

Lemma first_admin_stable_witness :
  first_admin (run_staff staff_ops scenario_world)
  = Some (mkUser 0 "admin@hubly.test" Admin None).
Proof.
  apply (first_admin_stable staff_ops scenario_world). reflexivity.
Defined.

Example second_admin_added :
  map userRole (users (run_staff staff_ops scenario_world))
  = [Admin; Admin].
Proof. reflexivity. Qed.

Lemma remove_user_emails_incl (m : id) (us : list UserDoc) :
  forall e, In e (map email (remove_user m us)) -> In e (map email us).
Proof.
  induction us as [|u us IH]; simpl; intros e H; [exact H|].
  destruct (user_id u =? m); simpl in H; intuition.
Qed.

Lemma remove_user_emails_NoDup (m : id) (us : list UserDoc) :
  NoDup (map email us) -> NoDup (map email (remove_user m us)).
Proof.
  induction us as [|u us IH]; simpl; intros H; [exact H|].
  inversion H as [|? ? Hnotin Hrest]; subst.
  destruct (user_id u =? m); [exact Hrest|].
  simpl. constructor; [|auto].
  intros Hin. apply Hnotin. eapply remove_user_emails_incl; eauto.
Qed.

Lemma emails_snoc_NoDup (us : list UserDoc) (new : UserDoc) :
  NoDup (map email us) ->
  find (fun u => String.eqb (email u) (email new)) us = None ->
  NoDup (map email (us ++ [new])).
Proof.
  intros H Hfree. rewrite map_app. simpl.
  apply NoDup_app; [exact H | repeat constructor; intros [] |].
  intros x Hx [<-|[]].
  apply in_map_iff in Hx. destruct Hx as [u [Hu Hin]].
  apply (find_none _ _ Hfree) in Hin.
  apply String.eqb_neq in Hin. contradiction.
Qed.

(** X27. No two stored accounts share an email: if the emails are
    pairwise distinct they stay so through every sequence of
    registrations, member creations and member deletions. *)
Theorem emails_stay_distinct (ops : list StaffOp) (w : World) :
  NoDup (map email (users w)) ->
  NoDup (map email (users (run_staff ops w))).
Proof.
  revert w. induction ops as [|o ops IH]; intros w H; simpl; [exact H|].
  apply IH. unfold staff_step. destruct o as [b|b|u m]; cbn [staff_handler].
  - destruct (postRegister_users b w) as [[_ ->]|[e [_ [Hfree ->]]]];
      [exact H|].
    cbn [snd users]. now apply emails_snoc_NoDup.
  - destruct (postMember_users b w)
      as [[_ ->]|[n [e [r [ad [_ [_ [_ [_ [_ [Hfree ->]]]]]]]]]]]; [exact H|].
    cbn [snd users]. now apply emails_snoc_NoDup.
  - destruct m as [m|]; [|exact H].
    rewrite deleteMember_run.
    destruct (find (fun x => user_id x =? m) (users w)) as [v|];
      [|exact H].
    destruct (userRole v); [exact H|].
    destruct (parent v) as [p|]; [|exact H].
    destruct (p =? u); [|exact H].
    cbn [snd users set_users]. now apply remove_user_emails_NoDup.
Qed.

Lemma emails_stay_distinct_witness :
  NoDup (map email (users (run_staff staff_ops scenario_world))).
Proof.
  apply (emails_stay_distinct staff_ops scenario_world).
  repeat constructor. intros [].
Defined.

(* ================================================================== *)
(** * What the requests can build *)
(* ================================================================== *)

Section Writes.













End Writes.

(* ================================================================== *)
(** ** Ticket codes along the requests *)
(* ================================================================== *)






Example office_codes :
  issued_codes office_ops empty_world = ["2025-0307"; "2025-0307-01"]
  /\ map ticketID (leads office_world) = ["2025-0307"; "2025-0307-01"].
Proof. split; vm_compute; reflexivity. Qed.

(* ================================================================== *)
(** ** Whom the leads and the turns refer to *)
(* ================================================================== *)

Section References.























End References.



Example office_world_store :
  map (fun u => (user_id u, userRole u)) (users office_world)
  = [(0, Admin); (1, Member)]
  /\ map (fun l => (lead_id l, currentAssignee l, assigneeList l))
         (leads office_world)
     = [(2, Some 0, [0]); (5, Some 0, [0])]
  /\ map (fun c => (leadID c, sendBy c, assigneeID c))
         (conversations office_world)
     = [(2, SendByLead, None); (2, SendByMember, Some 0);
        (5, SendByLead, None)]
  /\ run (deleteMember 0 (Some 1)) office_world
     = (Success,
        set_users [mkUser 0 "ann@hubly.test" Admin None] office_world).
Proof. repeat split; vm_compute; reflexivity. Qed.

(* ================================================================== *)
(** ** Trimming *)
(* ================================================================== *)

(** [trim] strips the white space of ECMAScript at both ends, no-break
    space (C2 A0) and byte order mark (EF BB BF) included, and leaves
    the inside of the string alone. *)
Example trim_strips_white_space :
  trim " bob@hubly.test " = "bob@hubly.test"
  /\ trim (String (ascii_of_nat 194) (String (ascii_of_nat 160)
             ("Bob  Ray"
              ++ String (ascii_of_nat 239) (String (ascii_of_nat 187)
                   (String (ascii_of_nat 191)
                      (String (ascii_of_nat 9) ""))))))
     = "Bob  Ray"
  /\ trim (String (ascii_of_nat 226) (String (ascii_of_nat 128)
             (String (ascii_of_nat 168) "")))
     = ""
  /\ trim (String (ascii_of_nat 195) (String (ascii_of_nat 160) ""))
     = String (ascii_of_nat 195) (String (ascii_of_nat 160) "").
Proof. repeat split; reflexivity. Qed.
